(** * Ai-Travel-Guide backend: suggestion normaliser, listing pipeline and
    weather cache.

    A shallow embedding of
      - [backend/app/routes/suggestions.py]   ([normalize_suggestion_data],
        [get_suggestions], [generate_ai_suggestions],
        [create_or_update_suggestion], [delete_suggestion],
        [migrate_database]),
      - [backend/app/services/ai_service.py]  ([generate_suggestions],
        [generate_single_suggestion], [generate_travel_tips]),
      - [backend/app/services/weather_service.py] ([WeatherService]),
      - [backend/app/routes/itinerary.py]     ([get_weather_info]),
      - [backend/app/utils/helpers.py]        ([extract_city_from_destination],
        [truncate_text], [parse_interests_tags]),
    together with the properties the specification states about them, and
    further properties read off the code.

    Conventions.
      - A Python [str] is a [string]; one [ascii] stands for one code point
        (so the strings covered are those with code points below 256).
      - A Python [dict] with string keys that the code reads and writes by
        key is a [gmap string value]; JSON objects nested inside a value are
        association lists.
      - [int] is [Z]; a [float] is the rational it stands for, in [Q]:
        the numbers of a weather payload are finite binary64 floats, their
        sums, quotients and products are rounded to binary64, and a float
        that [round(x, 1)] gives is written as the tenth it is nearest to,
        which is what its text shows. Infinities, NaN and the sign of zero
        are not represented.
      - [datetime] values are microseconds since the epoch, in [Z]. *)

From Stdlib Require Import ZArith QArith Qround Qabs Qpower Lia Lqa Bool Ascii.
From stdpp Require Import base option list strings pretty gmap.

Set Warnings "-register-all".

Open Scope Z_scope.

(** ** Python values *)

Inductive value : Type :=
  | VNone
  | VBool (b : bool)
  | VInt (n : Z)
  | VFloat (q : Q)
  | VStr (s : string)
  | VList (l : list value)
  | VDict (kvs : list (string * value))
  | VDate (t : Z)
  | VObjectId (oid : nat).

(** [isinstance(v, str)] *)
Definition is_str (v : value) : bool :=
  match v with VStr _ => true | _ => false end.

(** A sequence of text: a list all of whose elements are [str]. *)
Definition is_text_seq (v : value) : bool :=
  match v with VList l => forallb is_str l | _ => false end.

(** ** Python string operations *)

Module PyStr.

(** [str.isspace] on one code point below 256: TAB..CR, FS..US, space,
    NEL and NBSP. *)
Definition isspace (c : ascii) : bool :=
  let n := N_of_ascii c in
  ((9 <=? n) && (n <=? 13) || (28 <=? n) && (n <=? 32)
   || (n =? 133) || (n =? 160))%N.

Fixpoint rev_onto (acc s : string) : string :=
  match s with
  | EmptyString => acc
  | String c s' => rev_onto (String c acc) s'
  end.

Definition rev (s : string) : string := rev_onto EmptyString s.

Fixpoint lstrip (s : string) : string :=
  match s with
  | EmptyString => EmptyString
  | String c s' => if isspace c then lstrip s' else s
  end.

Definition rstrip (s : string) : string := rev (lstrip (rev s)).

(** [s.strip()] *)
Definition strip (s : string) : string := rstrip (lstrip s).

(** [c in s] for a one-character [c]. *)
Fixpoint contains (c : ascii) (s : string) : bool :=
  match s with
  | EmptyString => false
  | String c' s' => if Ascii.eqb c' c then true else contains c s'
  end.

(** [s.split(sep)] for a one-character separator: every occurrence of
    [sep] ends a piece, so [n] separators give [n + 1] pieces, empty
    ones included. *)
Fixpoint split (sep : ascii) (s : string) : list string :=
  match s with
  | EmptyString => [EmptyString]
  | String c s' =>
      if Ascii.eqb c sep then EmptyString :: split sep s'
      else match split sep s' with
           | piece :: rest => String c piece :: rest
           | [] => [String c EmptyString]
           end
  end.

(** Truthiness of a string: non-empty. *)
Definition truthy (s : string) : bool :=
  match s with EmptyString => false | String _ _ => true end.

(** [s.startswith(p)] *)
Fixpoint startswith (p s : string) : bool :=
  match p, s with
  | EmptyString, _ => true
  | String a p', String b s' => if Ascii.eqb a b then startswith p' s' else false
  | String _ _, EmptyString => false
  end.

(** [s[n:]] *)
Fixpoint drop (n : nat) (s : string) : string :=
  match n, s with
  | O, _ => s
  | S n', String _ s' => drop n' s'
  | S _, EmptyString => EmptyString
  end.

(** [s.split(sep)] for a non-empty separator string. [skip] counts the
    characters of a separator just met that are still to be passed over;
    [cur] is the piece being read, backwards. *)
Fixpoint split_str_go (sep s : string) (skip : nat) (cur : string) : list string :=
  match s with
  | EmptyString => [rev cur]
  | String c s' =>
      match skip with
      | S k => split_str_go sep s' k cur
      | O =>
          if startswith sep s
          then rev cur :: split_str_go sep s' (String.length sep - 1) EmptyString
          else split_str_go sep s' 0 (String c cur)
      end
  end.

Definition split_str (sep s : string) : list string :=
  split_str_go sep s 0 EmptyString.

(** The longest prefix without white space. *)
Fixpoint until_space (s : string) : string :=
  match s with
  | EmptyString => EmptyString
  | String c s' => if isspace c then EmptyString else String c (until_space s')
  end.

(** [s.split()[0]]: the first run of characters that are not white space,
    if there is one. *)
Definition first_word (s : string) : option string :=
  match lstrip s with
  | EmptyString => None
  | t => Some (until_space t)
  end.

(** Only white space; no white space at the start; none at the end. *)
Fixpoint all_space (s : string) : bool :=
  match s with
  | EmptyString => true
  | String c s' => isspace c && all_space s'
  end.

Definition starts_clean (s : string) : bool :=
  match s with
  | EmptyString => true
  | String c _ => negb (isspace c)
  end.

Definition ends_clean (s : string) : bool := starts_clean (rev s).

(** [sep.join(l)] *)
Fixpoint join (sep : string) (l : list string) : string :=
  match l with
  | [] => EmptyString
  | [x] => x
  | x :: l' => x +:+ sep +:+ join sep l'
  end.

(** [s[:n]] for [n >= 0] *)
Fixpoint take (n : nat) (s : string) : string :=
  match n, s with
  | S n', String c s' => String c (take n' s')
  | _, _ => EmptyString
  end.

(** [str.isdigit] on one code point below 256: the decimal digits and the
    superscripts two, three and one. *)
Definition isdigit (c : ascii) : bool :=
  let n := N_of_ascii c in
  ((48 <=? n) && (n <=? 57) || (n =? 178) || (n =? 179) || (n =? 185))%N.

(** [any(p(char) for char in s)] *)
Fixpoint any (p : ascii → bool) (s : string) : bool :=
  match s with
  | EmptyString => false
  | String c s' => p c || any p s'
  end.

End PyStr.

(** ** The suggestion normaliser
    [routes/suggestions.py], [normalize_suggestion_data]. *)

Definition array_fields : list string :=
  ["category"; "highlights"; "best_months"; "popular_activities"; "travel_tips"].

Definition comma : ascii := ","%char.

(** One iteration of the first loop: the body of
    [for field in array_fields: if field in suggestion: ...]. *)
Definition coerce_field (suggestion : gmap string value) (field : string)
  : gmap string value :=
  match suggestion !! field with
  | Some (VStr value) =>
      if PyStr.contains comma value then
        <[field := VList (map (fun item => VStr (PyStr.strip item))
                            (List.filter (fun item => PyStr.truthy (PyStr.strip item))
                               (PyStr.split comma value)))]> suggestion
      else
        <[field := VList (if PyStr.truthy (PyStr.strip value)
                          then [VStr (PyStr.strip value)] else [])]> suggestion
  | Some (VList _) => suggestion
  | Some _ => <[field := VList []]> suggestion
  | None => suggestion
  end.

(** One iteration of the second loop:
    [if field not in suggestion: suggestion[field] = []]. *)
Definition ensure_field (suggestion : gmap string value) (field : string)
  : gmap string value :=
  match suggestion !! field with
  | None => <[field := VList []]> suggestion
  | Some _ => suggestion
  end.

Definition normalize_suggestion_data (suggestion : gmap string value)
  : gmap string value :=
  fold_left ensure_field array_fields
    (fold_left coerce_field array_fields suggestion).

(** What the specification says a field becomes, written from its words:
    absent -> empty; a list -> unchanged; a string with a comma -> the
    pieces, stripped, empty ones dropped; another string -> the stripped
    string alone, or nothing if it strips to empty; anything else -> empty. *)
Definition spec_field (o : option value) : list value :=
  match o with
  | None => []
  | Some (VList l) => l
  | Some (VStr s) =>
      if PyStr.contains comma s then
        map VStr (List.filter (fun p => negb (String.eqb p ""))
                    (map PyStr.strip (PyStr.split comma s)))
      else if String.eqb (PyStr.strip s) "" then []
      else [VStr (PyStr.strip s)]
  | Some _ => []
  end.

(** ** Exceptions and effects

    The exception classes the code raises or catches, and a state monad
    with exceptions in which the effectful functions are written. *)

Inductive exn : Type :=
  | HTTPStatusError (status_code : Z)
  | TimeoutException
  | JSONDecodeError (msg : string) (doc : string)
  | ValueError (msg : string)
  | HTTPException (status_code : Z) (detail : string)
  | Exception (msg : string).

(** [str(e)] *)
Definition exn_str (e : exn) : string :=
  match e with
  | HTTPStatusError code => "HTTP status error"
  | TimeoutException => "timed out"
  | JSONDecodeError msg _ => msg
  | ValueError msg => msg
  | HTTPException _ detail => detail
  | Exception msg => msg
  end.

Inductive result (A : Type) : Type :=
  | Ok (a : A)
  | Raise (e : exn).
Arguments Ok {A} a.
Arguments Raise {A} e.

Definition M (S A : Type) : Type := S → result A * S.

#[global] Instance M_ret {S} : MRet (M S) := λ A a s, (Ok a, s).

#[global] Instance M_bind {S} : MBind (M S) := λ A B f m s,
  match m s with
  | (Ok a, s') => f a s'
  | (Raise e, s') => (Raise e, s')
  end.

Definition raise {S A} (e : exn) : M S A := λ s, (Raise e, s).

(** [try: body  except ...: handler] *)
Definition try_except {S A} (body : M S A) (handler : exn → M S A) : M S A :=
  λ s, match body s with
       | (Ok a, s') => (Ok a, s')
       | (Raise e, s') => handler e s'
       end.

(** What a function says of a result that is not an exception. *)
Definition on_ok {A C} (f : A → C) (r : result A) : option C :=
  match r with Ok a => Some (f a) | Raise _ => None end.

Definition gets {S A} (f : S → A) : M S A := λ s, (Ok (f s), s).
Definition modify {S} (f : S → S) : M S unit := λ s, (Ok tt, f s).

(** Truthiness of an [Optional[str]]: [None] and [""] are false. *)
Definition truthy_opt (o : option string) : bool :=
  match o with Some s => PyStr.truthy s | None => false end.

(** Library functions the code calls whose tables are not in the
    repository: Unicode case mapping, the iteration order of a [set], the
    additions of [sum] on floats (from left to right in CPython up to 3.11,
    with a compensation of the rounding errors from 3.12 on), and the
    formatting of dates. Nothing is assumed about them in the
    definitions; a property that needs a fact about one of them states it. *)
Class Builtins : Type := {
  str_lower : string → string;              (* [s.lower()] *)
  str_capitalize : string → string;         (* [s.capitalize()] *)
  set_iter : list string → list string;     (* [iter(set(l))] *)
  float_sum : list Q → Q;                   (* [sum(l)] of floats *)
  isoformat : Z → string;                   (* [t.isoformat()] *)
  local_date : Z → Z;                       (* [datetime.fromtimestamp(dt).date()] *)
  strftime_ymd : Z → string;                (* [.strftime("%Y-%m-%d")] *)
  strftime_A : Z → string;                  (* [.strftime("%A")] *)
}.

(** ** Numbers: [round], [min], [max], [sum] and float arithmetic *)

Module PyNum.

Definition Qlt_bool (a b : Q) : bool := negb (Qle_bool b a).

(** [round(x)]: the nearest integer, a tie going to the even one. *)
Definition round_int (x : Q) : Z :=
  let f := Qfloor x in
  let r := (x - inject_Z f)%Q in
  if Qlt_bool r (1 # 2) then f
  else if Qlt_bool (1 # 2) r then f + 1
  else if Z.even f then f else f + 1.

(** [round(x, 1)]: the tenth nearest to the float [x], a tie going to the
    even one; the float that Python returns is the one nearest to that
    tenth, and shows as it. *)
Definition round1 (x : Q) : Q :=
  Qred (inject_Z (round_int (x * 10)) / 10).

(** [min(l)] and [max(l)] of a non-empty list: the first smallest
    (largest) element. *)
Definition min_from (x : Q) (l : list Q) : Q :=
  fold_left (fun m y => if Qlt_bool y m then y else m) l x.

Definition max_from (x : Q) (l : list Q) : Q :=
  fold_left (fun m y => if Qlt_bool m y then y else m) l x.

(** *** Binary64
    A float is [m * 2^e] with [|m| < 2^53] and [-1074 <= e <= 971]. The
    result of an operation on floats is the float nearest to the exact
    result, a tie going to the even [m]. The rounding below has no largest
    exponent: a result beyond the largest float, which is [inf] in Python,
    is outside what it describes. *)

Definition pow2 (e : Z) : Q := (2 ^ e)%Q.

(** The binade of [x > 0]: the [e] with [2^e <= x < 2^(e+1)]. *)
Definition binade (x : Q) : Z :=
  let l := Z.log2 (Qnum x) - Z.log2 (Zpos (Qden x)) in
  if Qle_bool (pow2 l) x then l else l - 1.

(** The float nearest to [x]: [x] is rounded to a multiple of [2^e], for
    the [e] that is 52 below the binade of [|x|], and at least -1074. *)
Definition binary64 (x : Q) : Q :=
  let x := Qred x in
  if Qeq_bool x 0 then 0%Q
  else
    let e := Z.max (binade (Qabs x) - 52) (-1074) in
    Qred (inject_Z (round_int (x / pow2 e)) * pow2 e).

(** [a / b] and [a * b] on floats; an [int] operand, as [len(l)] and
    [100] are, is converted first, without error below [2^53]. *)
Definition div (a b : Q) : Q := binary64 (a / b).
Definition mul (a b : Q) : Q := binary64 (a * b).

(** [sum(l) / len(l)] *)
Definition mean {B : Builtins} (l : list Q) : Q :=
  div (float_sum l) (inject_Z (Z.of_nat (length l))).

(** [sum(l)] as CPython computes it up to version 3.11: the floats are
    added to 0 from left to right. *)
Definition sum_left (l : list Q) : Q :=
  fold_left (λ s x, binary64 (s + x)) l 0%Q.

(** [sum(l)] as CPython computes it from version 3.12 on: next to the sum
    [f] from left to right, the rounding error of each addition is added
    up in [c], which is added to the sum in the end if it is not 0. *)
Definition neumaier_step (acc : Q * Q) (x : Q) : Q * Q :=
  let '(f, c) := acc in
  let t := binary64 (f + x) in
  (t, if Qle_bool (Qabs x) (Qabs f)
      then binary64 (c + binary64 (binary64 (f - t) + x))
      else binary64 (c + binary64 (binary64 (x - t) + f))).

Definition sum_compensated (l : list Q) : Q :=
  let '(f, c) := fold_left neumaier_step l (0%Q, 0%Q) in
  if Qeq_bool c 0 then f else binary64 (f + c).

(** *** Vocabulary of the properties *)

(** The largest float. *)
Definition max_float : Q := (inject_Z (2 ^ 53 - 1) * pow2 971)%Q.

Definition in_range (x : Q) : Prop := (Qabs x <= max_float)%Q.

Definition is_binary64 (x : Q) : Prop :=
  ∃ m e : Z, Z.abs m < 2 ^ 53 ∧ -1074 <= e <= 971 ∧ (x == inject_Z m * pow2 e)%Q.

(** [y] is [x] rounded to binary64: a float, and no float is nearer to
    [x]. *)
Definition to_binary64 (x y : Q) : Prop :=
  is_binary64 y ∧ ∀ z, is_binary64 z → (Qabs (x - y) <= Qabs (x - z))%Q.

(** The sums that adding [l] to [s] from left to right goes through. *)
Fixpoint running_sums (s : Q) (l : list Q) : list Q :=
  match l with
  | [] => []
  | x :: l => (s + x)%Q :: running_sums (s + x)%Q l
  end.

(** Adding [l] from left to right never has to round. *)
Definition exactly_summable (l : list Q) : Prop :=
  Forall is_binary64 (running_sums 0 l).

End PyNum.

(** [max(iterable, key=key)]: the first element, in iteration order, whose
    key is the largest. *)
Definition max_by_from {A} (key : A → nat) (x : A) (l : list A) : A :=
  fold_left (fun m y => if (key m <? key y)%nat then y else m) l x.

(** [l.count(x)] *)
Definition count (l : list string) (x : string) : nat :=
  length (List.filter (String.eqb x) l).

(** ** The weather service
    [services/weather_service.py], class [WeatherService]. *)

Module Weather.

(** The JSON document of the current-weather endpoint, by the fields the
    code reads. *)
Record CurrentPayload : Type := {
  p_name : string;
  p_country : string;
  p_temp : Q;
  p_feels_like : Q;
  p_temp_min : Q;
  p_temp_max : Q;
  p_humidity : Z;
  p_pressure : Z;
  p_description : string;
  p_icon : string;
  p_wind_speed : Q;
  p_clouds : Z;
  p_visibility : option Z;
}.

(** One 3-hour reading of the forecast endpoint. *)
Record Reading : Type := {
  r_dt : Z;
  r_temp : Q;
  r_description : string;
  r_icon : string;
  r_humidity : Q;
  r_wind_speed : Q;
  r_pop : option Q;
}.

Record ForecastPayload : Type := {
  p_list : list Reading;
  p_city_name : string;
  p_city_country : string;
}.

(** What one upstream request comes to. [UpMalformed] is a response
    whose body is not JSON, lacks a field the code reads, or holds numbers
    that [round] refuses (a mean or a product that is not finite): the
    body of the [try] raises while decoding or formatting it. *)
Inductive upstream (P : Type) : Type :=
  | UpOk (data : P)
  | UpMalformed (msg : string)
  | UpStatus (status_code : Z)
  | UpTimeout
  | UpError (msg : string).
Arguments UpOk {P} data.
Arguments UpMalformed {P} msg.
Arguments UpStatus {P} status_code.
Arguments UpTimeout {P}.
Arguments UpError {P} msg.

(** [weather_data] of [get_current_weather]. *)
Record WeatherData : Type := {
  city : string;
  country : string;
  temperature : Q;
  feels_like : Q;
  temp_min : Q;
  temp_max : Q;
  humidity : Z;
  pressure : Z;
  description : string;
  icon : string;
  wind_speed : Q;
  clouds : Z;
  visibility : Z;
  timestamp : string;
}.

(** The dictionary [_aggregate_day_forecast] returns. *)
Record DayForecast : Type := {
  d_date : string;
  d_day_name : string;
  d_temp_min : Q;
  d_temp_max : Q;
  d_temp_avg : Q;
  d_description : string;
  d_icon : string;
  d_humidity : Z;
  d_wind_speed : Q;
  d_pop : Z;
}.

(** [forecast_data] of [get_forecast]; an entry of [f_forecasts] is
    [None] for the empty dictionary. *)
Record ForecastData : Type := {
  f_city : string;
  f_country : string;
  f_forecasts : list (option DayForecast);
  f_timestamp : string;
}.

(** What a cache entry holds. *)
Inductive cached : Type :=
  | CachedWeather (w : WeatherData)
  | CachedForecast (f : ForecastData).

Inductive event : Type :=
  | EvCacheLookup (key : string)
  | EvCacheStore (key : string)
  | EvGetWeather (q : string)
  | EvGetForecast (q : string) (cnt : Z).

Definition is_upstream_call (e : event) : bool :=
  match e with EvGetWeather _ | EvGetForecast _ _ => true | _ => false end.

(** The service object: [self.api_key] and [self.cache]. *)
Record WeatherService : Type := {
  api_key : option string;
  cache : gmap string (cached * Z);
}.

(** The rest of the world: how often the clock was read, and what was
    done so far, latest first. *)
Record state : Type := {
  self : WeatherService;
  ticks : nat;
  trace : list event;
}.

(** The clock and the OpenWeatherMap API. An answer may depend on all
    that happened before. *)
Class World : Type := {
  clock : nat → Z;
  api_weather : list event → string → upstream CurrentPayload;
  api_forecast : list event → string → Z → upstream ForecastPayload;
}.

(** [timedelta(hours=1)], in microseconds. *)
Definition cache_duration : Z := 3600 * 1000000.

Section Service.
Context {B : Builtins} {W : World}.

Definition log (e : event) : M state unit :=
  modify (λ st, {| self := self st; ticks := ticks st; trace := e :: trace st |}).

(** [datetime.utcnow()] *)
Definition utcnow : M state Z :=
  λ st, (Ok (clock (ticks st)),
         {| self := self st; ticks := S (ticks st); trace := trace st |}).

Definition _get_cache_key (city weather_type : string) : string :=
  PyStr.strip (str_lower city) +:+ "_" +:+ weather_type.

Definition _is_cache_valid (timestamp : Z) : M state bool :=
  now ← utcnow;
  mret (now - timestamp <? cache_duration).

(** The block under [# Check cache]: the cached data if the key is
    there and still valid. *)
Definition check_cache (cache_key : string) : M state (option cached) :=
  log (EvCacheLookup cache_key);;
  entry ← gets (λ st, cache (self st) !! cache_key);
  match entry with
  | Some (cached_data, timestamp) =>
      valid ← _is_cache_valid timestamp;
      mret (if valid : bool then Some cached_data else None)
  | None => mret None
  end.

(** [self.cache[cache_key] = (data, datetime.utcnow())] *)
Definition cache_store (cache_key : string) (data : cached) : M state unit :=
  now ← utcnow;
  log (EvCacheStore cache_key);;
  modify (λ st, {| self := {| api_key := api_key (self st);
                              cache := <[cache_key := (data, now)]> (cache (self st)) |};
                   ticks := ticks st; trace := trace st |}).

(** [client.get(...)], [raise_for_status()] and [response.json()]. *)
Definition fetch {P} (e : event) (answer : list event → upstream P) : M state P :=
  tr ← gets trace;
  log e;;
  match answer tr with
  | UpOk data => mret data
  | UpMalformed msg => raise (Exception msg)
  | UpStatus code => raise (HTTPStatusError code)
  | UpTimeout => raise TimeoutException
  | UpError msg => raise (Exception msg)
  end.

(** The three [except] clauses of both lookups: each returns [None]. *)
Definition on_failure {A} (e : exn) : M state (option A) :=
  match e with
  | HTTPStatusError _ => mret None
  | TimeoutException => mret None
  | _ => mret None
  end.

Definition get_current_weather (city : string) : M state (option cached) :=
  key ← gets (λ st, api_key (self st));
  if negb (truthy_opt key) then mret None
  else
    let cache_key := _get_cache_key city "current" in
    hit ← check_cache cache_key;
    match hit with
    | Some cached_data => mret (Some cached_data)
    | None =>
        try_except
          (data ← fetch (EvGetWeather city) (λ tr, api_weather tr city);
           stamp ← utcnow;
           let weather_data := CachedWeather {|
             city := p_name data;
             country := p_country data;
             temperature := PyNum.round1 (p_temp data);
             feels_like := PyNum.round1 (p_feels_like data);
             temp_min := PyNum.round1 (p_temp_min data);
             temp_max := PyNum.round1 (p_temp_max data);
             humidity := p_humidity data;
             pressure := p_pressure data;
             description := str_capitalize (p_description data);
             icon := p_icon data;
             wind_speed := PyNum.round1 (p_wind_speed data);
             clouds := p_clouds data;
             visibility := default 0 (p_visibility data) `div` 1000;
             timestamp := isoformat stamp |} in
           cache_store cache_key weather_data;;
           mret (Some weather_data))
          on_failure
    end.

Definition _aggregate_day_forecast (day_data : list Reading)
  : option DayForecast :=
  match day_data with
  | [] => None
  | first :: others =>
      let temps := map r_temp day_data in
      let descriptions := map r_description day_data in
      let description :=
        match set_iter descriptions with
        | d :: ds => max_by_from (count descriptions) d ds
        | [] => EmptyString
        end in
      Some {|
        d_date := strftime_ymd (r_dt first);
        d_day_name := strftime_A (r_dt first);
        d_temp_min := PyNum.round1 (PyNum.min_from (r_temp first) (map r_temp others));
        d_temp_max := PyNum.round1 (PyNum.max_from (r_temp first) (map r_temp others));
        d_temp_avg := PyNum.round1 (PyNum.mean temps);
        d_description := str_capitalize description;
        d_icon := r_icon (nth (length day_data / 2) day_data first);
        d_humidity := PyNum.round_int (PyNum.mean (map r_humidity day_data));
        d_wind_speed := PyNum.round1 (PyNum.mean (map r_wind_speed day_data));
        d_pop :=
          PyNum.round_int
            (PyNum.mul
               (PyNum.max_from (default 0%Q (r_pop first))
                  (map (λ item, default 0%Q (r_pop item)) others))
               100)
      |}
  end.

(** The loop under [# Group forecasts by day], one reading at a time;
    the state is [(daily_forecasts, current_day, day_data)]. *)
Definition group_step
    (acc : list (option DayForecast) * option Z * list Reading)
    (item : Reading) : list (option DayForecast) * option Z * list Reading :=
  let '(daily_forecasts, current_day, day_data) := acc in
  let forecast_date := local_date (r_dt item) in
  if bool_decide (current_day ≠ Some forecast_date) then
    ((match day_data with
      | [] => daily_forecasts
      | _ => daily_forecasts ++ [_aggregate_day_forecast day_data]
      end),
     Some forecast_date, [item])
  else (daily_forecasts, current_day, day_data ++ [item]).

Definition group_by_day (readings : list Reading) : list (option DayForecast) :=
  let '(daily_forecasts, _, day_data) :=
    fold_left group_step readings ([], None, []) in
  match day_data with
  | [] => daily_forecasts
  | _ => daily_forecasts ++ [_aggregate_day_forecast day_data]
  end.

Definition get_forecast (city : string) (days : Z) : M state (option cached) :=
  key ← gets (λ st, api_key (self st));
  if negb (truthy_opt key) then mret None
  else
    let days := Z.max 1 (Z.min days 5) in
    let cache_key := _get_cache_key city ("forecast_" +:+ pretty days) in
    hit ← check_cache cache_key;
    match hit with
    | Some cached_data => mret (Some cached_data)
    | None =>
        try_except
          (data ← fetch (EvGetForecast city (days * 8))
                        (λ tr, api_forecast tr city (days * 8));
           let daily_forecasts := group_by_day (p_list data) in
           stamp ← utcnow;
           let forecast_data := CachedForecast {|
             f_city := p_city_name data;
             f_country := p_city_country data;
             f_forecasts := take (Z.to_nat days) daily_forecasts;
             f_timestamp := isoformat stamp |} in
           cache_store cache_key forecast_data;;
           mret (Some forecast_data))
          on_failure
    end.

(** *** Vocabulary of the properties *)

(** The upstream requests made so far, latest first. *)
Definition upstream_calls (st : state) : list event :=
  List.filter is_upstream_call (trace st).

(** The cached data under [key] when its age, at the next reading of
    the clock, is below one hour. *)
Definition fresh_entry (st : state) (key : string) : option cached :=
  match cache (self st) !! key with
  | Some (data, fetched_at) =>
      if clock (ticks st) - fetched_at <? cache_duration
      then Some data else None
  | None => None
  end.

(** The state after the block under [# Check cache]: the lookup is
    recorded, and the clock was read if there was an entry to date. *)
Definition after_check (st : state) (key : string) : state :=
  {| self := self st;
     ticks := match cache (self st) !! key with
              | Some _ => S (ticks st)
              | None => ticks st
              end;
     trace := EvCacheLookup key :: trace st |}.

(** [weather_data], from the payload and the time of formatting. *)
Definition format_current (data : CurrentPayload) (stamp : Z) : cached :=
  CachedWeather {|
    city := p_name data;
    country := p_country data;
    temperature := PyNum.round1 (p_temp data);
    feels_like := PyNum.round1 (p_feels_like data);
    temp_min := PyNum.round1 (p_temp_min data);
    temp_max := PyNum.round1 (p_temp_max data);
    humidity := p_humidity data;
    pressure := p_pressure data;
    description := str_capitalize (p_description data);
    icon := p_icon data;
    wind_speed := PyNum.round1 (p_wind_speed data);
    clouds := p_clouds data;
    visibility := default 0 (p_visibility data) `div` 1000;
    timestamp := isoformat stamp |}.

(** [forecast_data], likewise. *)
Definition format_forecast (days : Z) (data : ForecastPayload) (stamp : Z) : cached :=
  CachedForecast {|
    f_city := p_city_name data;
    f_country := p_city_country data;
    f_forecasts := take (Z.to_nat days) (group_by_day (p_list data));
    f_timestamp := isoformat stamp |}.

End Service.

(** What the specification says of a day's summary, in its words. *)

(** [m] is the minimum (maximum) of [l]. *)
Definition is_minimum (m : Q) (l : list Q) : Prop :=
  In m l ∧ ∀ x, In x l → (m <= x)%Q.

Definition is_maximum (m : Q) (l : list Q) : Prop :=
  In m l ∧ ∀ x, In x l → (x <= m)%Q.

(** [a] is the mean of [l]. *)
Definition total (l : list Q) : Q := foldr Qplus 0%Q l.

Definition is_mean (a : Q) (l : list Q) : Prop :=
  (a == total l / inject_Z (Z.of_nat (length l)))%Q.

(** What the interpreter's [sum] is asked for: it is exact on a list of
    floats that can be added from left to right without rounding. Both ways
    in which CPython adds floats meet this. *)
Definition exact_sums `{B : Builtins} : Prop :=
  ∀ l, Forall PyNum.is_binary64 l → PyNum.exactly_summable l →
       (float_sum l == total l)%Q.

(** [a] is the mean of [l] as the code computes it: the quotient of
    [sum(l)] by the length, rounded to binary64; that is the mean rounded to
    binary64 when [l] can be added without rounding. *)
Definition is_float_mean `{B : Builtins} (a : Q) (l : list Q) : Prop :=
  PyNum.to_binary64 (float_sum l / inject_Z (Z.of_nat (length l))) a
  ∧ (Forall PyNum.is_binary64 l → PyNum.exactly_summable l →
     ∃ m, is_mean m l ∧ PyNum.to_binary64 m a).

(** [y] is [x] rounded to one decimal: a multiple of 1/10 at most 1/20
    away. *)
Definition to_1_decimal (x y : Q) : Prop :=
  (∃ k : Z, y == inject_Z k / 10)%Q ∧ (x - (1 # 20) <= y <= x + (1 # 20))%Q.

(** [n] is [x] rounded to the nearest integer. *)
Definition to_nearest_integer (x : Q) (n : Z) : Prop :=
  (x - (1 # 2) <= inject_Z n <= x + (1 # 2))%Q.

(** [s] is a most frequent element of [l]. *)
Definition most_frequent (s : string) (l : list string) : Prop :=
  In s l ∧ ∀ s', In s' l → (count l s' ≤ count l s)%nat.

(** The most frequent element of [l], the first one met in [l] winning a
    tie. *)
Definition first_most_frequent (l : list string) : string :=
  match l with
  | [] => EmptyString
  | x :: xs => max_by_from (count l) x xs
  end.

(** A missing [pop] counts as 0. *)
Definition pop_or_0 (item : Reading) : Q := default 0%Q (r_pop item).

(** No sum of the run, and no probability times 100, leaves the range of
    the floats: Python has [inf] for one that does, and [round] raises
    [OverflowError] on it. *)
Definition sums_in_range `{B : Builtins} (run : list Reading) : Prop :=
  PyNum.in_range (float_sum (map r_temp run))
  ∧ PyNum.in_range (float_sum (map r_humidity run))
  ∧ PyNum.in_range (float_sum (map r_wind_speed run))
  ∧ Forall (λ p, PyNum.in_range (p * 100)) (map pop_or_0 run).

Definition failed {P} (u : upstream P) : bool :=
  match u with UpOk _ => false | _ => true end.

Definition minutes (n : Z) : Z := n * 60 * 1000000.

(** *** The summary, the cache maintenance and the weather route
    [get_weather_summary], [clear_cache], [get_cache_stats], and
    [routes/itinerary.py], [get_weather_info]. *)

(** Two more pieces of the runtime: the order in which a dictionary hands
    out its items (that of their insertion, which the map does not record),
    and the text of a float. *)
Class Runtime : Type := {
  dict_items : gmap string (cached * Z) → list (string * (cached * Z));
                                            (* [self.cache.items()] *)
  str_float : Q → string;                   (* [str(x)] in an f-string *)
}.

(** The dictionary [get_cache_stats] returns. *)
Record CacheStats : Type := {
  total_entries : Z;
  valid_entries : Z;
  expired_entries : Z;
}.

Definition degree : string := String (ascii_of_nat 176) EmptyString.

Section Maintenance.
Context {B : Builtins} {W : World} {R : Runtime}.

Definition get_weather_summary (city : string) : M state string :=
  current ← get_current_weather city;
  match current with
  | None => mret ("Weather information not available for " +:+ city)
  | Some (CachedWeather current) =>
      mret ("Current weather in " +:+ Weather.city current +:+ ", "
            +:+ country current +:+ ": "
            +:+ str_float (temperature current) +:+ degree +:+ "C (feels like "
            +:+ str_float (feels_like current) +:+ degree +:+ "C), "
            +:+ description current +:+ ". "
            +:+ "Humidity: " +:+ pretty (humidity current) +:+ "%, "
            +:+ "Wind: " +:+ str_float (wind_speed current) +:+ " m/s")
  | Some (CachedForecast _) => raise (Exception "KeyError: 'temperature'")
  end.

(** [self.cache.clear()] *)
Definition clear_cache : M state unit :=
  modify (λ st, {| self := {| api_key := api_key (self st); cache := ∅ |};
                   ticks := ticks st; trace := trace st |}).

(** [sum(1 for _, (_, timestamp) in items if self._is_cache_valid(timestamp))] *)
Fixpoint count_valid (items : list (string * (cached * Z))) : M state Z :=
  match items with
  | [] => mret 0
  | (_, (_, timestamp)) :: rest =>
      valid ← _is_cache_valid timestamp;
      n ← count_valid rest;
      mret ((if valid : bool then 1 else 0) + n)
  end.

Definition get_cache_stats : M state CacheStats :=
  items ← gets (λ st, dict_items (cache (self st)));
  valid_entries ← count_valid items;
  len ← gets (λ st, Z.of_nat (size (cache (self st))));
  mret {| total_entries := len;
          valid_entries := valid_entries;
          expired_entries := len - valid_entries |}.

(** The route [GET /weather/{destination}]. A missing [forecast_days] and
    0 are both false. *)
Definition get_weather_info (destination : string) (forecast_days : option Z)
  : M state cached :=
  try_except
    (match forecast_days with
     | Some n =>
         if negb (n =? 0) then
           let days := Z.max 1 (Z.min n 5) in
           forecast ← get_forecast destination days;
           match forecast with
           | None =>
               raise (HTTPException 404
                        ("Forecast data not available for " +:+ destination))
           | Some forecast => mret forecast
           end
         else
           weather ← get_current_weather destination;
           match weather with
           | None =>
               raise (HTTPException 404
                        ("Weather data not available for " +:+ destination))
           | Some weather => mret weather
           end
     | None =>
         weather ← get_current_weather destination;
         match weather with
         | None =>
             raise (HTTPException 404
                      ("Weather data not available for " +:+ destination))
         | Some weather => mret weather
         end
     end)
    (λ e, match e with
          | HTTPException _ _ => raise e
          | _ => raise (HTTPException 500 (exn_str e))
          end).

(** *** Vocabulary of the properties *)

(** The maximal runs of consecutive readings of one local date. *)
Fixpoint date_runs (readings : list Reading) : list (list Reading) :=
  match readings with
  | [] => []
  | item :: rest =>
      match date_runs rest with
      | (next :: run) :: runs =>
          if bool_decide (local_date (r_dt item) = local_date (r_dt next))
          then (item :: next :: run) :: runs
          else [item] :: (next :: run) :: runs
      | _ => [[item]]
      end
  end.

(** The number of days a forecast is made for. *)
Definition clamp_days (days : Z) : Z := Z.max 1 (Z.min days 5).

End Maintenance.

Definition is_current (data : cached) : bool :=
  match data with CachedWeather _ => true | CachedForecast _ => false end.

(** The last character of a key. *)
Fixpoint last_char (s : string) : option ascii :=
  match s with
  | EmptyString => None
  | String c EmptyString => Some c
  | String _ s' => last_char s'
  end.

(** Every entry sits under a key of its kind: current weather under a key
    that ends in [t] (of [_current]), a forecast under any other key. *)
Definition well_keyed (c : gmap string (cached * Z)) : Prop :=
  ∀ key data fetched_at,
    c !! key = Some (data, fetched_at) →
    is_current data = bool_decide (last_char key = Some "t"%char).

(** The entries whose age at time [now] is below one hour. *)
Definition fresh_at (now : Z) (c : gmap string (cached * Z))
  : gmap string (cached * Z) :=
  filter (λ kv, now - kv.2.2 < cache_duration) c.

End Weather.

(** ** The suggestion pipeline
    [services/ai_service.py], [generate_suggestions], and
    [routes/suggestions.py], [get_suggestions]. *)

Module Suggestions.

(** The query parameters of the route. The framework admits [limit] from 1
    to 50 and [skip] from 0. *)
Record Request : Type := {
  category : option string;
  budget : option string;
  duration_min : option Z;
  duration_max : option Z;
  continent : option string;
  featured : bool;
  limit : Z;
  skip : Z;
  suggestion_id : option string;
}.

(** [SuggestionsResponse]; each suggestion is given by the keyword
    arguments its [SuggestedTrip] was built from. *)
Record SuggestionsResponse : Type := {
  total : Z;
  suggestions : list (gmap string value);
  filters_applied : gmap string value;
}.

(** What a chat completion comes to: the text of the first choice, or an
    exception of the client. *)
Inductive completion : Type :=
  | Completion (content : string)
  | ChatError (msg : string).

Inductive event : Type :=
  | EvGenerate (category budget continent : option string) (count : Z)
  | EvChat (prompt : string)
  | EvCount (query : gmap string value)
  | EvFind (query : gmap string value) (skip limit : Z)
  | EvFindOne (oid : nat)
  | EvInsertMany (n : nat)
  | EvLogError (msg : string).

(** The suggestion collection, in insertion order; the next identifier the
    store hands out; the readings of the clock; what was done so far, latest
    first. *)
Record state : Type := {
  db : list (gmap string value);
  next_oid : nat;
  ticks : nat;
  trace : list event;
}.

(** Library code the route relies on: the JSON decoder, [int] and [str],
    [ObjectId], the validation of the response model, and the document
    store's matching of one query entry and its ordering by rating. *)
Class Library : Type := {
  json_loads : string → string + value;   (* [inl msg]: [JSONDecodeError] *)
  py_int : string → option Z;             (* [None]: [ValueError] *)
  py_str : value → string;
  object_id : string → option nat;        (* [None]: not [ObjectId.is_valid] *)
  validates : gmap string value → bool;   (* the model [SuggestedTrip] accepts [s] *)
  satisfies : gmap string value → string → value → bool;
  sort_by_rating_desc : list (gmap string value) → list (gmap string value);
}.

(** The clock and the language model. *)
Class World : Type := {
  clock : nat → Z;
  chat : list event → string → completion;
}.

Definition quote : string := String (ascii_of_nat 34) EmptyString.

(** The fixed part of the prompt. *)
Definition instructions : string :=
  "

For each destination, provide:
1. destination (city/place name)
2. country
3. continent (Asia, Europe, Africa, North America, South America, Oceania)
4. title (catchy trip title)
5. description (2-3 sentences about the destination)
6. duration (e.g., " +:+ quote +:+ "5-7 days" +:+ quote +:+ ")
7. duration_days (numeric, average days)
8. highlights (list of 5 main attractions)
9. best_time_to_visit (brief description)
10. best_months (list of 3-letter month abbreviations)
11. category (list, choose from: adventure, culture, beach, mountains, city, nature, food, romantic, hiking, photography, luxury)
12. budget (budget, moderate, or high/luxury)
13. estimated_cost (price range as string, e.g., " +:+ quote +:+ "$1000-$2000" +:+ quote +:+ ")
14. rating (float between 4.5-5.0)
15. popular_activities (list of 5 activities)
16. travel_tips (list of 5 practical tips)

Return ONLY a valid JSON array of objects. No additional text or markdown.
".

Definition build_prompt (category budget continent : option string) (count : Z)
  : string :=
  let prompt := "Generate " +:+ pretty count +:+ " unique travel destination suggestions" in
  let filters :=
    (if truthy_opt category then ["category: " +:+ default "" category] else [])
    ++ (if truthy_opt budget then ["budget level: " +:+ default "" budget] else [])
    ++ (if truthy_opt continent then ["continent: " +:+ default "" continent] else []) in
  let prompt :=
    match filters with
    | [] => prompt
    | _ => prompt +:+ " matching these criteria: " +:+ PyStr.join ", " filters
    end in
  prompt +:+ instructions.

(** The block under [# Remove markdown code blocks if present]. *)
Definition strip_code_fence (content : string) : string :=
  if PyStr.startswith "```" content then
    let content := nth 1 (PyStr.split_str "```" content) EmptyString in
    let content :=
      if PyStr.startswith "json" content then PyStr.drop 4 content else content in
    PyStr.strip content
  else content.

(** A Python dictionary from its pairs: the last of two equal keys wins. *)
Definition dict_of (kvs : list (string * value)) : gmap string value :=
  fold_left (λ m kv, <[kv.1 := kv.2]> m) kvs ∅.

Section Pipeline.
Context {B : Builtins} {L : Library} {W : World}.

Definition log (e : event) : M state unit :=
  modify (λ st, {| db := db st; next_oid := next_oid st; ticks := ticks st;
                   trace := e :: trace st |}).

(** [datetime.utcnow()] *)
Definition utcnow : M state Z :=
  λ st, (Ok (clock (ticks st)),
         {| db := db st; next_oid := next_oid st; ticks := S (ticks st);
            trace := trace st |}).

(** *** The document store *)

(** A document matches a query when it satisfies every entry of it. *)
Definition matches (query d : gmap string value) : bool :=
  forallb (λ kc, satisfies d kc.1 kc.2) (map_to_list query).

(** [count_documents(query)] *)
Definition count_documents (query : gmap string value) : M state Z :=
  log (EvCount query);;
  gets (λ st, Z.of_nat (length (List.filter (matches query) (db st)))).

(** [find(query).sort("rating", -1).skip(skip).limit(limit)] and
    [to_list(length=limit)], for a positive [limit]. *)
Definition find (query : gmap string value) (skip limit : Z)
  : M state (list (gmap string value)) :=
  log (EvFind query skip limit);;
  gets (λ st, take (Z.to_nat limit)
                (drop (Z.to_nat skip)
                   (sort_by_rating_desc (List.filter (matches query) (db st))))).

(** [find_one({"_id": ObjectId(...)})] *)
Definition find_one (oid : nat) : M state (option (gmap string value)) :=
  log (EvFindOne oid);;
  gets (λ st, List.find (λ d, match d !! "_id" with
                              | Some (VObjectId n) => (n =? oid)%nat
                              | _ => false
                              end) (db st)).

(** The store gives an identifier to a document that has none. *)
Definition with_id (n : nat) (d : gmap string value) : gmap string value :=
  match d !! "_id" with
  | Some _ => d
  | None => <["_id" := VObjectId n]> d
  end.

(** [insert_many(docs)], for a non-empty list. *)
Definition insert_many (docs : list (gmap string value)) : M state unit :=
  log (EvInsertMany (length docs));;
  modify (λ st, {| db := db st ++ imap (λ i d, with_id (next_oid st + i) d) docs;
                   next_oid := next_oid st + length docs;
                   ticks := ticks st; trace := trace st |}).

(** *** [generate_suggestions] *)

(** [response = await self.client.chat.completions.create(...)] and
    [response.choices[0].message.content]. *)
Definition chat_completion (prompt : string) : M state string :=
  tr ← gets trace;
  log (EvChat prompt);;
  match chat tr prompt with
  | Completion content => mret content
  | ChatError msg => raise (Exception msg)
  end.

(** [json.loads(content)] *)
Definition loads (content : string) : M state value :=
  match json_loads content with
  | inr v => mret v
  | inl msg => raise (JSONDecodeError msg content)
  end.

(** What [for suggestion in suggestions: suggestion[...] = ...] goes
    through: the objects of an array. An array with an element that is not
    an object, and any other non-empty or non-iterable value, raise
    [TypeError]; an empty object or string is iterated without effect and,
    being false and empty where it comes back, treated as the empty list. *)
Definition as_dicts (suggestions : value) : M state (list (gmap string value)) :=
  match suggestions with
  | VList items =>
      if forallb (λ v, match v with VDict _ => true | _ => false end) items
      then mret (omap (λ v, match v with VDict kvs => Some (dict_of kvs) | _ => None end)
                   items)
      else raise (Exception "TypeError")
  | VDict [] => mret []
  | VStr EmptyString => mret []
  | _ => raise (Exception "TypeError")
  end.

(** [int(duration_str.split('-')[0].split()[0])] under a bare [except]. *)
Definition parse_duration_days (duration_str : value) : Z :=
  match duration_str with
  | VStr s =>
      match PyStr.first_word (hd EmptyString (PyStr.split "-"%char s)) with
      | Some word => default 7 (py_int word)
      | None => 7
      end
  | _ => 7
  end.

(** The body of the loop under [# Validate and add missing fields]. *)
Definition fill_defaults (suggestion : gmap string value) : gmap string value :=
  let suggestion := <["is_featured" := VBool false]> suggestion in
  let suggestion := <["created_at" := VNone]> suggestion in
  let suggestion := <["updated_at" := VNone]> suggestion in
  let suggestion :=
    match suggestion !! "rating" with
    | None => <["rating" := VFloat (47 # 10)]> suggestion
    | Some _ => suggestion
    end in
  match suggestion !! "duration_days" with
  | None =>
      let duration_str := default (VStr "7 days") (suggestion !! "duration") in
      <["duration_days" := VInt (parse_duration_days duration_str)]> suggestion
  | Some _ => suggestion
  end.

Definition generate_suggestions
    (category budget continent : option string) (count : Z)
  : M state (list (gmap string value)) :=
  log (EvGenerate category budget continent count);;
  try_except
    (raw ← chat_completion (build_prompt category budget continent count);
     let content := strip_code_fence (PyStr.strip raw) in
     suggestions ← loads content;
     items ← as_dicts suggestions;
     mret (map fill_defaults items))
    (λ e, match e with
          | JSONDecodeError msg content =>
              log (EvLogError ("JSON parsing error: " +:+ msg));;
              log (EvLogError ("Response content: " +:+ content));;
              raise (ValueError ("AI returned invalid JSON: " +:+ msg))
          | _ =>
              log (EvLogError ("Error generating suggestions: " +:+ exn_str e));;
              raise e
          end).

(** *** [get_suggestions] *)

(** The block under [# Build query filter]: the query and [has_filters]. *)
Definition build_query (req : Request) : gmap string value * bool :=
  let query : gmap string value := ∅ in
  let has_filters := false in
  let '(query, has_filters) :=
    if featured req then (<["is_featured" := VBool true]> query, true)
    else (query, has_filters) in
  let '(query, has_filters) :=
    if truthy_opt (category req)
    then (<["category" := VDict [("$in", VList [VStr (str_lower (default "" (category req)))])]]>
            query, true)
    else (query, has_filters) in
  let '(query, has_filters) :=
    if truthy_opt (budget req)
    then (<["budget" := VStr (str_lower (default "" (budget req)))]> query, true)
    else (query, has_filters) in
  let '(query, has_filters) :=
    if truthy_opt (continent req)
    then (<["continent" := VStr (default "" (continent req))]> query, true)
    else (query, has_filters) in
  if bool_decide (duration_min req ≠ None ∨ duration_max req ≠ None) then
    let duration_query :=
      match duration_min req with Some n => [("$gte", VInt n)] | None => [] end
      ++ match duration_max req with Some n => [("$lte", VInt n)] | None => [] end in
    (<["duration_days" := VDict duration_query]> query, true)
  else (query, has_filters).

(** The three assignments of both stamping loops. *)
Definition stamp (is_featured : bool) (suggestion : gmap string value)
  : M state (gmap string value) :=
  created ← utcnow;
  updated ← utcnow;
  mret (<["is_featured" := VBool is_featured]>
          (<["updated_at" := VDate updated]>
             (<["created_at" := VDate created]> suggestion))).

(** [for i, suggestion in enumerate(ai_suggestions): ...], from index
    [i] on. *)
Fixpoint stamp_all (is_featured : nat → bool) (i : nat)
    (ai_suggestions : list (gmap string value))
  : M state (list (gmap string value)) :=
  match ai_suggestions with
  | [] => mret []
  | suggestion :: rest =>
      stamped ← stamp (is_featured i) suggestion;
      others ← stamp_all is_featured (S i) rest;
      mret (stamped :: others)
  end.

(** The block under [# Auto-generate if database is empty]. *)
Definition seed_if_empty : M state unit :=
  total_in_db ← count_documents ∅;
  if total_in_db =? 0 then
    try_except
      (ai_suggestions ← generate_suggestions None None None 12;
       ai_suggestions ← stamp_all (λ i, i <? 6)%nat 0 ai_suggestions;
       match ai_suggestions with
       | [] => mret tt
       | _ => insert_many ai_suggestions
       end)
      (λ e, log (EvLogError ("Failed to generate initial suggestions: " +:+ exn_str e)))
  else mret tt.

(** The block under [# Generate AI suggestions if no matches for filters]:
    from the page and the total of the first query to those returned. *)
Definition backfill (req : Request) (query : gmap string value)
    (has_filters : bool) (effective_limit : Z)
    (suggestions : list (gmap string value)) (total : Z)
  : M state (list (gmap string value) * Z) :=
  if (total =? 0) && has_filters && negb (truthy_opt (suggestion_id req)) then
    try_except
      (ai_suggestions ← generate_suggestions (category req) (budget req) (continent req)
                          (Z.min effective_limit 6);
       ai_suggestions ← stamp_all (λ _, false) 0 ai_suggestions;
       match ai_suggestions with
       | [] => mret (suggestions, total)
       | _ =>
           insert_many ai_suggestions;;
           suggestions ← find query 0 effective_limit;
           mret (suggestions, Z.of_nat (length suggestions))
       end)
      (λ e, log (EvLogError ("Failed to generate filtered suggestions: " +:+ exn_str e));;
            mret (suggestions, total))
  else mret (suggestions, total).

(** [s = normalize_suggestion_data(s); s['_id'] = str(s['_id'])] *)
Definition present (s : gmap string value) : M state (gmap string value) :=
  let s := normalize_suggestion_data s in
  match s !! "_id" with
  | Some oid => mret (<["_id" := VStr (py_str oid)]> s)
  | None => raise (Exception "KeyError: '_id'")
  end.

Fixpoint present_all (suggestions : list (gmap string value))
  : M state (list (gmap string value)) :=
  match suggestions with
  | [] => mret []
  | s :: rest =>
      s' ← present s;
      rest' ← present_all rest;
      mret (s' :: rest')
  end.

(** The list of [SuggestedTrip] models built from [normalized_suggestions]. *)
Definition validate_all (normalized_suggestions : list (gmap string value))
  : M state (list (gmap string value)) :=
  if forallb validates normalized_suggestions
  then mret normalized_suggestions
  else raise (Exception "validation error for SuggestedTrip").

(** The end of the route, from [# Normalize all suggestions] on. *)
Definition respond (total : Z) (suggestions : list (gmap string value))
    (query : gmap string value) : M state SuggestionsResponse :=
  normalized_suggestions ← present_all suggestions;
  result ← validate_all normalized_suggestions;
  mret {| total := total; suggestions := result; filters_applied := query |}.

(** The branch [if suggestion_id:]. *)
Definition get_by_id (suggestion_id : string) : M state SuggestionsResponse :=
  match object_id suggestion_id with
  | None => raise (HTTPException 400 "Invalid suggestion ID format")
  | Some oid =>
      found ← find_one oid;
      match found with
      | None => raise (HTTPException 404 "Suggestion not found")
      | Some suggestion =>
          suggestion ← present suggestion;
          result ← validate_all [suggestion];
          mret {| total := 1; suggestions := result;
                  filters_applied := {[ "_id" := VStr suggestion_id ]} |}
      end
  end.

Definition get_suggestions (req : Request) : M state SuggestionsResponse :=
  try_except
    (if truthy_opt (suggestion_id req) then
       get_by_id (default "" (suggestion_id req))
     else
       let '(query, has_filters) := build_query req in
       let effective_limit :=
         if has_filters then Z.min (limit req) 10 else limit req in
       seed_if_empty;;
       suggestions ← find query (skip req) effective_limit;
       total ← count_documents query;
       '(suggestions, total) ←
         backfill req query has_filters effective_limit suggestions total;
       respond total suggestions query)
    (λ e, match e with
          | HTTPException _ _ => raise e
          | _ =>
              log (EvLogError ("Error fetching suggestions: " +:+ exn_str e));;
              raise (HTTPException 500 (exn_str e))
          end).

(** *** Vocabulary of the properties *)

(** Whether the request carries a filter: [featured] set, a non-empty
    [category], [budget] or [continent], or a bound on the duration. *)
Definition filter_supplied (req : Request) : bool :=
  featured req || truthy_opt (category req) || truthy_opt (budget req)
  || truthy_opt (continent req)
  || bool_decide (duration_min req ≠ None ∨ duration_max req ≠ None).

Definition query_of (req : Request) : gmap string value := (build_query req).1.

(** The page size the route asks the store for. *)
Definition effective_limit_of (req : Request) : Z :=
  if filter_supplied req then Z.min (limit req) 10 else limit req.

(** The stored documents that match, and how many there are. *)
Definition matching (query : gmap string value) (st : state)
  : list (gmap string value) :=
  List.filter (matches query) (db st).

(** The window [skip], [limit] of the matching documents, best rated
    first. *)
Definition page_of (query : gmap string value) (skip limit : Z) (st : state)
  : list (gmap string value) :=
  take (Z.to_nat limit) (drop (Z.to_nat skip) (sort_by_rating_desc (matching query st))).

(** [r] is the stored document [s] as the response shows it: normalised,
    its identifier turned into text. *)
Definition presents (s r : gmap string value) : Prop :=
  ∃ oid, normalize_suggestion_data s !! "_id" = Some oid
         ∧ r = <["_id" := VStr (py_str oid)]> (normalize_suggestion_data s).



(** The state with one more event on record. *)
Definition logged (e : event) (st : state) : state :=
  {| db := db st; next_oid := next_oid st; ticks := ticks st;
     trace := e :: trace st |}.

(** The state in which the listing runs its filtered query: after the
    block that seeds an empty collection. *)
Definition seeded (st : state) : state := (seed_if_empty st).2.

(** The state in which the block that generates on no match runs: the
    filtered query and its count are done. *)
Definition queried (req : Request) (st : state) : state :=
  logged (EvCount (query_of req))
    (logged (EvFind (query_of req) (skip req) (effective_limit_of req)) (seeded st)).

(** A record as the route persists it: the marks and the stamps. *)
Definition stamped_as (is_featured : bool) (d : gmap string value) : Prop :=
  d !! "is_featured" = Some (VBool is_featured)
  ∧ (∃ t, d !! "created_at" = Some (VDate t))
  ∧ (∃ t, d !! "updated_at" = Some (VDate t)).

(** [d] is [d0] but for the marks, the stamps and the identifier. *)
Definition keeps_content (d0 d : gmap string value) : Prop :=
  ∀ key, key ∉ ["is_featured"; "created_at"; "updated_at"; "_id"] →
         d !! key = d0 !! key.

(** The records [new] are the generated [batch] as the route persists
    it: as many, in the same order, each marked and stamped. *)
Definition persisted_as (is_featured : nat → bool)
    (batch new : list (gmap string value)) : Prop :=
  length new = length batch
  ∧ ∀ i d, new !! i = Some d →
           stamped_as (is_featured i) d
           ∧ ∃ d0, batch !! i = Some d0 ∧ keeps_content d0 d.

(** A completion whose text, fence removed, is not JSON. *)
Definition unparsable (c : completion) : Prop :=
  ∃ raw msg, c = Completion raw
             ∧ json_loads (strip_code_fence (PyStr.strip raw)) = inl msg.

Definition is_chat (e : event) : bool :=
  match e with EvChat _ => true | _ => false end.

End Pipeline.

(** *** Equality of values
    [a == b], for numbers that compare across [bool], [int] and [float],
    and for objects without repeated keys. *)

Definition num_of (v : value) : option Q :=
  match v with
  | VBool b => Some (inject_Z (if b then 1 else 0))
  | VInt n => Some (inject_Z n)
  | VFloat q => Some q
  | _ => None
  end.

Fixpoint py_eq (a b : value) {struct a} : bool :=
  match a, b with
  | VNone, VNone => true
  | VStr x, VStr y => String.eqb x y
  | VList x, VList y =>
      (fix go (x y : list value) {struct x} : bool :=
         match x, y with
         | [], [] => true
         | a' :: x', b' :: y' => py_eq a' b' && go x' y'
         | _, _ => false
         end) x y
  | VDict x, VDict y =>
      (length x =? length y)%nat
      && (fix go (x : list (string * value)) {struct x} : bool :=
            match x with
            | [] => true
            | (k, a') :: x' =>
                existsb (λ kb : string * value, String.eqb k kb.1 && py_eq a' kb.2) y
                && go x'
            end) x
  | VDate x, VDate y => x =? y
  | VObjectId x, VObjectId y => (x =? y)%nat
  | VBool _, (VBool _ | VInt _ | VFloat _)
  | VInt _, (VBool _ | VInt _ | VFloat _)
  | VFloat _, (VBool _ | VInt _ | VFloat _) =>
      match num_of a, num_of b with
      | Some p, Some q => Qeq_bool p q
      | _, _ => false
      end
  | _, _ => false
  end.

(** [isinstance(e, ValueError)]: [json.JSONDecodeError] and the
    validation error of a model are subclasses of [ValueError]. *)
Definition is_ValueError (e : exn) : bool :=
  match e with
  | ValueError _ | JSONDecodeError _ _ => true
  | _ => false
  end.

(** What the routes [DELETE /{suggestion_id}] and [POST /migrate] return. *)
Inductive DeleteResponse : Type :=
  | Cleared (deleted_count : Z)
  | Deleted (id : string).

Inductive MigrateResponse : Type :=
  | Migrated (updated_count total_documents : Z)
  | Seeded (count : Z).

Definition newline : ascii := ascii_of_nat 10.

(** The tips [generate_travel_tips] falls back on. *)
Definition default_tips : list string :=
  [ "Research local customs and etiquette";
    "Learn basic phrases in the local language";
    "Check visa requirements in advance";
    "Get travel insurance";
    "Keep digital and physical copies of important documents" ].

Definition tips_prompt (destination : string) : string :=
  "Provide 5 essential travel tips for visiting " +:+ destination
  +:+ ". Be concise and practical. Format as a numbered list.".

Definition single_prompt (destination : string) : string :=
  "Generate a detailed travel suggestion for " +:+ destination +:+ ".

Provide complete information including:
- destination, country, continent
- title (catchy trip title)
- description (2-3 engaging sentences)
- duration and duration_days
- highlights (5 main attractions)
- best_time_to_visit and best_months
- category (list of applicable categories)
- budget level and estimated_cost
- rating (4.5-5.0)
- popular_activities (5 activities)
- travel_tips (5 practical tips)

Return ONLY a valid JSON object. No additional text or markdown.
".

Section Admin.
Context {B : Builtins} {L : Library} {W : World}.

(** *** More of the document store *)

(** The filter [{"_id": ObjectId(...)}], as in [find_one]. *)
Definition has_oid (oid : nat) (d : gmap string value) : bool :=
  match d !! "_id" with
  | Some (VObjectId n) => (n =? oid)%nat
  | _ => false
  end.

(** The filter [{"_id": v}] for any value [v]. *)
Definition id_matches (v : value) (d : gmap string value) : bool :=
  match v with
  | VObjectId oid => has_oid oid d
  | _ => satisfies d "_id" v
  end.

(** [insert_one(doc)], giving [inserted_id]. *)
Definition insert_one (doc : gmap string value) : M state value :=
  λ st, let stored := with_id (next_oid st) doc in
        (Ok (default VNone (stored !! "_id")),
         {| db := db st ++ [stored]; next_oid := S (next_oid st);
            ticks := ticks st; trace := trace st |}).

(** [insert_many(docs)], giving [inserted_ids]; an empty list is refused
    with a [TypeError]. *)
Definition insert_many_ids (docs : list (gmap string value)) : M state (list value) :=
  match docs with
  | [] => raise (Exception "documents must be a non-empty list")
  | _ =>
      first ← gets next_oid;
      insert_many docs;;
      mret (imap (λ i d, default VNone (with_id (first + i) d !! "_id")) docs)
  end.

(** The first document that fits is the one changed or removed. *)
Fixpoint update_first (p : gmap string value → bool) (updates : gmap string value)
    (l : list (gmap string value)) : list (gmap string value) :=
  match l with
  | [] => []
  | d :: l' => if p d then (updates ∪ d) :: l' else d :: update_first p updates l'
  end.

Fixpoint remove_first (p : gmap string value → bool)
    (l : list (gmap string value)) : list (gmap string value) :=
  match l with
  | [] => []
  | d :: l' => if p d then l' else d :: remove_first p l'
  end.

(** [update_one(filter, {"$set": updates})], giving [matched_count]. *)
Definition update_one (p : gmap string value → bool) (updates : gmap string value)
  : M state Z :=
  λ st, (Ok (if existsb p (db st) then 1 else 0),
         {| db := update_first p updates (db st); next_oid := next_oid st;
            ticks := ticks st; trace := trace st |}).

(** [delete_one(filter)] and [delete_many({})], giving [deleted_count]. *)
Definition delete_one (p : gmap string value → bool) : M state Z :=
  λ st, (Ok (if existsb p (db st) then 1 else 0),
         {| db := remove_first p (db st); next_oid := next_oid st;
            ticks := ticks st; trace := trace st |}).

Definition delete_many_all : M state Z :=
  λ st, (Ok (Z.of_nat (length (db st))),
         {| db := []; next_oid := next_oid st;
            ticks := ticks st; trace := trace st |}).

(** *** [generate_travel_tips] and [generate_single_suggestion]
    [services/ai_service.py] *)

Definition generate_travel_tips (destination : string) : M state (list string) :=
  try_except
    (tips_text ← chat_completion (tips_prompt destination);
     let tips :=
       map PyStr.strip
         (List.filter (λ line, PyStr.truthy (PyStr.strip line)
                               && PyStr.any PyStr.isdigit (PyStr.take 3 line))
            (PyStr.split newline tips_text)) in
     mret (take 5 tips))
    (λ e, log (EvLogError ("Error generating tips: " +:+ exn_str e));;
          mret default_tips).

(** [suggestion['is_featured'] = False] raises [TypeError] on what is not
    an object. *)
Definition generate_single_suggestion (destination : string)
  : M state (gmap string value) :=
  try_except
    (raw ← chat_completion (single_prompt destination);
     let content := strip_code_fence (PyStr.strip raw) in
     suggestion ← loads content;
     match suggestion with
     | VDict kvs => mret (<["is_featured" := VBool false]> (dict_of kvs))
     | _ => raise (Exception "TypeError")
     end)
    (λ e, log (EvLogError ("Error generating single suggestion: " +:+ exn_str e));;
          raise e).

(** *** The other routes of [routes/suggestions.py] *)

(** The list of [SuggestedTrip] models built from [normalized]; the error
    of a model that does not validate is a [ValueError]. *)
Definition validate_models (normalized : list (gmap string value))
  : M state (list (gmap string value)) :=
  if forallb validates normalized
  then mret normalized
  else raise (ValueError "validation error for SuggestedTrip").

(** [POST /ai-generate] *)
Definition generate_ai_suggestions
    (category budget continent destination : option string)
    (count : Z) (save_to_db : bool) : M state (list (gmap string value)) :=
  try_except
    (if truthy_opt destination then
       ai_suggestion ← generate_single_suggestion (default "" destination);
       ai_suggestion ←
         (if save_to_db then
            ai_suggestion ← stamp false ai_suggestion;
            inserted_id ← insert_one ai_suggestion;
            mret (<["_id" := VStr (py_str inserted_id)]> ai_suggestion)
          else mret (<["_id" := VNone]> ai_suggestion));
       validate_models [normalize_suggestion_data ai_suggestion]
     else
       ai_suggestions ← generate_suggestions category budget continent count;
       ai_suggestions ←
         (if save_to_db then
            ai_suggestions ← stamp_all (λ _, false) 0 ai_suggestions;
            inserted_ids ← insert_many_ids ai_suggestions;
            mret (zip_with (λ suggestion inserted_id,
                              <["_id" := VStr (py_str inserted_id)]> suggestion)
                    ai_suggestions inserted_ids)
          else mret ai_suggestions);
       validate_models (map normalize_suggestion_data ai_suggestions))
    (λ e, if is_ValueError e then
            log (EvLogError ("Validation error: " +:+ exn_str e));;
            raise (HTTPException 400 (exn_str e))
          else
            log (EvLogError ("Error generating AI suggestions: " +:+ exn_str e));;
            raise (HTTPException 500 (exn_str e))).

(** The handlers [except HTTPException: raise] and [except Exception]. *)
Definition or_500 {A} (what : string) (body : M state A) : M state A :=
  try_except body
    (λ e, match e with
          | HTTPException _ _ => raise e
          | _ =>
              log (EvLogError (what +:+ exn_str e));;
              raise (HTTPException 500 (exn_str e))
          end).

(** [normalize_suggestion_data(found)], [found['_id'] = str(found['_id'])]
    and the [SuggestedTrip] built from it, for what [find_one] gave. *)
Definition show_found (found : option (gmap string value))
  : M state (gmap string value) :=
  match found with
  | None => raise (Exception "TypeError")
  | Some found =>
      found ← present found;
      shown ← validate_models [found];
      mret found
  end.

(** [POST /]; [request] is [request.model_dump()], the fields of
    [CreateSuggestionRequest]. *)
Definition create_or_update_suggestion (request : gmap string value)
    (suggestion_id : option string) : M state (gmap string value) :=
  or_500 "Error creating/updating suggestion: "
    (if truthy_opt suggestion_id then
       match object_id (default "" suggestion_id) with
       | None => raise (HTTPException 400 "Invalid suggestion ID format")
       | Some oid =>
           now ← utcnow;
           let update_data := <["updated_at" := VDate now]> request in
           matched_count ← update_one (has_oid oid) update_data;
           if matched_count =? 0
           then raise (HTTPException 404 "Suggestion not found")
           else
             updated ← find_one oid;
             show_found updated
       end
     else
       created_at ← utcnow;
       updated_at ← utcnow;
       let suggestion_data :=
         <["updated_at" := VDate updated_at]>
           (<["created_at" := VDate created_at]>
              (<["is_featured" := VBool false]>
                 (<["weather_info" := VNone]> request))) in
       inserted_id ← insert_one suggestion_data;
       created ← gets (λ st, List.find (id_matches inserted_id) (db st));
       show_found created).

(** [DELETE /{suggestion_id}] *)
Definition delete_suggestion (suggestion_id : string) (clear_all : bool)
  : M state DeleteResponse :=
  or_500 "Error deleting suggestion: "
    (if clear_all then
       deleted_count ← delete_many_all;
       mret (Cleared deleted_count)
     else
       match object_id suggestion_id with
       | None => raise (HTTPException 400 "Invalid suggestion ID format")
       | Some oid =>
           deleted_count ← delete_one (has_oid oid);
           if deleted_count =? 0
           then raise (HTTPException 404 "Suggestion not found")
           else mret (Deleted suggestion_id)
       end).

(** One round of [for field in array_fields:] in the migration; the
    state is [(updates, needs_update)]. *)
Definition field_update (suggestion normalized : gmap string value)
    (acc : gmap string value * bool) (field : string) : gmap string value * bool :=
  match normalized !! field, suggestion !! field with
  | Some n, Some o =>
      if negb (py_eq n o) then (<[field := n]> acc.1, true) else acc
  | _, _ => acc
  end.

(** The body of [for suggestion in suggestions:]. *)
Definition migrate_one (updated_count : Z) (suggestion : gmap string value)
  : M state Z :=
  let normalized := normalize_suggestion_data suggestion in
  let '(updates, needs_update) :=
    fold_left (field_update suggestion normalized) array_fields (∅, false) in
  if needs_update : bool then
    match suggestion !! "_id" with
    | None => raise (Exception "KeyError: '_id'")
    | Some id =>
        update_one (id_matches id) updates;;
        mret (updated_count + 1)
    end
  else mret updated_count.

Fixpoint migrate_loop (suggestions : list (gmap string value)) (updated_count : Z)
  : M state Z :=
  match suggestions with
  | [] => mret updated_count
  | suggestion :: rest =>
      updated_count ← migrate_one updated_count suggestion;
      migrate_loop rest updated_count
  end.

(** [POST /migrate] *)
Definition migrate_database (operation : string) : M state MigrateResponse :=
  or_500 "Error during migration: "
    (if String.eqb operation "string-to-array" then
       suggestions ← gets db;
       updated_count ← migrate_loop suggestions 0;
       mret (Migrated updated_count (Z.of_nat (length suggestions)))
     else if String.eqb operation "seed-ai" then
       ai_suggestions ← generate_suggestions None None None 10;
       ai_suggestions ← stamp_all (λ i, i <? 3)%nat 0 ai_suggestions;
       inserted_ids ← insert_many_ids ai_suggestions;
       mret (Seeded (Z.of_nat (length inserted_ids)))
     else raise (HTTPException 400 ("Unknown operation: " +:+ operation))).

(** *** Vocabulary of the properties *)

(** The [ObjectId] of a document. *)
Definition oid_of (d : gmap string value) : option nat :=
  match d !! "_id" with
  | Some (VObjectId n) => Some n
  | _ => None
  end.

(** Every stored document has an [ObjectId] of its own, smaller than the
    next one the store hands out. *)
Definition well_identified (st : state) : Prop :=
  NoDup (map oid_of (db st))
  ∧ ∀ d, d ∈ db st → ∃ n, oid_of d = Some n ∧ (n < next_oid st)%nat.

(** A document after the migration: each of the five fields that is there
    holds what the normaliser makes of it; nothing is added. *)
Definition migrated (d : gmap string value) : gmap string value :=
  map_imap (λ field v, if decide (field ∈ array_fields)
                       then Some (VList (spec_field (Some v)))
                       else Some v) d.

(** A field that is there and is not a list. *)
Definition not_a_list (o : option value) : bool :=
  match o with
  | Some (VList _) | None => false
  | Some _ => true
  end.

(** One of the five fields is there and is not a list. *)
Definition needs_migration (d : gmap string value) : bool :=
  existsb (λ field, not_a_list (d !! field)) array_fields.

(** The calls of the generator on record. *)
Definition is_generate (e : event) : bool :=
  match e with EvGenerate _ _ _ _ => true | _ => false end.

End Admin.

End Suggestions.

(** ** Helpers
    [utils/helpers.py]: [extract_city_from_destination], [truncate_text] and
    [parse_interests_tags]. *)

Module Helpers.

Definition extract_city_from_destination (destination : string) : string :=
  PyStr.strip (hd EmptyString (PyStr.split comma destination)).

(** [text[:k]]: a negative [k] counts from the end. *)
Definition slice_to (k : Z) (text : string) : string :=
  if k <? 0 then PyStr.take (Z.to_nat (Z.of_nat (String.length text) + k)) text
  else PyStr.take (Z.to_nat k) text.

Definition truncate_text (text : string) (max_length : Z) (suffix : string)
  : string :=
  if Z.of_nat (String.length text) <=? max_length then text
  else PyStr.strip (slice_to (max_length - Z.of_nat (String.length suffix)) text)
       +:+ suffix.

(** The dictionary [categories], in the order of its keys. *)
Definition categories : list (string * list string) :=
  [ ("adventure", ["hiking"; "trekking"; "climbing"; "adventure"; "outdoor";
                   "safari"; "camping"]);
    ("culture", ["culture"; "history"; "museums"; "art"; "architecture";
                 "heritage"; "temples"]);
    ("food", ["food"; "cuisine"; "dining"; "culinary"; "wine"; "gastronomy"]);
    ("beach", ["beach"; "coastal"; "ocean"; "seaside"; "tropical"; "island"]);
    ("nature", ["nature"; "wildlife"; "scenery"; "landscapes"; "parks";
                "mountains"]);
    ("city", ["city"; "urban"; "shopping"; "nightlife"; "entertainment";
              "modern"]);
    ("relaxation", ["relaxation"; "spa"; "wellness"; "yoga"; "meditation";
                    "retreat"]) ].

(** [result[key].append(interest)], on a dictionary kept in the order of
    its keys. *)
Fixpoint append_to (key interest : string) (result : list (string * list string))
  : list (string * list string) :=
  match result with
  | [] => []
  | (k, v) :: rest =>
      if String.eqb k key then (k, v ++ [interest]) :: rest
      else (k, v) :: append_to key interest rest
  end.

(** The inner loop: the first category whose keywords hold the word. *)
Fixpoint first_category (cats : list (string * list string)) (interest_lower : string)
  : option string :=
  match cats with
  | [] => None
  | (category, keywords) :: rest =>
      if existsb (String.eqb interest_lower) keywords then Some category
      else first_category rest interest_lower
  end.

Section Tags.
Context {B : Builtins}.

(** The body of [for interest in interests:]. *)
Definition categorize (result : list (string * list string)) (interest : string)
  : list (string * list string) :=
  match first_category categories (str_lower interest) with
  | Some category => append_to category interest result
  | None => append_to "other" interest result
  end.

Definition parse_interests_tags (interests : list string)
  : list (string * list string) :=
  let result := map (λ c : string * list string, (c.1, [])) categories
                ++ [("other", [])] in
  let result := fold_left categorize interests result in
  List.filter (λ kv : string * list string,
                 match kv.2 with [] => false | _ => true end) result.

(** *** Vocabulary of the properties *)

(** The category of an interest. *)
Definition category_of (interest : string) : string :=
  default "other" (first_category categories (str_lower interest)).

End Tags.

(** The keys of the result, in order. *)
Definition tag_keys : list string := map fst categories ++ ["other"].

End Helpers.

(** ** Sample instances, for the examples *)

Module Sample.

Definition lower_char (c : ascii) : ascii :=
  let n := N_of_ascii c in
  if ((65 <=? n) && (n <=? 90))%N then ascii_of_N (n + 32) else c.

Definition upper_char (c : ascii) : ascii :=
  let n := N_of_ascii c in
  if ((97 <=? n) && (n <=? 122))%N then ascii_of_N (n - 32) else c.

Fixpoint map_string (f : ascii → ascii) (s : string) : string :=
  match s with
  | EmptyString => EmptyString
  | String c s' => String (f c) (map_string f s')
  end.

Definition capitalize (s : string) : string :=
  match s with
  | EmptyString => EmptyString
  | String c s' => String (upper_char c) (map_string lower_char s')
  end.

(** The distinct elements, in the order of their first occurrence. *)
Fixpoint distinct (l : list string) : list string :=
  match l with
  | [] => []
  | x :: l' => x :: List.filter (λ y, negb (String.eqb x y)) (distinct l')
  end.

(** ASCII case mapping; a set that iterates in insertion order; the sum
    of CPython 3.11; dates as day numbers (UTC). *)
Definition builtins : Builtins := {|
  str_lower := map_string lower_char;
  str_capitalize := capitalize;
  set_iter := distinct;
  float_sum := PyNum.sum_left;
  isoformat := pretty;
  local_date := λ dt, dt `div` 86400;
  strftime_ymd := λ dt, pretty (dt `div` 86400);
  strftime_A := λ dt, pretty ((dt `div` 86400) `mod` 7);
|}.

(** The same, with a set that iterates in the opposite order. *)
Definition builtins_rev : Builtins := {|
  str_lower := map_string lower_char;
  str_capitalize := capitalize;
  set_iter := λ l, rev (distinct l);
  float_sum := PyNum.sum_left;
  isoformat := pretty;
  local_date := λ dt, dt `div` 86400;
  strftime_ymd := λ dt, pretty (dt `div` 86400);
  strftime_A := λ dt, pretty ((dt `div` 86400) `mod` 7);
|}.

(** The same as [builtins], with the sum of CPython 3.12. *)
Definition builtins_compensated : Builtins := {|
  str_lower := map_string lower_char;
  str_capitalize := capitalize;
  set_iter := distinct;
  float_sum := PyNum.sum_compensated;
  isoformat := pretty;
  local_date := λ dt, dt `div` 86400;
  strftime_ymd := λ dt, pretty (dt `div` 86400);
  strftime_A := λ dt, pretty ((dt `div` 86400) `mod` 7);
|}.

Import Weather.

Definition paris_now : CurrentPayload := {|
  p_name := "Paris"; p_country := "FR";
  p_temp := 1825 # 100; p_feels_like := 1771 # 100;
  p_temp_min := 1702 # 100; p_temp_max := 1931 # 100;
  p_humidity := 61; p_pressure := 1014;
  p_description := "scattered clouds"; p_icon := "03d";
  p_wind_speed := 412 # 100; p_clouds := 40;
  p_visibility := Some 10000 |}.

Definition paris_cached : cached := CachedWeather {|
  city := "Paris"; country := "FR";
  temperature := 15 # 1; feels_like := 14 # 1;
  temp_min := 13 # 1; temp_max := 16 # 1;
  humidity := 70; pressure := 1010;
  description := "Light rain"; icon := "10d";
  wind_speed := 3 # 1; clouds := 90; visibility := 8;
  timestamp := "0" |}.

Definition reading (dt : Z) (temp : Q) (desc : string) : Reading := {|
  r_dt := dt; r_temp := temp; r_description := desc; r_icon := "04d";
  r_humidity := 60; r_wind_speed := 3; r_pop := None |}.

(** Eight readings of one day. *)
Definition day_of_eight : list Reading :=
  [ reading 0 10 "clear sky"; reading 10800 12 "clear sky";
    reading 21600 14 "few clouds"; reading 32400 16 "few clouds";
    reading 43200 18 "light rain"; reading 54000 20 "light rain";
    reading 64800 18 "light rain"; reading 75600 16 "few clouds" ].

(** Two readings whose descriptions tie. *)
Definition day_of_two : list Reading :=
  [ reading 0 10 "rain"; reading 10800 12 "clear" ].

(** The floats that the decoder makes of [0.05], [0.065], [0.1], [0.2]
    and [0.3]. *)
Definition float_0_05 : Q := PyNum.binary64 (5 # 100).
Definition float_0_065 : Q := PyNum.binary64 (65 # 1000).
Definition float_0_1 : Q := PyNum.binary64 (1 # 10).
Definition float_0_2 : Q := PyNum.binary64 (2 # 10).
Definition float_0_3 : Q := PyNum.binary64 (3 # 10).

(** Two readings with the temperatures 0.05 and 0.25, whose sum is not a
    float, and a probability of precipitation of 0.065. *)
Definition day_of_floats : list Reading :=
  [ {| r_dt := 0; r_temp := float_0_05; r_description := "drizzle";
       r_icon := "09d"; r_humidity := 80; r_wind_speed := 3;
       r_pop := Some float_0_065 |};
    {| r_dt := 10800; r_temp := 25 # 100; r_description := "drizzle";
       r_icon := "09d"; r_humidity := 81; r_wind_speed := 3;
       r_pop := None |} ].

(** A clock that starts at [t0] and advances one second per reading. *)
Definition clock_from (t0 : Z) (n : nat) : Z := t0 + Z.of_nat n * 1000000.

(** An upstream that always answers with the same current weather and an
    empty forecast. *)
Definition world_up (t0 : Z) : World := {|
  clock := clock_from t0;
  api_weather := λ _ _, UpOk paris_now;
  api_forecast := λ _ _ _,
    UpOk {| p_list := []; p_city_name := "Paris"; p_city_country := "FR" |};
|}.

(** An upstream that is down: every request times out. *)
Definition world_down (t0 : Z) : World := {|
  clock := clock_from t0;
  api_weather := λ _ _, UpTimeout;
  api_forecast := λ _ _ _, UpTimeout;
|}.

(** A service with a key and one entry for Paris, fetched at time 0. *)
Definition svc_paris : WeatherService := {|
  api_key := Some "k3y";
  cache := {[ "paris_current" := (paris_cached, 0) ]} |}.

(** The same cache in a service without a key. *)
Definition svc_no_key : WeatherService := {|
  api_key := None;
  cache := {[ "paris_current" := (paris_cached, 0) ]} |}.

Definition svc_empty (key : option string) : WeatherService := {|
  api_key := key; cache := ∅ |}.

Definition start (svc : WeatherService) : state := {|
  self := svc; ticks := 0; trace := [] |}.

(** Readings of two days, and an upstream that answers with them. *)
Definition two_days : list Reading :=
  day_of_eight ++ [ reading 86400 11 "clear sky"; reading 97200 13 "clear sky" ].

Definition world_two_days (t0 : Z) : World := {|
  clock := clock_from t0;
  api_weather := λ _ _, UpOk paris_now;
  api_forecast := λ _ _ _,
    UpOk {| p_list := two_days; p_city_name := "Paris"; p_city_country := "FR" |};
|}.

Definition paris_forecast : cached := CachedForecast {|
  f_city := "Paris"; f_country := "FR"; f_forecasts := []; f_timestamp := "0" |}.

(** A service with a key, one current entry and one forecast entry. *)
Definition svc_two_entries : WeatherService := {|
  api_key := Some "k3y";
  cache := <[ "paris_forecast_3" := (paris_forecast, minutes 30) ]>
             {[ "paris_current" := (paris_cached, 0) ]} |}.

(** A float with one decimal; items in the order of the keys. *)
Definition runtime : Runtime := {|
  dict_items := map_to_list;
  str_float := λ q, pretty (Qfloor q) +:+ "." +:+ pretty (Qfloor (q * 10) `mod` 10);
|}.

(** *** A document store and a language model *)

Import Suggestions.

(** Equality of the scalars a query compares with. *)
Definition scalar_eqb (a b : value) : bool :=
  match a, b with
  | VStr x, VStr y => String.eqb x y
  | VBool x, VBool y => Bool.eqb x y
  | VInt x, VInt y => (x =? y)
  | _, _ => false
  end.

(** A field holds [c] when it is [c] or an array with [c] in it. *)
Definition holds (field : option value) (c : value) : bool :=
  match field with
  | Some (VList items) => existsb (scalar_eqb c) items
  | Some v => scalar_eqb c v
  | None => false
  end.

Definition in_range (field : option value) (bound : string * value) : bool :=
  match field, bound with
  | Some (VInt n), (op, VInt b) =>
      if String.eqb op "$gte" then b <=? n
      else if String.eqb op "$lte" then n <=? b
      else false
  | _, _ => false
  end.

(** One entry of a query: a value to hold, [$in] with alternatives, or
    bounds. *)
Definition satisfies_entry (d : gmap string value) (k : string) (c : value) : bool :=
  match c with
  | VDict [("$in", VList alternatives)] => existsb (holds (d !! k)) alternatives
  | VDict bounds => forallb (in_range (d !! k)) bounds
  | _ => holds (d !! k) c
  end.

Definition rating_of (d : gmap string value) : Q :=
  match d !! "rating" with
  | Some (VFloat q) => q
  | Some (VInt n) => inject_Z n
  | _ => (-1)%Q
  end.

Fixpoint insert_by_rating (d : gmap string value) (l : list (gmap string value))
  : list (gmap string value) :=
  match l with
  | [] => [d]
  | x :: l' =>
      if PyNum.Qlt_bool (rating_of x) (rating_of d) then d :: l
      else x :: insert_by_rating d l'
  end.

Definition by_rating_desc (l : list (gmap string value)) : list (gmap string value) :=
  foldr insert_by_rating [] l.

Fixpoint digits (s : string) (acc : Z) : option Z :=
  match s with
  | EmptyString => Some acc
  | String c s' =>
      let n := N_of_ascii c in
      if ((48 <=? n) && (n <=? 57))%N
      then digits s' (acc * 10 + Z.of_N (n - 48))
      else None
  end.

Definition decimal (s : string) : option Z :=
  match s with EmptyString => None | _ => digits s 0 end.

Definition trip (destination : string) (categories : list string) (rating : Q)
  : list (string * value) :=
  [ ("destination", VStr destination);
    ("category", VList (map VStr categories));
    ("duration", VStr "5-7 days");
    ("rating", VFloat rating) ].

(** Twelve destinations as the model may describe them. *)
Definition twelve : list (list (string * value)) :=
  [ trip "Bali" ["beach"; "culture"] 4.9; trip "Kyoto" ["culture"] 4.8;
    trip "Banff" ["mountains"] 4.8; trip "Lisbon" ["city"; "food"] 4.7;
    trip "Petra" ["culture"] 4.7; trip "Cusco" ["hiking"] 4.7;
    trip "Hanoi" ["food"] 4.6; trip "Oslo" ["city"] 4.6;
    trip "Fiji" ["beach"] 4.6; trip "Cairo" ["culture"] 4.5;
    trip "Quito" ["city"] 4.5; trip "Perth" ["beach"] 4.5 ].

Definition two_beaches : list (list (string * value)) :=
  [ trip "Phuket" ["beach"] 4.8; trip "Goa" ["beach"] 4.6 ].

(** A decoder that knows three texts; any other text is not JSON. *)
Definition decode (content : string) : string + value :=
  if String.eqb content "[twelve]" then inr (VList (map VDict twelve))
  else if String.eqb content "[two beaches]" then inr (VList (map VDict two_beaches))
  else if String.eqb content "[]" then inr (VList [])
  else inl "Expecting value: line 1 column 1 (char 0)".

Definition library : Library := {|
  json_loads := decode;
  py_int := decimal;
  py_str := λ v, match v with VObjectId n => pretty n | VStr s => s | _ => "" end;
  object_id := λ s, Z.to_nat <$> decimal s;
  validates := λ s, is_str (default VNone (s !! "destination"))
                    && is_text_seq (default VNone (s !! "category"));
  satisfies := satisfies_entry;
  sort_by_rating_desc := by_rating_desc;
|}.

(** A model that always answers with the same text. *)
Definition model (answer : string) : Suggestions.World := {|
  Suggestions.clock := clock_from 1000;
  chat := λ _ _, Completion answer;
|}.

Definition request : Request := {|
  category := None; budget := None; duration_min := None; duration_max := None;
  continent := None; featured := false; limit := 10; skip := 0;
  suggestion_id := None |}.

Definition stored (oid : nat) (destination : string) (categories : list string)
    (rating : Q) : gmap string value :=
  <["_id" := VObjectId oid]> (dict_of (trip destination categories rating)).

Definition empty_store : Suggestions.state :=
  {| db := []; next_oid := 0; Suggestions.ticks := 0; Suggestions.trace := [] |}.

(** A store with one city trip. *)
Definition one_city : Suggestions.state :=
  {| db := [stored 0 "Oslo" ["city"] 4.6]; next_oid := 1;
     Suggestions.ticks := 0; Suggestions.trace := [] |}.

(** The fields of a request to create a trip. *)
Definition porto : gmap string value :=
  dict_of (trip "Porto" ["city"; "food"] 4.7).

(** A store with two trips; the second has fields still kept as text. *)
Definition legacy_store : Suggestions.state :=
  {| db := [ stored 0 "Oslo" ["city"] 4.6;
             <["_id" := VObjectId 1]>
               (dict_of [ ("destination", VStr "Goa");
                          ("category", VStr "beach, food");
                          ("highlights", VStr "Palolem") ]) ];
     next_oid := 2; Suggestions.ticks := 0; Suggestions.trace := [] |}.

(** A store with twelve culture trips. *)
Definition many_cultures : Suggestions.state :=
  {| db := imap (λ i name, stored i name ["culture"] 4.5)
             ["a"; "b"; "c"; "d"; "e"; "f"; "g"; "h"; "i"; "j"; "k"; "l"];
     next_oid := 12; Suggestions.ticks := 0; Suggestions.trace := [] |}.

End Sample.

(* ================================================================== *)
(** * Properties *)
(* ================================================================== *)

(** ** String operations *)

Example strip_both_sides : PyStr.strip "  5-7 days
" = "5-7 days".
Proof. reflexivity. Qed.

Example split_keeps_empty_pieces :
  PyStr.split ","%char "a,,b," = ["a"; ""; "b"; ""].
Proof. reflexivity. Qed.

Example split_str_fence :
  PyStr.split_str "```" "```json [1] ``` tail" = [""; "json [1] "; " tail"].
Proof. reflexivity. Qed.

Example strip_code_fence_json :
  Suggestions.strip_code_fence "```json
[]
```" = "[]".
Proof. reflexivity. Qed.

Example strip_code_fence_plain : Suggestions.strip_code_fence "[]" = "[]".
Proof. reflexivity. Qed.

Example first_word_of_duration :
  PyStr.first_word (hd EmptyString (PyStr.split "-"%char " 10 -14 days")) = Some "10".
Proof. reflexivity. Qed.

Example round_half_goes_to_even :
  PyNum.round_int (5 # 2) = 2 ∧ PyNum.round_int (7 # 2) = 4
  ∧ PyNum.round_int (-1 # 2) = 0 ∧ PyNum.round1 (1 # 4) = (1 # 5)%Q.
Proof. repeat split. Qed.

Section Strings.

Implicit Types (s t acc : string) (c sep : ascii).

Lemma append_cons c s t : String c s +:+ t = String c (s +:+ t).
Proof. reflexivity. Qed.

Lemma append_nil_r s : s +:+ "" = s.
Proof.
  induction s as [|c s IH]; [reflexivity|]. by rewrite append_cons, IH.
Qed.

Lemma append_assoc s t u : (s +:+ t) +:+ u = s +:+ t +:+ u.
Proof.
  induction s as [|c s IH]; [reflexivity|]. by rewrite !append_cons, IH.
Qed.

Lemma rev_onto_app acc s : PyStr.rev_onto acc s = PyStr.rev s +:+ acc.
Proof.
  unfold PyStr.rev. revert acc. induction s as [|c s IH]; intros acc; simpl.
  - reflexivity.
  - rewrite IH, (IH (String c "")), append_assoc. reflexivity.
Qed.

Lemma rev_cons c s : PyStr.rev (String c s) = PyStr.rev s +:+ String c "".
Proof. unfold PyStr.rev at 1. simpl. apply rev_onto_app. Qed.

Lemma rev_app s t : PyStr.rev (s +:+ t) = PyStr.rev t +:+ PyStr.rev s.
Proof.
  induction s as [|c s IH]; simpl.
  - by rewrite append_nil_r.
  - by rewrite append_cons, !rev_cons, IH, append_assoc.
Qed.

Lemma rev_rev s : PyStr.rev (PyStr.rev s) = s.
Proof.
  induction s as [|c s IH]; [reflexivity|].
  by rewrite rev_cons, rev_app, IH.
Qed.

Lemma all_space_app s t :
  PyStr.all_space (s +:+ t) = PyStr.all_space s && PyStr.all_space t.
Proof.
  induction s as [|c s IH]; simpl; [reflexivity|].
  by rewrite IH, andb_assoc.
Qed.

Lemma all_space_rev s : PyStr.all_space (PyStr.rev s) = PyStr.all_space s.
Proof.
  induction s as [|c s IH]; [reflexivity|].
  rewrite rev_cons, all_space_app, IH. simpl.
  rewrite andb_true_r. apply andb_comm.
Qed.

(** [lstrip] takes white space off the front, all of it. *)
Lemma lstrip_spec s :
  ∃ ws, s = ws +:+ PyStr.lstrip s
        ∧ PyStr.all_space ws = true
        ∧ PyStr.starts_clean (PyStr.lstrip s) = true.
Proof.
  induction s as [|c s (ws & Hs & Hws & Hclean)]; simpl.
  - by exists "".
  - destruct (PyStr.isspace c) eqn:Hc.
    + exists (String c ws). rewrite append_cons, <- Hs. simpl. by rewrite Hc, Hws.
    + exists "". simpl. by rewrite Hc.
Qed.

(** [rstrip] does the same at the back. *)
Lemma rstrip_spec s :
  ∃ ws, s = PyStr.rstrip s +:+ ws
        ∧ PyStr.all_space ws = true
        ∧ PyStr.ends_clean (PyStr.rstrip s) = true.
Proof.
  unfold PyStr.rstrip, PyStr.ends_clean.
  destruct (lstrip_spec (PyStr.rev s)) as (ws & Hs & Hws & Hclean).
  exists (PyStr.rev ws). repeat split.
  - rewrite <- rev_app, <- Hs. by rewrite rev_rev.
  - by rewrite all_space_rev.
  - by rewrite rev_rev.
Qed.

Lemma starts_clean_prefix s t :
  PyStr.starts_clean (s +:+ t) = true → PyStr.starts_clean s = true.
Proof. destruct s; [reflexivity|exact id]. Qed.

(** [strip] takes the white space off both ends and nothing else. *)
Lemma strip_spec s :
  ∃ l r, s = l +:+ PyStr.strip s +:+ r
         ∧ PyStr.all_space l = true
         ∧ PyStr.all_space r = true
         ∧ PyStr.starts_clean (PyStr.strip s) = true
         ∧ PyStr.ends_clean (PyStr.strip s) = true.
Proof.
  unfold PyStr.strip.
  destruct (lstrip_spec s) as (l & Hl & Hlws & Hlclean).
  destruct (rstrip_spec (PyStr.lstrip s)) as (r & Hr & Hrws & Hrclean).
  exists l, r. repeat split; try assumption.
  - by rewrite <- Hr.
  - apply (starts_clean_prefix _ r). by rewrite <- Hr.
Qed.

Lemma split_nonempty sep s : PyStr.split sep s ≠ [].
Proof.
  destruct s as [|c s]; simpl; [discriminate|].
  destruct (Ascii.eqb c sep); [discriminate|].
  destruct (PyStr.split sep s); discriminate.
Qed.

(** Joining the pieces with the separator gives the string back. *)
Lemma split_join sep s :
  PyStr.join (String sep "") (PyStr.split sep s) = s.
Proof.
  induction s as [|c s IH]; simpl; [reflexivity|].
  pose proof (split_nonempty sep s) as Hne.
  destruct (Ascii.eqb_spec c sep) as [->|Hc].
  - destruct (PyStr.split sep s) as [|p ps]; [congruence|].
    change (PyStr.join (String sep "") ("" :: p :: ps))
      with (String sep (PyStr.join (String sep "") (p :: ps))).
    by rewrite IH.
  - destruct (PyStr.split sep s) as [|p ps]; [congruence|].
    destruct ps as [|q ps]; simpl in *; by rewrite <- IH.
Qed.

(** No piece holds the separator. *)
Lemma split_pieces sep s p :
  In p (PyStr.split sep s) → PyStr.contains sep p = false.
Proof.
  revert p. induction s as [|c s IH]; intros p; simpl.
  - intros [<-|[]]. reflexivity.
  - pose proof (split_nonempty sep s) as Hne.
    destruct (Ascii.eqb c sep) eqn:Hc.
    + intros [<-|Hin]; [reflexivity|by apply IH].
    + destruct (PyStr.split sep s) as [|q qs]; [congruence|].
      intros [<-|Hin].
      * simpl. rewrite Hc. apply IH. by left.
      * apply IH. by right.
Qed.

(** A string without the separator is its own single piece. *)
Lemma split_without_sep sep s :
  PyStr.contains sep s = false → PyStr.split sep s = [s].
Proof.
  induction s as [|c s IH]; simpl; [reflexivity|].
  destruct (Ascii.eqb c sep); [discriminate|].
  intros Hs. by rewrite (IH Hs).
Qed.

End Strings.

(** ** The normaliser *)

Example normalize_comma :
  normalize_suggestion_data {[ "category" := VStr "beach, culture" ]} !! "category"
  = Some (VList [VStr "beach"; VStr "culture"]).
Proof. vm_compute. reflexivity. Qed.

Example normalize_single :
  normalize_suggestion_data {[ "category" := VStr "beach" ]} !! "category"
  = Some (VList [VStr "beach"]).
Proof. vm_compute. reflexivity. Qed.

Example normalize_empty_string :
  normalize_suggestion_data {[ "category" := VStr "" ]} !! "category"
  = Some (VList []).
Proof. vm_compute. reflexivity. Qed.

Example normalize_number :
  normalize_suggestion_data {[ "category" := VInt 42 ]} !! "category"
  = Some (VList []).
Proof. vm_compute. reflexivity. Qed.

Example normalize_absent :
  normalize_suggestion_data ∅ !! "travel_tips" = Some (VList []).
Proof. vm_compute. reflexivity. Qed.

Section Normalizer.

Implicit Types (m r : gmap string value) (f g : string).

Lemma truthy_eqb (s : string) : PyStr.truthy s = negb (String.eqb s "").
Proof. destruct s; reflexivity. Qed.

(** The comprehension [[item.strip() for item in pieces if item.strip()]]
    is "strip every piece, then drop the empty ones". *)
Lemma comprehension_strip_filter (pieces : list string) :
  map (fun item => VStr (PyStr.strip item))
    (List.filter (fun item => PyStr.truthy (PyStr.strip item)) pieces)
  = map VStr (List.filter (fun p => negb (String.eqb p ""))
                (map PyStr.strip pieces)).
Proof.
  induction pieces as [|p ps IH]; simpl; [reflexivity|].
  rewrite truthy_eqb.
  destruct (negb (String.eqb (PyStr.strip p) "")); simpl; congruence.
Qed.

Lemma coerce_field_other m f g : f ≠ g → coerce_field m f !! g = m !! g.
Proof.
  intros Hne. unfold coerce_field.
  destruct (m !! f) as [[]|] eqn:E; try reflexivity;
    try (destruct (PyStr.contains comma s));
    rewrite lookup_insert_ne; auto.
Qed.

Lemma coerce_field_same m f :
  coerce_field m f !! f = (fun v => VList (spec_field (Some v))) <$> (m !! f).
Proof.
  unfold coerce_field.
  destruct (m !! f) as [v|] eqn:E; [|by rewrite E].
  destruct v; simpl; try (rewrite lookup_insert_eq; reflexivity); [|exact E].
  destruct (PyStr.contains comma s); rewrite lookup_insert_eq.
  - by rewrite comprehension_strip_filter.
  - rewrite truthy_eqb. by destruct (String.eqb (PyStr.strip s) "").
Qed.

Lemma ensure_field_other m f g : f ≠ g → ensure_field m f !! g = m !! g.
Proof.
  intros Hne. unfold ensure_field.
  destruct (m !! f); [reflexivity|]. by rewrite lookup_insert_ne.
Qed.

Lemma ensure_field_same m f :
  ensure_field m f !! f = Some (default (VList []) (m !! f)).
Proof.
  unfold ensure_field.
  destruct (m !! f) eqn:E; [by rewrite E|]. by rewrite lookup_insert_eq.
Qed.

(** The first loop touches exactly the listed fields that are present. *)
Lemma coerce_loop_lookup (fs : list string) m g :
  NoDup fs →
  fold_left coerce_field fs m !! g
  = if decide (g ∈ fs)
    then (fun v => VList (spec_field (Some v))) <$> (m !! g)
    else m !! g.
Proof.
  intros Hnd. revert m.
  induction Hnd as [|f fs Hnotin Hnd IH]; intros m; cbn [fold_left].
  - case_decide as Hin; [by apply not_elem_of_nil in Hin|reflexivity].
  - rewrite IH. destruct (decide (g = f)) as [->|Hne].
    + rewrite (decide_False (P := f ∈ fs)) by assumption.
      rewrite (decide_True (P := f ∈ f :: fs)) by (apply elem_of_cons; by left).
      apply coerce_field_same.
    + rewrite coerce_field_other by congruence.
      do 2 case_decide; try reflexivity; exfalso;
        rewrite ?elem_of_cons in *; tauto.
Qed.

(** The second loop fills in exactly the listed fields that are absent. *)
Lemma ensure_loop_lookup (fs : list string) m g :
  fold_left ensure_field fs m !! g
  = if decide (g ∈ fs) then Some (default (VList []) (m !! g)) else m !! g.
Proof.
  revert m. induction fs as [|f fs IH]; intros m; cbn [fold_left].
  - case_decide as Hin; [by apply not_elem_of_nil in Hin|reflexivity].
  - rewrite IH. destruct (decide (g = f)) as [->|Hne].
    + rewrite ensure_field_same.
      do 2 case_decide; try reflexivity; exfalso;
        rewrite ?elem_of_cons in *; tauto.
    + rewrite ensure_field_other by congruence.
      do 2 case_decide; try reflexivity; exfalso;
        rewrite ?elem_of_cons in *; tauto.
Qed.

Lemma array_fields_NoDup : NoDup array_fields.
Proof. compute_done. Qed.

(** Every key of the result, in one equation. *)
Lemma normalize_lookup r g :
  normalize_suggestion_data r !! g
  = if decide (g ∈ array_fields)
    then Some (VList (spec_field (r !! g)))
    else r !! g.
Proof.
  unfold normalize_suggestion_data.
  rewrite ensure_loop_lookup, coerce_loop_lookup by apply array_fields_NoDup.
  destruct (decide (g ∈ array_fields)); [|reflexivity].
  by destruct (r !! g).
Qed.

Lemma spec_field_text (o : option value) :
  is_text_seq (VList (spec_field o))
  = match o with Some (VList l) => forallb is_str l | _ => true end.
Proof.
  destruct o as [[]|]; simpl; try reflexivity.
  destruct (PyStr.contains comma s).
  - induction (List.filter _ _) as [|p ps IH]; simpl; auto.
  - by destruct (String.eqb (PyStr.strip s) "").
Qed.

End Normalizer.

(** C1, as stated, fails on a list whose elements are not text: the list is
    kept as it is, so the field leaves the normaliser as a list holding the
    number 42, which is not a sequence of text. *)
Lemma normalize_keeps_non_text_list :
  "category" ∈ array_fields ∧
  ∃ v, normalize_suggestion_data {[ "category" := VList [VInt 42] ]} !! "category"
       = Some v
       ∧ is_text_seq v = false.
Proof.
  split; [compute_done|].
  exists (VList [VInt 42]). split; vm_compute; reflexivity.
Qed.

(** C1 (amended). For every input mapping [r] and each of the five fields,
    the field of [normalize_suggestion_data r] is a list, never null and
    never a bare scalar: empty when the field is absent; the input list
    itself, elements untouched, when the field is a list; the stripped,
    non-empty pieces of the comma-split when it is a string with a comma;
    the stripped string alone (or nothing, if it strips to empty) when it is
    a string without a comma; empty for every other value. The list holds
    only text in every case but the second, where it holds only text exactly
    when the input list did. *)
Theorem normalize_array_fields (r : gmap string value) (field : string) :
  field ∈ array_fields →
  normalize_suggestion_data r !! field = Some (VList (spec_field (r !! field)))
  ∧ is_text_seq (VList (spec_field (r !! field)))
    = match r !! field with
      | Some (VList l) => forallb is_str l
      | _ => true
      end.
Proof.
  intros Hin. split.
  - rewrite normalize_lookup. by rewrite decide_True.
  - apply spec_field_text.
Qed.

Lemma normalize_array_fields_witness :
  let r : gmap string value := {[ "highlights" := VStr " Louvre ,, Seine " ]} in
  "highlights" ∈ array_fields
  ∧ normalize_suggestion_data r !! "highlights"
    = Some (VList [VStr "Louvre"; VStr "Seine"]).
Proof.
  intros r. split; [compute_done|].
  destruct (normalize_array_fields r "highlights") as [Heq _]; [compute_done|].
  rewrite Heq. vm_compute. reflexivity.
Defined.

(** C2. [normalize_suggestion_data] is idempotent on every input mapping. *)
Theorem normalize_idempotent (r : gmap string value) :
  normalize_suggestion_data (normalize_suggestion_data r)
  = normalize_suggestion_data r.
Proof.
  apply map_eq. intros g.
  rewrite (normalize_lookup (normalize_suggestion_data r)).
  rewrite (normalize_lookup r).
  destruct (decide (g ∈ array_fields)); reflexivity.
Qed.

(** ** The weather cache *)

Section WeatherFacts.
Import Weather.
Context {B : Builtins} {W : World}.

Lemma check_cache_run (key : string) (st : state) :
  check_cache key st = (Ok (fresh_entry st key), after_check st key).
Proof.
  unfold check_cache, fresh_entry, after_check, mbind, M_bind, log, modify, gets.
  simpl. destruct (cache (self st) !! key) as [[data ts]|]; [|reflexivity].
  unfold _is_cache_valid, mbind, M_bind, utcnow, mret, M_ret. simpl.
  reflexivity.
Qed.

(** What [fetch] does, by the upstream's answer. *)
Lemma fetch_run {P} (e : event) (answer : list event → upstream P) (st : state) :
  fetch e answer st
  = (match answer (trace st) with
     | UpOk data => Ok data
     | UpMalformed msg => Raise (Exception msg)
     | UpStatus code => Raise (HTTPStatusError code)
     | UpTimeout => Raise TimeoutException
     | UpError msg => Raise (Exception msg)
     end,
     {| self := self st; ticks := ticks st; trace := e :: trace st |}).
Proof.
  unfold fetch, mbind, M_bind, gets, log, modify. simpl.
  destruct (answer (trace st)); reflexivity.
Qed.

Lemma on_failure_run {A} (e : exn) (st : state) :
  on_failure (A := A) e st = (Ok None, st).
Proof. destruct e; reflexivity. Qed.

(** A lookup without a usable key does nothing at all. *)
Lemma current_without_key (city : string) (st : state) :
  truthy_opt (api_key (self st)) = false →
  get_current_weather city st = (Ok None, st).
Proof.
  intros Hkey. unfold get_current_weather, mbind, M_bind, gets. simpl.
  rewrite Hkey. reflexivity.
Qed.

Lemma forecast_without_key (city : string) (days : Z) (st : state) :
  truthy_opt (api_key (self st)) = false →
  get_forecast city days st = (Ok None, st).
Proof.
  intros Hkey. unfold get_forecast, mbind, M_bind, gets. simpl.
  rewrite Hkey. reflexivity.
Qed.

(** A hit: the cached data, and nothing but the lookup happened. *)
Lemma current_hit (city : string) (st : state) (data : cached) :
  truthy_opt (api_key (self st)) = true →
  fresh_entry st (_get_cache_key city "current") = Some data →
  get_current_weather city st
  = (Ok (Some data), after_check st (_get_cache_key city "current")).
Proof.
  intros Hkey Hhit. unfold get_current_weather.
  unfold mbind at 1. unfold M_bind at 1. unfold gets at 1. simpl.
  rewrite Hkey. simpl.
  unfold mbind at 1. unfold M_bind at 1. rewrite check_cache_run, Hhit.
  reflexivity.
Qed.

Lemma forecast_hit (city : string) (days : Z) (st : state) (data : cached) :
  let key := _get_cache_key city ("forecast_" +:+ pretty (Z.max 1 (Z.min days 5))) in
  truthy_opt (api_key (self st)) = true →
  fresh_entry st key = Some data →
  get_forecast city days st = (Ok (Some data), after_check st key).
Proof.
  intros key Hkey Hhit. unfold get_forecast.
  unfold mbind at 1. unfold M_bind at 1. unfold gets at 1. simpl.
  rewrite Hkey. simpl.
  unfold mbind at 1. unfold M_bind at 1. fold key. rewrite check_cache_run, Hhit.
  reflexivity.
Qed.

(** A miss: one request goes upstream; a good answer is formatted,
    stored under the key with the time of storing, and returned; any
    other answer gives [None] and leaves the cache alone. *)
Lemma current_miss (city : string) (st : state) :
  let key := _get_cache_key city "current" in
  let st1 := after_check st key in
  truthy_opt (api_key (self st)) = true →
  fresh_entry st key = None →
  get_current_weather city st
  = match api_weather (trace st1) city with
    | UpOk data =>
        let w := format_current data (clock (ticks st1)) in
        (Ok (Some w),
         {| self := {| api_key := api_key (self st);
                       cache := <[key := (w, clock (S (ticks st1)))]> (cache (self st)) |};
            ticks := S (S (ticks st1));
            trace := EvCacheStore key :: EvGetWeather city :: trace st1 |})
    | _ =>
        (Ok None,
         {| self := self st; ticks := ticks st1;
            trace := EvGetWeather city :: trace st1 |})
    end.
Proof.
  intros key st1 Hkey Hmiss. unfold get_current_weather.
  unfold mbind at 1. unfold M_bind at 1. unfold gets at 1. simpl.
  rewrite Hkey. simpl.
  unfold mbind at 1. unfold M_bind at 1. fold key.
  rewrite check_cache_run, Hmiss. fold st1.
  unfold try_except.
  unfold mbind at 1. unfold M_bind at 1. rewrite fetch_run.
  subst st1. cbn [trace after_check ticks self].
  destruct (api_weather _ city); try (rewrite on_failure_run; reflexivity).
  reflexivity.
Qed.

Lemma forecast_miss (city : string) (days0 : Z) (st : state) :
  let days := Z.max 1 (Z.min days0 5) in
  let key := _get_cache_key city ("forecast_" +:+ pretty days) in
  let st1 := after_check st key in
  truthy_opt (api_key (self st)) = true →
  fresh_entry st key = None →
  get_forecast city days0 st
  = match api_forecast (trace st1) city (days * 8) with
    | UpOk data =>
        let f := format_forecast days data (clock (ticks st1)) in
        (Ok (Some f),
         {| self := {| api_key := api_key (self st);
                       cache := <[key := (f, clock (S (ticks st1)))]> (cache (self st)) |};
            ticks := S (S (ticks st1));
            trace := EvCacheStore key :: EvGetForecast city (days * 8) :: trace st1 |})
    | _ =>
        (Ok None,
         {| self := self st; ticks := ticks st1;
            trace := EvGetForecast city (days * 8) :: trace st1 |})
    end.
Proof.
  intros days key st1 Hkey Hmiss. unfold get_forecast.
  unfold mbind at 1. unfold M_bind at 1. unfold gets at 1. simpl.
  rewrite Hkey. simpl.
  unfold mbind at 1. unfold M_bind at 1. fold days. fold key.
  rewrite check_cache_run, Hmiss. fold st1.
  unfold try_except.
  unfold mbind at 1. unfold M_bind at 1. rewrite fetch_run.
  subst st1. cbn [trace after_check ticks self].
  destruct (api_forecast _ city (days * 8));
    try (rewrite on_failure_run; reflexivity).
  reflexivity.
Qed.

End WeatherFacts.

Section WeatherClaims.
Import Weather.
Context {B : Builtins} {W : World}.

Lemma upstream_calls_after_check (st : state) (key : string) :
  upstream_calls (after_check st key) = upstream_calls st.
Proof. reflexivity. Qed.

Lemma fresh_entry_young (st : state) (key : string) data fetched_at :
  cache (self st) !! key = Some (data, fetched_at) →
  clock (ticks st) - fetched_at < cache_duration →
  fresh_entry st key = Some data.
Proof.
  intros Hin Hage. unfold fresh_entry. rewrite Hin.
  destruct (Z.ltb_spec (clock (ticks st) - fetched_at) cache_duration); [reflexivity|lia].
Qed.

Lemma fresh_entry_old (st : state) (key : string) :
  cache (self st) !! key = None
  ∨ (∃ data fetched_at, cache (self st) !! key = Some (data, fetched_at)
                        ∧ cache_duration ≤ clock (ticks st) - fetched_at) →
  fresh_entry st key = None.
Proof.
  unfold fresh_entry. intros [Hnone|(data & ts & Hin & Hage)].
  - by rewrite Hnone.
  - rewrite Hin.
    destruct (Z.ltb_spec (clock (ticks st) - ts) cache_duration); [lia|reflexivity].
Qed.

(** The last clock reading of a miss that stores is the one stored. *)
Lemma current_miss_calls (city : string) (st : state) :
  let key := _get_cache_key city "current" in
  truthy_opt (api_key (self st)) = true →
  fresh_entry st key = None →
  upstream_calls (get_current_weather city st).2
  = EvGetWeather city :: upstream_calls st.
Proof.
  intros key Hkey Hmiss. rewrite current_miss by assumption. fold key.
  destruct (api_weather _ city); reflexivity.
Qed.

End WeatherClaims.

Section WeatherTheorems.
Import Weather.
Context {B : Builtins} {W : World}.

(** C10. Without a configured API key (no key, or the empty string), both
    lookups return [None] at once and leave the whole state as it was: no
    cache lookup is recorded, no request goes upstream, the cache and the
    clock are untouched. This holds for every state, so also when the cache
    holds an unexpired entry under the key. *)
Theorem no_key_returns_none (city : string) (days : Z) (st : state) :
  truthy_opt (api_key (self st)) = false →
  get_current_weather city st = (Ok None, st)
  ∧ get_forecast city days st = (Ok None, st).
Proof.
  intros Hkey. split.
  - by apply current_without_key.
  - by apply forecast_without_key.
Qed.

(** C8. For every city, every number of days and every state, neither
    lookup raises: each returns a value. When the request that is made
    upstream fails (a response that cannot be decoded, an error status such
    as 404 or 401, a timeout, or any other error), the value is [None] and
    the cache is left as it was. *)
Theorem lookups_never_raise (city : string) (days : Z) (st : state) :
  (∃ r, (get_current_weather city st).1 = Ok r)
  ∧ (∃ r, (get_forecast city days st).1 = Ok r)
  ∧ (let key := _get_cache_key city "current" in
     truthy_opt (api_key (self st)) = true →
     fresh_entry st key = None →
     failed (api_weather (trace (after_check st key)) city) = true →
     (get_current_weather city st).1 = Ok None
     ∧ cache (self (get_current_weather city st).2) = cache (self st))
  ∧ (let n := Z.max 1 (Z.min days 5) in
     let key := _get_cache_key city ("forecast_" +:+ pretty n) in
     truthy_opt (api_key (self st)) = true →
     fresh_entry st key = None →
     failed (api_forecast (trace (after_check st key)) city (n * 8)) = true →
     (get_forecast city days st).1 = Ok None
     ∧ cache (self (get_forecast city days st).2) = cache (self st)).
Proof.
  repeat split.
  - destruct (truthy_opt (api_key (self st))) eqn:Hkey;
      [|rewrite current_without_key by assumption; eauto].
    destruct (fresh_entry st (_get_cache_key city "current")) as [data|] eqn:Hc.
    + erewrite current_hit by eassumption. eauto.
    + rewrite current_miss by assumption.
      destruct (api_weather _ city); eauto.
  - destruct (truthy_opt (api_key (self st))) eqn:Hkey;
      [|rewrite forecast_without_key by assumption; eauto].
    destruct (fresh_entry st
                (_get_cache_key city ("forecast_" +:+ pretty (Z.max 1 (Z.min days 5)))))
      as [data|] eqn:Hc.
    + erewrite forecast_hit by eassumption. eauto.
    + rewrite forecast_miss by assumption.
      destruct (api_forecast _ city _); eauto.
  - rewrite current_miss by assumption.
    destruct (api_weather _ city); [discriminate|reflexivity..].
  - rewrite current_miss by assumption.
    destruct (api_weather _ city); [discriminate|reflexivity..].
  - rewrite forecast_miss by assumption.
    destruct (api_forecast _ city _); [discriminate|reflexivity..].
  - rewrite forecast_miss by assumption.
    destruct (api_forecast _ city _); [discriminate|reflexivity..].
Qed.

(** C9 (amended). With an API key configured, for every city:
    while the cache holds an entry for the key whose age (the clock minus
    the time of fetching) is below one hour, [get_current_weather] returns
    the cached value as it is, makes no upstream request and leaves the cache
    alone; when there is no entry, or its age is one hour or more, exactly
    one request goes upstream, and a good answer replaces the entry by the
    new value and the time of storing. So an entry fetched at [T] is served
    from the cache at [T] + 59 min, and a request goes upstream at
    [T] + 61 min. *)
Theorem cache_ttl (city : string) (st : state) :
  let key := _get_cache_key city "current" in
  let out := get_current_weather city st in
  truthy_opt (api_key (self st)) = true →
  (∀ data fetched_at,
     cache (self st) !! key = Some (data, fetched_at) →
     clock (ticks st) - fetched_at < cache_duration →
     out.1 = Ok (Some data)
     ∧ upstream_calls out.2 = upstream_calls st
     ∧ cache (self out.2) = cache (self st))
  ∧ (cache (self st) !! key = None
     ∨ (∃ data fetched_at,
          cache (self st) !! key = Some (data, fetched_at)
          ∧ cache_duration ≤ clock (ticks st) - fetched_at) →
     upstream_calls out.2 = EvGetWeather city :: upstream_calls st
     ∧ ∀ payload,
         api_weather (trace (after_check st key)) city = UpOk payload →
         ∃ w, out.1 = Ok (Some w)
              ∧ w = format_current payload (clock (ticks (after_check st key)))
              ∧ cache (self out.2)
                = <[key := (w, clock (Nat.pred (ticks out.2)))]> (cache (self st)))
  ∧ (∀ data T,
       cache (self st) !! key = Some (data, T) →
       (clock (ticks st) = T + minutes 59 →
        out.1 = Ok (Some data) ∧ upstream_calls out.2 = upstream_calls st)
       ∧ (clock (ticks st) = T + minutes 61 →
          upstream_calls out.2 = EvGetWeather city :: upstream_calls st)).
Proof.
  intros key out Hkey. subst out. repeat split.
  - erewrite current_hit; eauto using fresh_entry_young.
  - erewrite current_hit; eauto using fresh_entry_young.
  - erewrite current_hit; eauto using fresh_entry_young.
  - apply current_miss_calls; auto using fresh_entry_old.
  - intros payload Hup. rewrite current_miss by auto using fresh_entry_old.
    fold key. rewrite Hup. eexists. repeat split.
  - erewrite current_hit; eauto.
    eapply fresh_entry_young; eauto. unfold cache_duration, minutes in *. lia.
  - erewrite current_hit; eauto.
    eapply fresh_entry_young; eauto. unfold cache_duration, minutes in *. lia.
  - intros Hclock. apply current_miss_calls; [assumption|].
    apply fresh_entry_old. right. eexists _, _. split; [eassumption|].
    unfold cache_duration, minutes in *. lia.
Qed.

End WeatherTheorems.

(** C10 at a service without key whose cache holds an entry five minutes
    old: the entry is not served. *)
Lemma no_key_returns_none_witness :
  let W := Sample.world_up (Weather.minutes 5) in
  let st := Sample.start Sample.svc_no_key in
  Weather.fresh_entry st "paris_current" = Some Sample.paris_cached
  ∧ Weather.get_current_weather (B := Sample.builtins) "Paris" st = (Ok None, st)
  ∧ Weather.get_forecast (B := Sample.builtins) "Paris" 3 st = (Ok None, st).
Proof.
  intros W st. split; [reflexivity|].
  apply (no_key_returns_none (B := Sample.builtins) (W := W) "Paris" 3 st).
  reflexivity.
Defined.

(** C8 with the upstream down and an empty cache. *)
Lemma lookups_never_raise_witness :
  let W := Sample.world_down 0 in
  let st := Sample.start (Sample.svc_empty (Some "k3y")) in
  (Weather.get_current_weather (B := Sample.builtins) "Paris" st).1 = Ok None
  ∧ (Weather.get_forecast (B := Sample.builtins) "Paris" 9 st).1 = Ok None.
Proof.
  intros W st.
  destruct (lookups_never_raise (B := Sample.builtins) (W := W) "Paris" 9 st)
    as (_ & _ & Hcur & Hfc).
  split.
  - apply Hcur; reflexivity.
  - apply Hfc; reflexivity.
Defined.

(** C9, as stated, fails for a service without API key: there is no entry
    for the key, and still no request goes upstream. *)
Lemma no_key_miss_makes_no_call :
  let W := Sample.world_up 0 in
  let st := Sample.start (Sample.svc_empty None) in
  let out := Weather.get_current_weather (B := Sample.builtins) "Paris" st in
  Weather.cache (Weather.self st) !! Weather._get_cache_key (B := Sample.builtins) "Paris" "current"
  = None
  ∧ out.1 = Ok None
  ∧ Weather.upstream_calls out.2 = [].
Proof. repeat split. Qed.

(** C9 (amended) at an entry fetched at time 0, read 59 minutes later. *)
Lemma cache_ttl_witness :
  let W := Sample.world_up (Weather.minutes 59) in
  let st := Sample.start Sample.svc_paris in
  let out := Weather.get_current_weather (B := Sample.builtins) "  Paris " st in
  out.1 = Ok (Some Sample.paris_cached)
  ∧ Weather.upstream_calls out.2 = [].
Proof.
  intros W st out.
  destruct (cache_ttl (B := Sample.builtins) (W := W) "  Paris " st)
    as (_ & _ & H59); [reflexivity|].
  destruct (H59 Sample.paris_cached 0) as [Hserved _]; [reflexivity|].
  apply Hserved. reflexivity.
Defined.

(** ** The daily aggregation *)

Section Arithmetic.
Open Scope Q_scope.

Lemma Qlt_bool_iff (a b : Q) : PyNum.Qlt_bool a b = true ↔ a < b.
Proof.
  unfold PyNum.Qlt_bool. rewrite negb_true_iff.
  split.
  - intros Hb. apply Qnot_le_lt. intros Hle.
    apply Qle_bool_iff in Hle. congruence.
  - intros Hlt. destruct (Qle_bool b a) eqn:E; [|reflexivity].
    apply Qle_bool_iff in E. lra.
Qed.

Lemma Qlt_bool_false (a b : Q) : PyNum.Qlt_bool a b = false → b <= a.
Proof.
  unfold PyNum.Qlt_bool. rewrite negb_false_iff. apply Qle_bool_iff.
Qed.

(** [min] keeps an element of the list, below all the others. *)
Lemma min_from_spec (l : list Q) (x : Q) :
  Weather.is_minimum (PyNum.min_from x l) (x :: l).
Proof.
  unfold Weather.is_minimum, PyNum.min_from.
  revert x. induction l as [|y l IH]; intros x; simpl.
  - split; [by left|]. intros z [<-|[]]. lra.
  - destruct (PyNum.Qlt_bool y x) eqn:E.
    + apply Qlt_bool_iff in E. destruct (IH y) as [Hin Hle]. split.
      * simpl in Hin. tauto.
      * intros z [<-|Hz]; [|by apply Hle].
        specialize (Hle y (or_introl eq_refl)). lra.
    + apply Qlt_bool_false in E. destruct (IH x) as [Hin Hle]. split.
      * simpl in Hin. simpl. tauto.
      * intros z [<-|[<-|Hz]].
        -- apply Hle. by left.
        -- specialize (Hle x (or_introl eq_refl)). lra.
        -- apply Hle. by right.
Qed.

Lemma max_from_spec (l : list Q) (x : Q) :
  Weather.is_maximum (PyNum.max_from x l) (x :: l).
Proof.
  unfold Weather.is_maximum, PyNum.max_from.
  revert x. induction l as [|y l IH]; intros x; simpl.
  - split; [by left|]. intros z [<-|[]]. lra.
  - destruct (PyNum.Qlt_bool x y) eqn:E.
    + apply Qlt_bool_iff in E. destruct (IH y) as [Hin Hle]. split.
      * simpl in Hin. tauto.
      * intros z [<-|Hz]; [|by apply Hle].
        specialize (Hle y (or_introl eq_refl)). lra.
    + apply Qlt_bool_false in E. destruct (IH x) as [Hin Hle]. split.
      * simpl in Hin. simpl. tauto.
      * intros z [<-|[<-|Hz]].
        -- apply Hle. by left.
        -- specialize (Hle x (or_introl eq_refl)). lra.
        -- apply Hle. by right.
Qed.

Lemma round_int_spec (x : Q) : Weather.to_nearest_integer x (PyNum.round_int x).
Proof.
  unfold Weather.to_nearest_integer, PyNum.round_int.
  pose proof (Qfloor_le x) as Hlo. pose proof (Qlt_floor x) as Hhi.
  rewrite inject_Z_plus in Hhi. change (inject_Z 1) with 1 in Hhi.
  destruct (PyNum.Qlt_bool (x - inject_Z (Qfloor x)) (1 # 2)) eqn:E1.
  { apply Qlt_bool_iff in E1. lra. }
  apply Qlt_bool_false in E1.
  assert (Hup : x - (1 # 2) <= inject_Z (Qfloor x + 1) <= x + (1 # 2)).
  { rewrite inject_Z_plus. change (inject_Z 1) with 1. lra. }
  destruct (PyNum.Qlt_bool (1 # 2) (x - inject_Z (Qfloor x))) eqn:E2; [exact Hup|].
  apply Qlt_bool_false in E2.
  destruct (Z.even (Qfloor x)); [lra|exact Hup].
Qed.

Lemma round1_spec (x : Q) : Weather.to_1_decimal x (PyNum.round1 x).
Proof.
  unfold Weather.to_1_decimal, PyNum.round1.
  pose proof (round_int_spec (x * 10)) as Hr.
  unfold Weather.to_nearest_integer in Hr.
  set (k := PyNum.round_int (x * 10)) in *.
  split.
  - exists k. apply Qred_correct.
  - rewrite Qred_correct.
    assert (Hk : inject_Z k / 10 == inject_Z k * (1 # 10)) by (field; discriminate).
    rewrite Hk. lra.
Qed.

End Arithmetic.

(** *** Rounding to binary64 *)

Section Floats.
Import PyNum.
Open Scope Q_scope.

Lemma pow2_pos e : 0 < pow2 e.
Proof. apply Qpower_0_lt. reflexivity. Qed.

Lemma pow2_plus a b : pow2 (a + b) == pow2 a * pow2 b.
Proof. apply Qpower_plus. discriminate. Qed.

Lemma pow2_succ a : pow2 (a + 1) == 2 * pow2 a.
Proof. rewrite pow2_plus. change (pow2 1) with 2. ring. Qed.

Lemma pow2_le a b : (a <= b)%Z → pow2 a <= pow2 b.
Proof. intros. apply Qpower_le_compat_l; [assumption|reflexivity || discriminate]. Qed.

Lemma pow2_Z n : (0 <= n)%Z → pow2 n == inject_Z (2 ^ n).
Proof. intros. unfold pow2. rewrite Zpower_Qpower by assumption. reflexivity. Qed.

(** Every integer is at least as far from [t] as [round_int t] is. *)
Lemma round_int_nearest (t : Q) (k : Z) :
  Qabs (t - inject_Z (round_int t)) <= Qabs (t - inject_Z k).
Proof.
  pose proof (round_int_spec t) as Hr. unfold Weather.to_nearest_integer in Hr.
  set (m := round_int t) in *.
  destruct (Z.eq_dec k m) as [->|Hne]; [lra|].
  assert (Hk : inject_Z k <= inject_Z m - 1 ∨ inject_Z m + 1 <= inject_Z k).
  { destruct (Z_lt_le_dec k m) as [Hlt|Hge].
    - left. assert (inject_Z k <= inject_Z (m + -1)) as H by (rewrite <- Zle_Qle; lia).
      rewrite inject_Z_plus in H. change (inject_Z (-1)) with (-(1)) in H. lra.
    - right. assert (inject_Z (m + 1) <= inject_Z k) as H by (rewrite <- Zle_Qle; lia).
      rewrite inject_Z_plus in H. change (inject_Z 1) with 1 in H. lra. }
  apply Qabs_case; intros H1; apply Qabs_case; intros H2; lra.
Qed.

(** The binade of a positive number. *)
Lemma binade_spec (x : Q) :
  0 < x → pow2 (binade x) <= x ∧ x < pow2 (binade x + 1).
Proof.
  intros Hx. unfold binade.
  destruct x as [n d]. cbn [Qnum Qden].
  assert (Hn : (0 < n)%Z).
  { unfold Qlt in Hx. simpl in Hx. lia. }
  set (ln := Z.log2 n). set (ld := Z.log2 (Z.pos d)).
  destruct (Z.log2_spec n Hn) as [Hn1 Hn2]. fold ln in Hn1, Hn2.
  destruct (Z.log2_spec (Z.pos d) eq_refl) as [Hd1 Hd2]. fold ld in Hd1, Hd2.
  assert (Hln : (0 <= ln)%Z) by apply Z.log2_nonneg.
  assert (Hld : (0 <= ld)%Z) by apply Z.log2_nonneg.
  set (N := inject_Z n). set (D := inject_Z (Z.pos d)).
  assert (HxND : n # d == N / D).
  { unfold N, D. rewrite (Qmake_Qdiv n d). reflexivity. }
  assert (HD : 0 < D) by (unfold D; rewrite <- (Zlt_Qlt 0); lia).
  assert (HA : pow2 ln <= N ∧ N < 2 * pow2 ln).
  { rewrite <- pow2_succ, !pow2_Z by lia. unfold N.
    rewrite <- Zle_Qle, <- Zlt_Qlt. replace (ln + 1)%Z with (Z.succ ln) by lia. lia. }
  assert (HB : pow2 ld <= D ∧ D < 2 * pow2 ld).
  { rewrite <- pow2_succ, !pow2_Z by lia. unfold D.
    rewrite <- Zle_Qle, <- Zlt_Qlt. replace (ld + 1)%Z with (Z.succ ld) by lia. lia. }
  pose proof (pow2_pos ln) as HAp. pose proof (pow2_pos ld) as HBp.
  assert (Hl : pow2 (ln - ld) * pow2 ld == pow2 ln).
  { rewrite <- pow2_plus. replace (ln - ld + ld)%Z with ln by lia. reflexivity. }
  pose proof (pow2_pos (ln - ld)) as HLp.
  set (A := pow2 ln) in *. set (Bq := pow2 ld) in *. set (P := pow2 (ln - ld)) in *.
  assert (Hxlt : N / D < 2 * P).
  { apply Qlt_shift_div_r; [exact HD|]. nra. }
  assert (Hxge : P * (1 # 2) <= N / D).
  { apply Qle_shift_div_l; [exact HD|]. nra. }
  destruct (Qle_bool P (n # d)) eqn:E.
  - apply Qle_bool_iff in E. split; [exact E|].
    rewrite pow2_succ. fold P. rewrite HxND. exact Hxlt.
  - assert (Hlt : n # d < P).
    { apply Qnot_le_lt. intros Hle. apply Qle_bool_iff in Hle. congruence. }
    replace (ln - ld - 1 + 1)%Z with (ln - ld)%Z by lia. fold P.
    split; [|exact Hlt].
    assert (Hh : pow2 (ln - ld - 1) == P * (1 # 2)).
    { assert (H2 : 2 * pow2 (ln - ld - 1) == P).
      { rewrite <- pow2_succ. unfold P. replace (ln - ld - 1 + 1)%Z with (ln - ld)%Z by lia.
        reflexivity. }
      lra. }
    rewrite Hh, HxND. exact Hxge.
Qed.

Lemma Qle_bool_comp (a b c d : Q) : a == c → b == d → Qle_bool a b = Qle_bool c d.
Proof.
  intros Hac Hbd.
  destruct (Qle_bool a b) eqn:E1, (Qle_bool c d) eqn:E2; try reflexivity.
  - apply Qle_bool_iff in E1. rewrite Hac, Hbd in E1. apply Qle_bool_iff in E1. congruence.
  - apply Qle_bool_iff in E2. rewrite <- Hac, <- Hbd in E2. apply Qle_bool_iff in E2.
    congruence.
Qed.

Lemma round_int_comp (x y : Q) : x == y → round_int x = round_int y.
Proof.
  intros H. unfold round_int. cbv zeta. rewrite (Qfloor_comp _ _ H).
  unfold Qlt_bool.
  rewrite (Qle_bool_comp (1 # 2) (x - inject_Z (Qfloor y)) (1 # 2) (y - inject_Z (Qfloor y)))
    by (rewrite ?H; reflexivity).
  rewrite (Qle_bool_comp (x - inject_Z (Qfloor y)) (1 # 2) (y - inject_Z (Qfloor y)) (1 # 2))
    by (rewrite ?H; reflexivity).
  reflexivity.
Qed.

Lemma binary64_comp (x y : Q) : x == y → binary64 x = binary64 y.
Proof. intros H. unfold binary64. by rewrite (Qred_complete _ _ H). Qed.

Lemma binary64_0 (x : Q) : x == 0 → binary64 x = 0.
Proof. intros H. rewrite (binary64_comp _ _ H). reflexivity. Qed.

(** Away from 0, the result is the multiple of 2^e nearest to [x]. *)
Lemma binary64_grid (x : Q) :
  ¬ x == 0 →
  let e := Z.max (binade (Qabs (Qred x)) - 52) (-1074) in
  binary64 x == inject_Z (round_int (x / pow2 e)) * pow2 e
  ∧ ∀ k : Z, Qabs (x - binary64 x) <= Qabs (x - inject_Z k * pow2 e).
Proof.
  intros Hx e.
  assert (Hy : binary64 x == inject_Z (round_int (x / pow2 e)) * pow2 e).
  { unfold binary64. cbv zeta.
    destruct (Qeq_bool (Qred x) 0) eqn:E.
    { apply Qeq_bool_iff in E. rewrite Qred_correct in E. contradiction. }
    fold e. rewrite Qred_correct.
    assert (Hr : round_int (Qred x / pow2 e) = round_int (x / pow2 e)).
    { apply round_int_comp. by rewrite Qred_correct. }
    by rewrite Hr. }
  split; [exact Hy|]. intros k. rewrite Hy.
  pose proof (pow2_pos e) as Hp.
  set (t := x / pow2 e).
  assert (Hxt : x == t * pow2 e) by (unfold t; field; lra).
  assert (Hd : ∀ j : Z, Qabs (x - inject_Z j * pow2 e)
                        == Qabs (t - inject_Z j) * pow2 e).
  { intros j. rewrite <- (Qabs_pos (pow2 e)) at 2 by lra.
    rewrite <- Qabs_Qmult. apply Qabs_wd. rewrite Hxt at 1. ring. }
  rewrite !Hd. apply Qmult_le_compat_r; [|lra].
  apply round_int_nearest.
Qed.

Lemma Qabs_inject_Z_le (m n : Z) :
  (Z.abs m <= n)%Z → Qabs (inject_Z m) <= inject_Z n.
Proof.
  intros H. apply Qabs_Qle_condition. rewrite <- inject_Z_opp, <- !Zle_Qle. lia.
Qed.

(** Floats with any exponent above -1074: the numbers among which
    [binary64] rounds. *)
Lemma binary64_nearest (x : Q) (m e : Z) :
  (Z.abs m <= 2 ^ 53)%Z → (-1074 <= e)%Z →
  Qabs (x - binary64 x) <= Qabs (x - inject_Z m * pow2 e).
Proof.
  intros Hm He.
  destruct (Qeq_dec x 0) as [H0|Hx].
  { rewrite (binary64_0 _ H0).
    assert (Hq : x - 0 == 0) by lra. rewrite Hq. apply Qabs_nonneg. }
  destruct (binary64_grid x Hx) as [Hy Hgrid].
  set (e0 := Z.max (binade (Qabs (Qred x)) - 52) (-1074)) in *.
  destruct (Z_le_gt_dec e0 e) as [Hge|Hlt].
  - (* a coarser grid *)
    specialize (Hgrid (m * 2 ^ (e - e0))%Z).
    assert (Hz : inject_Z (m * 2 ^ (e - e0)) * pow2 e0 == inject_Z m * pow2 e).
    { rewrite inject_Z_mult, <- pow2_Z by lia.
      rewrite <- Qmult_assoc, <- pow2_plus.
      replace (e - e0 + e0)%Z with e by lia. reflexivity. }
    by rewrite Hz in Hgrid.
  - (* a smaller number *)
    assert (He0 : e0 = (binade (Qabs (Qred x)) - 52)%Z) by lia.
    pose proof (pow2_pos e) as Hpe. pose proof (pow2_pos e0) as Hpe0.
    assert (Hax : ¬ Qabs (Qred x) == 0).
    { intros H. apply Hx.
      assert (Hq : Qabs (Qred x) == Qabs x) by apply Qabs_wd, Qred_correct.
      rewrite Hq in H. revert H. apply Qabs_case; intros; lra. }
    assert (Hpos : 0 < Qabs (Qred x)).
    { pose proof (Qabs_nonneg (Qred x)). lra. }
    destruct (binade_spec _ Hpos) as [Hlo _].
    assert (Hq : Qabs (Qred x) == Qabs x) by apply Qabs_wd, Qred_correct.
    set (P := pow2 (e0 + 52)).
    assert (HP : P <= Qabs x).
    { unfold P. rewrite He0.
      replace (binade (Qabs (Qred x)) - 52 + 52)%Z with (binade (Qabs (Qred x))) by lia.
      rewrite <- Hq. exact Hlo. }
    assert (HPk : P == inject_Z (2 ^ 52) * pow2 e0).
    { unfold P. rewrite Z.add_comm, pow2_plus, pow2_Z by lia. reflexivity. }
    assert (Hz : Qabs (inject_Z m * pow2 e) <= P).
    { rewrite Qabs_Qmult, (Qabs_pos (pow2 e)) by lra.
      pose proof (Qabs_inject_Z_le m _ Hm) as Hm'.
      pose proof (Qabs_nonneg (inject_Z m)) as Hm0.
      assert (Hee : pow2 e <= pow2 (e0 - 1)) by (apply pow2_le; lia).
      assert (HPe : P == inject_Z (2 ^ 53) * pow2 (e0 - 1)).
      { unfold P. replace (e0 + 52)%Z with (53 + (e0 - 1))%Z by lia.
        rewrite pow2_plus, pow2_Z by lia. reflexivity. }
      rewrite HPe.
      pose proof (pow2_pos (e0 - 1)).
      assert (0 < inject_Z (2 ^ 53)) by reflexivity.
      nra. }
    set (z := inject_Z m * pow2 e) in *.
    apply Qabs_Qle_condition in Hz.
    destruct (Qlt_le_dec x 0) as [Hneg|Hnn].
    + rewrite (Qabs_neg x) in HP by lra.
      specialize (Hgrid (- 2 ^ 52)%Z).
      rewrite inject_Z_opp in Hgrid.
      assert (Hb : x - - inject_Z (2 ^ 52) * pow2 e0 == x + P) by (rewrite HPk; ring).
      rewrite Hb in Hgrid.
      eapply Qle_trans; [exact Hgrid|].
      apply Qabs_case; intros; apply Qabs_case; intros; lra.
    + rewrite (Qabs_pos x) in HP by lra.
      specialize (Hgrid (2 ^ 52)%Z).
      assert (Hb : x - inject_Z (2 ^ 52) * pow2 e0 == x - P) by (rewrite HPk; ring).
      rewrite Hb in Hgrid.
      eapply Qle_trans; [exact Hgrid|].
      apply Qabs_case; intros; apply Qabs_case; intros; lra.
Qed.

(** A float is its own rounding. *)
Lemma binary64_fixed (x : Q) : is_binary64 x → binary64 x == x.
Proof.
  intros (m & e & Hm & He & Hx).
  pose proof (binary64_nearest x m e ltac:(lia) ltac:(lia)) as H.
  rewrite <- Hx in H.
  assert (Hq : x - x == 0) by ring. rewrite Hq in H. change (Qabs 0) with 0 in H.
  revert H. apply Qabs_case; intros; lra.
Qed.

Lemma max_float_lt : max_float < pow2 1024.
Proof. reflexivity. Qed.

(** The rounding of a number in range is a float. *)
Lemma binary64_is (x : Q) : in_range x → is_binary64 (binary64 x).
Proof.
  intros Hrange. unfold in_range in Hrange.
  destruct (Qeq_dec x 0) as [H0|Hx].
  { rewrite (binary64_0 _ H0). exists 0%Z, 0%Z. repeat split; try lia. }
  destruct (binary64_grid x Hx) as [Hy _].
  set (e := Z.max (binade (Qabs (Qred x)) - 52) (-1074)) in *.
  set (b := binade (Qabs (Qred x))) in *.
  assert (Hq : Qabs (Qred x) == Qabs x) by apply Qabs_wd, Qred_correct.
  assert (Hpos : 0 < Qabs (Qred x)).
  { rewrite Hq. pose proof (Qabs_nonneg x).
    assert (¬ Qabs x == 0); [|lra].
    intros H0. apply Hx. revert H0. apply Qabs_case; intros; lra. }
  destruct (binade_spec _ Hpos) as [Hlo Hhi]. fold b in Hlo, Hhi.
  rewrite Hq in Hlo, Hhi.
  pose proof (pow2_pos e) as Hpe.
  assert (Hb : (b < 1024)%Z).
  { apply (Qpower_lt_compat_l_inv 2); [|reflexivity].
    change (pow2 b < pow2 1024). pose proof max_float_lt. lra. }
  assert (He : (-1074 <= e <= 971)%Z) by lia.
  set (t := x / pow2 e) in *.
  assert (Hxt : x == t * pow2 e) by (unfold t; field; lra).
  assert (Habs : Qabs x == Qabs t * pow2 e).
  { rewrite <- (Qabs_pos (pow2 e)) at 1 by lra. rewrite <- Qabs_Qmult.
    by apply Qabs_wd. }
  pose proof (round_int_spec t) as Hm. unfold Weather.to_nearest_integer in Hm.
  set (m := round_int t) in *.
  assert (Ht : Qabs t < inject_Z (2 ^ 53)).
  { assert (Hle : pow2 (b + 1) <= pow2 (53 + e)) by (apply pow2_le; lia).
    assert (H53 : pow2 (53 + e) == inject_Z (2 ^ 53) * pow2 e).
    { rewrite (pow2_plus 53 e), (pow2_Z 53) by lia. reflexivity. }
    rewrite H53 in Hle.
    assert (Hlt : Qabs t * pow2 e < inject_Z (2 ^ 53) * pow2 e) by lra.
    apply Qnot_le_lt. intros Hge.
    assert (inject_Z (2 ^ 53) * pow2 e <= Qabs t * pow2 e); [|lra].
    apply Qmult_le_compat_r; lra. }
  assert (Hm53 : (Z.abs m <= 2 ^ 53)%Z).
  { apply Qabs_Qlt_condition in Ht.
    assert (inject_Z m < inject_Z (2 ^ 53 + 1) ∧ inject_Z (- 2 ^ 53 - 1) < inject_Z m)
      as [H1 H2].
    { change (inject_Z (2 ^ 53 + 1)) with (inject_Z (2 ^ 53) + 1).
      change (inject_Z (- 2 ^ 53 - 1)) with (- inject_Z (2 ^ 53) - 1). lra. }
    rewrite <- Zlt_Qlt in H1, H2. lia. }
  destruct (Z.eq_dec e 971%Z) as [He971|Hne].
  - exists m, e. split; [|split; [lia|exact Hy]].
    assert (Ht' : Qabs t <= inject_Z (2 ^ 53 - 1)).
    { apply Qnot_lt_le. intros Hgt.
      assert (inject_Z (2 ^ 53 - 1) * pow2 e < Qabs t * pow2 e).
      { apply Qmult_lt_compat_r; lra. }
      unfold max_float in Hrange. rewrite He971 in *. lra. }
    apply Qabs_Qle_condition in Ht'.
    assert (inject_Z m < inject_Z (2 ^ 53) ∧ inject_Z (- 2 ^ 53) < inject_Z m)
      as [H1 H2].
    { change (inject_Z (2 ^ 53 - 1)) with (inject_Z (2 ^ 53) - 1) in Ht'.
      change (inject_Z (- 2 ^ 53)) with (- inject_Z (2 ^ 53)). lra. }
    rewrite <- Zlt_Qlt in H1, H2. lia.
  - destruct (Z_lt_le_dec (Z.abs m) (2 ^ 53)) as [Hlt|Hge].
    + exists m, e. split; [exact Hlt|]. split; [lia|exact Hy].
    + assert (Hm2 : m = (2 * (m / 2))%Z ∧ (Z.abs (m / 2) < 2 ^ 53)%Z).
      { assert (m = 2 ^ 53 ∨ m = - 2 ^ 53)%Z as [-> | ->] by lia; split; reflexivity. }
      destruct Hm2 as [Hm2 Hm2'].
      exists (m / 2)%Z, (e + 1)%Z. split; [exact Hm2'|]. split; [lia|].
      rewrite Hy, pow2_succ. rewrite Hm2 at 1. rewrite inject_Z_mult.
      change (inject_Z 2) with 2. ring.
Qed.

Lemma binary64_spec (x : Q) : in_range x → to_binary64 x (binary64 x).
Proof.
  intros Hx. split; [by apply binary64_is|].
  intros z (m & e & Hm & He & Hz). rewrite Hz.
  apply binary64_nearest; lia.
Qed.

Lemma is_binary64_comp (x y : Q) : x == y → is_binary64 x → is_binary64 y.
Proof. intros H (m & e & ? & ? & Hx). exists m, e. by rewrite <- H. Qed.

Lemma is_binary64_opp (x : Q) : is_binary64 x → is_binary64 (- x).
Proof.
  intros (m & e & ? & ? & Hx). exists (- m)%Z, e.
  split; [lia|]. split; [lia|]. rewrite Hx, inject_Z_opp. ring.
Qed.

Lemma is_binary64_0 : is_binary64 0.
Proof. exists 0%Z, 0%Z. repeat split; lia. Qed.

(** Adding from left to right is exact when every sum on the way is a
    float. *)
Lemma sum_left_from (l : list Q) (s s' : Q) :
  s' == s → Forall is_binary64 (running_sums s l) →
  fold_left (λ s x, binary64 (s + x)) l s' == s + Weather.total l.
Proof.
  revert s s'. induction l as [|x l IH]; intros s s' Hs Hall; cbn [fold_left Weather.total foldr].
  - lra.
  - cbn [running_sums] in Hall. apply Forall_cons in Hall as [Hx Hall].
    rewrite (IH (s + x)); [fold (Weather.total l); lra| |exact Hall].
    rewrite (binary64_comp (s' + x) (s + x)) by lra.
    by apply binary64_fixed.
Qed.

Lemma sum_left_exact (l : list Q) : exactly_summable l → sum_left l == Weather.total l.
Proof.
  intros H. unfold sum_left. rewrite (sum_left_from l 0 0); [lra|reflexivity|exact H].
Qed.

(** So is the compensated sum: nothing is left to compensate. *)
Lemma sum_compensated_from (l : list Q) (s f c : Q) :
  f == s → c == 0 → is_binary64 s →
  Forall is_binary64 l → Forall is_binary64 (running_sums s l) →
  (fold_left neumaier_step l (f, c)).1 == s + Weather.total l
  ∧ (fold_left neumaier_step l (f, c)).2 == 0.
Proof.
  revert s f c. induction l as [|x l IH]; intros s f c Hf Hc Hs Hl Hall;
    cbn [fold_left Weather.total foldr].
  - cbn [fst snd]. split; [lra|exact Hc].
  - cbn [running_sums] in Hall. apply Forall_cons in Hall as [Hsx Hall].
    apply Forall_cons in Hl as [Hx Hl].
    assert (Ht : binary64 (f + x) == s + x).
    { rewrite (binary64_comp (f + x) (s + x)) by lra. by apply binary64_fixed. }
    unfold neumaier_step at 2. cbv zeta.
    destruct (IH (s + x) (binary64 (f + x))
                (if Qle_bool (Qabs x) (Qabs f)
                 then binary64 (c + binary64 (binary64 (f - binary64 (f + x)) + x))
                 else binary64 (c + binary64 (binary64 (x - binary64 (f + x)) + f))))
      as [IH1 IH2]; try assumption.
    + destruct (Qle_bool (Qabs x) (Qabs f)).
      * rewrite (binary64_comp (f - binary64 (f + x)) (- x)) by lra.
        rewrite (binary64_comp (binary64 (- x) + x) 0)
          by (rewrite (binary64_fixed (- x)) by (by apply is_binary64_opp); lra).
        rewrite (binary64_0 (c + binary64 0)); [reflexivity|].
        change (binary64 0) with 0. lra.
      * rewrite (binary64_comp (x - binary64 (f + x)) (- s)) by lra.
        rewrite (binary64_comp (binary64 (- s) + f) 0)
          by (rewrite (binary64_fixed (- s)) by (by apply is_binary64_opp); lra).
        rewrite (binary64_0 (c + binary64 0)); [reflexivity|].
        change (binary64 0) with 0. lra.
    + split; [|exact IH2]. rewrite IH1. fold (Weather.total l). lra.
Qed.

Lemma sum_compensated_exact (l : list Q) :
  Forall is_binary64 l → exactly_summable l → sum_compensated l == Weather.total l.
Proof.
  intros Hl H. unfold sum_compensated.
  destruct (sum_compensated_from l 0 0 0) as [H1 H2];
    [reflexivity|reflexivity|apply is_binary64_0|exact Hl|exact H|].
  destruct (fold_left neumaier_step l (0, 0)) as [f c]. cbn [fst snd] in H1, H2.
  apply Qeq_bool_iff in H2. rewrite H2. lra.
Qed.

Lemma in_range_div (s : Q) (n : nat) :
  in_range s → (1 ≤ n)%nat → in_range (s / inject_Z (Z.of_nat n)).
Proof.
  unfold in_range. intros Hs Hn.
  assert (HN : 1 <= inject_Z (Z.of_nat n)).
  { change 1 with (inject_Z 1). rewrite <- Zle_Qle. lia. }
  set (N := inject_Z (Z.of_nat n)) in *.
  assert (Hq : Qabs (s / N) == Qabs s / N).
  { unfold Qdiv. rewrite Qabs_Qmult. rewrite (Qabs_pos (/ N)); [reflexivity|].
    apply Qinv_le_0_compat. lra. }
  rewrite Hq. pose proof (Qabs_nonneg s).
  apply Qle_shift_div_r; [lra|]. nra.
Qed.
End Floats.

Section Aggregation.
Import Weather.
Context {B : Builtins}.

(** [max(..., key=...)] returns an element whose key no other exceeds. *)
Lemma max_by_from_spec {A} (key : A → nat) (l : list A) (x : A) :
  In (max_by_from key x l) (x :: l)
  ∧ ∀ y, In y (x :: l) → (key y ≤ key (max_by_from key x l))%nat.
Proof.
  unfold max_by_from. revert x. induction l as [|z l IH]; intros x; simpl.
  - split; [by left|]. intros y [<-|[]]. lia.
  - destruct (Nat.ltb_spec (key x) (key z)) as [Hlt|Hge].
    + destruct (IH z) as [Hin Hmax]. split; [simpl in Hin; tauto|].
      intros y [<-|Hy]; [|by apply Hmax].
      specialize (Hmax z (or_introl eq_refl)). lia.
    + destruct (IH x) as [Hin Hmax]. split; [simpl in Hin; simpl; tauto|].
      intros y [<-|[<-|Hy]].
      * apply Hmax. by left.
      * specialize (Hmax x (or_introl eq_refl)). lia.
      * apply Hmax. by right.
Qed.

(** The description chosen is a most frequent one, whatever the order in
    which the set hands out its elements. *)
Lemma chosen_description_spec (descriptions : list string) (d0 : string) :
  In d0 descriptions →
  (∀ s, In s (set_iter descriptions) ↔ In s descriptions) →
  most_frequent
    (match set_iter descriptions with
     | d :: ds => max_by_from (count descriptions) d ds
     | [] => EmptyString
     end) descriptions.
Proof.
  intros Hd0 Hset. destruct (set_iter descriptions) as [|d ds] eqn:E.
  - apply Hset in Hd0. destruct Hd0.
  - destruct (max_by_from_spec (count descriptions) ds d) as [Hin Hmax].
    split.
    + by apply Hset.
    + intros s' Hs'. apply Hmax. by apply Hset.
Qed.

Lemma middle_reading (first : Reading) (others : list Reading) :
  (first :: others) !! (length (first :: others) / 2)%nat
  = Some (nth (length (first :: others) / 2) (first :: others) first).
Proof.
  set (run := first :: others).
  assert (Hlt : (length run / 2 < length run)%nat).
  { apply Nat.div_lt; simpl; lia. }
  destruct (lookup_lt_is_Some_2 run _ Hlt) as [mid Hmid].
  rewrite Hmid. f_equal. symmetry.
  rewrite nth_lookup, Hmid. reflexivity.
Qed.

(** The mean as the code computes it. *)
Lemma in_range_comp (x y : Q) : (x == y)%Q → PyNum.in_range x → PyNum.in_range y.
Proof. unfold PyNum.in_range. intros H. by rewrite (Qabs_wd _ _ H). Qed.

Lemma float_mean_spec (l : list Q) :
  exact_sums → PyNum.in_range (float_sum l) → (1 ≤ length l)%nat →
  is_float_mean (PyNum.mean l) l.
Proof.
  intros Hsum Hrange Hlen. unfold is_float_mean, PyNum.mean, PyNum.div.
  pose proof (in_range_div _ _ Hrange Hlen) as Hq.
  split; [by apply binary64_spec|].
  intros Hl Hexact. specialize (Hsum l Hl Hexact).
  exists (total l / inject_Z (Z.of_nat (length l)))%Q.
  split; [unfold is_mean; reflexivity|].
  assert (Heq : (float_sum l / inject_Z (Z.of_nat (length l))
                 == total l / inject_Z (Z.of_nat (length l)))%Q)
    by (by rewrite Hsum).
  rewrite (binary64_comp _ _ Heq).
  apply binary64_spec. by apply (in_range_comp _ _ Heq).
Qed.

(** Whole numbers below 2^53 are floats. *)
Lemma is_binary64_int (q : Q) :
  Qden (Qred q) = 1%positive → Z.abs (Qnum (Qred q)) < 2 ^ 53 →
  PyNum.is_binary64 q.
Proof.
  intros Hden Hnum. exists (Qnum (Qred q)), 0. split; [exact Hnum|].
  split; [lia|]. rewrite <- (Qred_correct q) at 1.
  destruct (Qred q) as [n d]. cbn [Qnum Qden] in *. subst d.
  change (PyNum.pow2 0) with 1%Q. unfold inject_Z. ring.
Qed.

End Aggregation.

(** C7, as stated, fails on a tie between descriptions: the code takes the
    first most frequent element in the iteration order of a set, which need
    not be the order of the readings, and capitalises it. With the readings
    "rain", "clear" and a set that hands out "clear" first, the summary says
    "Clear", though "rain" is the first most frequent description of the
    run; with a set that hands out "rain" first it says "Rain". *)
Lemma description_tie_follows_set_order :
  let descriptions := map Weather.r_description Sample.day_of_two in
  (∀ s, In s (set_iter (Builtins := Sample.builtins_rev) descriptions)
        ↔ In s descriptions)
  ∧ Weather.first_most_frequent descriptions = "rain"
  ∧ Weather.d_description
      <$> Weather._aggregate_day_forecast (B := Sample.builtins_rev) Sample.day_of_two
    = Some "Clear"
  ∧ Weather.d_description
      <$> Weather._aggregate_day_forecast (B := Sample.builtins) Sample.day_of_two
    = Some "Rain".
Proof.
  repeat split; simpl in *; tauto.
Qed.

(** Both ways in which CPython adds floats are exact when no addition has
    to round. *)
Lemma interpreter_sums_are_exact :
  Weather.exact_sums (B := Sample.builtins)
  ∧ Weather.exact_sums (B := Sample.builtins_compensated).
Proof.
  split; intros l Hl Hexact.
  - by apply sum_left_exact.
  - by apply sum_compensated_exact.
Qed.

(** The floats 0.05 and 0.25 have a sum that is not a float, and a mean
    just above 0.15; the code gets the float below 0.15 for it, and 0.1 for
    [temp_avg], whichever way the interpreter adds, where the mean rounded
    to one decimal is 0.2. The float 0.065 times 100 is a little above 6.5;
    the code gets the float 6.5, and 6 for [pop]. *)
Example aggregation_rounds_in_binary64 :
  let temps := map Weather.r_temp Sample.day_of_floats in
  let summary (B : Builtins) := Weather._aggregate_day_forecast Sample.day_of_floats in
  Weather.d_temp_avg <$> summary Sample.builtins = Some (1 # 10)%Q
  ∧ Weather.d_temp_avg <$> summary Sample.builtins_compensated = Some (1 # 10)%Q
  ∧ (Weather.to_1_decimal (Weather.total temps / 2) (2 # 10))%Q
  ∧ ¬ (Weather.to_1_decimal (Weather.total temps / 2) (1 # 10))%Q
  ∧ Weather.d_pop <$> summary Sample.builtins = Some 6
  ∧ (PyNum.mul Sample.float_0_065 100 == 65 # 10)%Q
  ∧ ¬ Weather.to_nearest_integer (Sample.float_0_065 * 100) 6.
Proof.
  cbv zeta. split; [vm_compute; reflexivity|]. split; [vm_compute; reflexivity|].
  split; [|split; [|split; [vm_compute; reflexivity|split; [vm_compute; reflexivity|]]]].
  - split; [exists 2; vm_compute; reflexivity|].
    split; vm_compute; intros H; discriminate H.
  - intros [_ [H _]]. vm_compute in H. by apply H.
  - intros [H _]. vm_compute in H. by apply H.
Qed.

(** The two ways of adding floats differ, on 0.1, 0.2 and 0.3 already:
    the compensated sum is the float 0.6, the sum from left to right the
    next float. These three cannot be added without rounding. *)
Example sums_of_the_interpreters :
  let l := [Sample.float_0_1; Sample.float_0_2; Sample.float_0_3] in
  ¬ (PyNum.sum_left l == PyNum.sum_compensated l)%Q
  ∧ (PyNum.sum_compensated l == PyNum.binary64 (6 # 10))%Q
  ∧ ¬ PyNum.exactly_summable l.
Proof.
  cbv zeta. split; [|split].
  - vm_compute. intros H. discriminate H.
  - vm_compute. reflexivity.
  - intros H. unfold PyNum.exactly_summable in H. cbn [PyNum.running_sums] in H.
    apply Forall_cons in H as [_ H]. apply Forall_cons in H as [H _].
    apply binary64_fixed in H. vm_compute in H. discriminate H.
Qed.

(** C7 (amended). For every non-empty run of readings of one date of
    which no sum leaves the range of the floats, the aggregation returns a
    summary in which: [temp_min] and [temp_max] are the minimum and the
    maximum of the run's temperatures, rounded to one decimal; [temp_avg]
    is the mean as Python computes it in binary64, the quotient of
    [sum(temps)] by the number of readings rounded to the nearest float,
    rounded to one decimal: this is the float nearest to the mean whenever
    the temperatures can be added from left to right without rounding, and
    need not be the mean rounded to one decimal otherwise; the description
    is a most frequent description of the run, capitalised (which one, on a
    tie, is decided by the iteration order of a set of strings, not by the
    order of the readings); the icon is that of the reading in the middle
    of the run; the humidity is the mean humidity, computed in the same
    way, rounded to the nearest integer; the wind speed is the mean wind
    speed, computed in the same way, rounded to one decimal; the
    precipitation is the largest probability of the run (a missing one
    counting as 0) times 100, rounded to the nearest float and then to the
    nearest integer. For eight readings with temperatures 10, 12, 14, 16,
    18, 20, 18, 16 the summary has [temp_min] 10.0, [temp_max] 20.0 and
    [temp_avg] 15.5. *)
Theorem aggregate_day_forecast_summary {B : Builtins}
    (first : Weather.Reading) (others : list Weather.Reading) :
  let run := first :: others in
  let temps := map Weather.r_temp run in
  let descriptions := map Weather.r_description run in
  (∀ s, In s (set_iter descriptions) ↔ In s descriptions) →
  Weather.exact_sums →
  Weather.sums_in_range run →
  ∃ d, Weather._aggregate_day_forecast run = Some d
    ∧ (∃ m, Weather.is_minimum m temps ∧ Weather.to_1_decimal m (Weather.d_temp_min d))
    ∧ (∃ m, Weather.is_maximum m temps ∧ Weather.to_1_decimal m (Weather.d_temp_max d))
    ∧ (∃ a, Weather.is_float_mean a temps
            ∧ Weather.to_1_decimal a (Weather.d_temp_avg d))
    ∧ (∃ s, Weather.most_frequent s descriptions
            ∧ Weather.d_description d = str_capitalize s)
    ∧ (∃ mid, run !! (length run / 2)%nat = Some mid
              ∧ Weather.d_icon d = Weather.r_icon mid)
    ∧ (∃ a, Weather.is_float_mean a (map Weather.r_humidity run)
            ∧ Weather.to_nearest_integer a (Weather.d_humidity d))
    ∧ (∃ a, Weather.is_float_mean a (map Weather.r_wind_speed run)
            ∧ Weather.to_1_decimal a (Weather.d_wind_speed d))
    ∧ (∃ p q, Weather.is_maximum p (map Weather.pop_or_0 run)
              ∧ PyNum.to_binary64 (p * 100) q
              ∧ Weather.to_nearest_integer q (Weather.d_pop d))
    ∧ (temps = [10; 12; 14; 16; 18; 20; 18; 16]%Q →
       (Weather.d_temp_min d == 10
        ∧ Weather.d_temp_max d == 20
        ∧ Weather.d_temp_avg d == 15.5)%Q).
Proof.
  intros run temps descriptions Hset Hsum (Htemp & Hhum & Hwind & Hpop).
  assert (Hlen : ∀ {A} (f : Weather.Reading → A), (1 ≤ length (map f run))%nat).
  { intros A f. subst run. cbn [map length]. lia. }
  eexists. split; [reflexivity|]. cbn [Weather.d_temp_min Weather.d_temp_max
    Weather.d_temp_avg Weather.d_description Weather.d_icon Weather.d_humidity
    Weather.d_wind_speed Weather.d_pop].
  repeat apply conj.
  - eexists. split; [apply min_from_spec|apply round1_spec].
  - eexists. split; [apply max_from_spec|apply round1_spec].
  - eexists. split; [apply float_mean_spec; [exact Hsum|exact Htemp|apply Hlen]|].
    apply round1_spec.
  - eexists. split; [|reflexivity].
    apply (chosen_description_spec descriptions (Weather.r_description first));
      [by left|exact Hset].
  - eexists. split; [apply middle_reading|reflexivity].
  - eexists. split; [apply float_mean_spec; [exact Hsum|exact Hhum|apply Hlen]|].
    apply round_int_spec.
  - eexists. split; [apply float_mean_spec; [exact Hsum|exact Hwind|apply Hlen]|].
    apply round1_spec.
  - pose proof (max_from_spec (map Weather.pop_or_0 others) (Weather.pop_or_0 first))
      as Hmax.
    eexists _, _. split; [exact Hmax|]. split; [|apply round_int_spec].
    apply binary64_spec. destruct Hmax as [Hin _].
    rewrite Forall_forall in Hpop. apply Hpop. by apply list_elem_of_In.
  - intros Htemps.
    assert (Hs : (float_sum temps == 124)%Q).
    { eapply Qeq_trans; [apply Hsum|rewrite Htemps; reflexivity].
      - rewrite Htemps. repeat constructor; by apply is_binary64_int.
      - rewrite Htemps. unfold PyNum.exactly_summable. cbn [PyNum.running_sums].
        repeat constructor; by apply is_binary64_int. }
    assert (Havg : PyNum.mean temps = PyNum.binary64 (124 / 8)%Q).
    { unfold PyNum.mean, PyNum.div. apply binary64_comp.
      rewrite Hs, Htemps. reflexivity. }
    unfold temps in Havg. rewrite Havg. subst temps run.
    simpl in Htemps. injection Htemps as -> ->.
    repeat split; vm_compute; reflexivity.
Qed.

(** C7 (amended) on eight readings of one day, with the sum of CPython
    3.11. *)
Lemma aggregate_day_forecast_summary_witness :
  ∃ d, Weather._aggregate_day_forecast (B := Sample.builtins) Sample.day_of_eight = Some d
       ∧ (Weather.d_temp_min d == 10)%Q
       ∧ (Weather.d_temp_max d == 20)%Q
       ∧ (Weather.d_temp_avg d == 15.5)%Q.
Proof.
  destruct (aggregate_day_forecast_summary (B := Sample.builtins)
              (Sample.reading 0 10 "clear sky") (tl Sample.day_of_eight))
    as (d & Hd & _ & _ & _ & _ & _ & _ & _ & _ & Htemps).
  { intros s. simpl. tauto. }
  { intros l _ Hl. apply sum_left_exact, Hl. }
  { split; [vm_compute; intros H; discriminate H|].
    split; [vm_compute; intros H; discriminate H|].
    split; [vm_compute; intros H; discriminate H|].
    repeat (apply Forall_cons; split; [vm_compute; intros H; discriminate H|]).
    constructor. }
  exists d. split; [exact Hd|].
  destruct Htemps as (Hmin & Hmax & Havg); [reflexivity|].
  repeat split; assumption.
Defined.

(** ** The suggestion pipeline *)

Section MonadFacts.
Context {S : Type}.

Lemma bind_run {A C} (m : M S A) (f : A → M S C) (st : S) :
  (m ≫= f) st
  = match m st with
    | (Ok a, st') => f a st'
    | (Raise e, st') => (Raise e, st')
    end.
Proof. reflexivity. Qed.

Lemma try_except_run {A} (body : M S A) (handler : exn → M S A) (st : S) :
  try_except body handler st
  = match body st with
    | (Ok a, st') => (Ok a, st')
    | (Raise e, st') => handler e st'
    end.
Proof. reflexivity. Qed.

End MonadFacts.

Section StoreFacts.
Import Suggestions.
Context {B : Builtins} {L : Library} {W : World}.

Implicit Types (st : state) (query : gmap string value).

Lemma log_run (e : event) st : log e st = (Ok tt, logged e st).
Proof. reflexivity. Qed.

Lemma matches_empty (d : gmap string value) : matches ∅ d = true.
Proof. unfold matches. rewrite map_to_list_empty. reflexivity. Qed.

Lemma matching_empty_query st : matching ∅ st = db st.
Proof.
  unfold matching. induction (db st) as [|d l IH]; simpl; [reflexivity|].
  rewrite matches_empty. by f_equal.
Qed.

Lemma count_documents_run query st :
  count_documents query st
  = (Ok (Z.of_nat (length (matching query st))), logged (EvCount query) st).
Proof. reflexivity. Qed.

Lemma find_run query (skip limit : Z) st :
  find query skip limit st
  = (Ok (page_of query skip limit st), logged (EvFind query skip limit) st).
Proof. reflexivity. Qed.

Lemma page_of_length query (skip limit : Z) st :
  (length (page_of query skip limit st) ≤ Z.to_nat limit)%nat.
Proof. unfold page_of. rewrite length_take. lia. Qed.

Lemma insert_many_run (docs : list (gmap string value)) st :
  insert_many docs st
  = (Ok tt,
     {| db := db st ++ imap (λ i d, with_id (next_oid st + i) d) docs;
        next_oid := next_oid st + length docs;
        ticks := ticks st;
        trace := EvInsertMany (length docs) :: trace st |}).
Proof. reflexivity. Qed.

(** The store's identifier leaves every other field alone. *)
Lemma with_id_lookup (n : nat) (d : gmap string value) (k : string) :
  k ≠ "_id" → with_id n d !! k = d !! k.
Proof.
  intros Hk. unfold with_id. destruct (d !! "_id"); [reflexivity|].
  by rewrite lookup_insert_ne.
Qed.

Lemma with_id_stamped (n : nat) (f : bool) (d : gmap string value) :
  stamped_as f d → stamped_as f (with_id n d).
Proof.
  unfold stamped_as. rewrite !with_id_lookup by discriminate. tauto.
Qed.

Lemma with_id_keeps (n : nat) (d0 d : gmap string value) :
  keeps_content d0 d → keeps_content d0 (with_id n d).
Proof.
  intros Hkeep key Hkey. rewrite with_id_lookup; [by apply Hkeep|].
  rewrite !not_elem_of_cons in Hkey. intros ->. tauto.
Qed.

(** *** The stamping loop *)

(** The loop never fails, reads the clock twice for each record, and
    touches nothing else. *)
Lemma stamp_all_run (f : nat → bool) (l : list (gmap string value)) (i : nat) st :
  ∃ l', stamp_all f i l st
        = (Ok l', {| db := db st; next_oid := next_oid st;
                     ticks := ticks st + 2 * length l; trace := trace st |})
        ∧ length l' = length l
        ∧ ∀ k d, l' !! k = Some d →
                 stamped_as (f (i + k)%nat) d
                 ∧ ∃ d0, l !! k = Some d0 ∧ keeps_content d0 d.
Proof.
  revert i st. induction l as [|d l IH]; intros i st; simpl.
  - exists []. split; [|split; [reflexivity|]].
    + unfold mret, M_ret. destruct st; simpl. do 2 f_equal. lia.
    + intros k d Hk. by rewrite lookup_nil in Hk.
  - rewrite bind_run. unfold stamp at 1. rewrite !bind_run. simpl.
    set (st' := {| db := db st; next_oid := next_oid st;
                   ticks := Datatypes.S (Datatypes.S (ticks st)); trace := trace st |}).
    destruct (IH (Datatypes.S i) st') as (l' & Hrun & Hlen & Hst).
    rewrite bind_run, Hrun. eexists. split; [|split].
    + unfold mret, M_ret. simpl. do 3 f_equal. lia.
    + simpl. by rewrite Hlen.
    + intros [|k] d' Hk; simpl in Hk.
      * apply (inj Some) in Hk. subst d'. rewrite Nat.add_0_r. split.
        -- unfold stamped_as.
           repeat (rewrite lookup_insert_eq || rewrite lookup_insert_ne by discriminate).
           eauto.
        -- exists d. split; [reflexivity|]. intros key Hkey.
           rewrite !not_elem_of_cons in Hkey.
           rewrite !lookup_insert_ne by (intros <-; tauto). reflexivity.
      * replace (i + Datatypes.S k)%nat with (Datatypes.S i + k)%nat by lia.
        by apply Hst.
Qed.

End StoreFacts.

Section GeneratorFacts.
Import Suggestions.
Context {B : Builtins} {L : Library} {W : World}.

Implicit Types (st : state) (c b k : option string) (n : Z).

Lemma chat_completion_run (prompt : string) st :
  chat_completion prompt st
  = (match chat (trace st) prompt with
     | Completion content => Ok content
     | ChatError msg => Raise (Exception msg)
     end, logged (EvChat prompt) st).
Proof.
  unfold chat_completion. rewrite bind_run. simpl.
  destruct (chat (trace st) prompt); reflexivity.
Qed.

(** Going through the decoded value changes nothing, and fails, if it
    does, with a [TypeError]. *)
Lemma as_dicts_run (v : value) st :
  (∃ items, as_dicts v st = (Ok items, st))
  ∨ as_dicts v st = (Raise (Exception "TypeError"), st).
Proof.
  destruct v as [| | | |s|items|kvs| |]; simpl; eauto.
  - destruct s; eauto.
  - destruct (forallb _ items); eauto.
  - destruct kvs; eauto.
Qed.

(** One call of the generator, whatever comes of it, asks the model once,
    and changes neither the collection nor the clock. *)
Lemma generate_frame c b k n st :
  let out := generate_suggestions c b k n st in
  db out.2 = db st
  ∧ next_oid out.2 = next_oid st
  ∧ ticks out.2 = ticks st
  ∧ ∃ logs, trace out.2
            = logs ++ EvChat (build_prompt c b k n) :: EvGenerate c b k n :: trace st
            ∧ List.filter is_chat logs = [].
Proof.
  unfold generate_suggestions. rewrite bind_run, log_run, try_except_run.
  rewrite bind_run, chat_completion_run.
  destruct (chat _ _) as [raw|msg]; simpl.
  - rewrite bind_run. unfold loads.
    destruct (json_loads _) as [msg|v]; simpl.
    + repeat split. eexists [_; _]. split; reflexivity.
    + rewrite bind_run.
      destruct (as_dicts_run v
                  (logged (EvChat (build_prompt c b k n)) (logged (EvGenerate c b k n) st)))
        as [[items ->]| ->]; simpl.
      * repeat split. by exists [].
      * repeat split. eexists [_]. split; reflexivity.
  - repeat split. eexists [_]. split; reflexivity.
Qed.

(** A completion that is not JSON: the decoder's message is logged, the
    text is logged, and a [ValueError] with the decoder's message is raised;
    the model is not asked again. *)
Lemma generate_unparsable c b k n st (raw msg : string) :
  chat (EvGenerate c b k n :: trace st) (build_prompt c b k n) = Completion raw →
  json_loads (strip_code_fence (PyStr.strip raw)) = inl msg →
  generate_suggestions c b k n st
  = (Raise (ValueError ("AI returned invalid JSON: " +:+ msg)),
     logged (EvLogError ("Response content: " +:+ strip_code_fence (PyStr.strip raw)))
       (logged (EvLogError ("JSON parsing error: " +:+ msg))
          (logged (EvChat (build_prompt c b k n))
             (logged (EvGenerate c b k n) st)))).
Proof.
  intros Hchat Hjson.
  unfold generate_suggestions. rewrite bind_run, log_run, try_except_run.
  rewrite bind_run, chat_completion_run. simpl. rewrite Hchat.
  rewrite bind_run. unfold loads. rewrite Hjson. reflexivity.
Qed.

End GeneratorFacts.

Section ListingFacts.
Import Suggestions.
Context {B : Builtins} {L : Library} {W : World}.

Implicit Types (st : state) (req : Request) (query : gmap string value).

(** Stamping a batch and inserting it, in one step. *)
Lemma stamp_and_insert (f : nat → bool) (batch : list (gmap string value)) st :
  batch ≠ [] →
  ∃ new,
    (ai_suggestions ← stamp_all f 0 batch;
     match ai_suggestions with
     | [] => mret tt
     | _ => insert_many ai_suggestions
     end) st
    = (Ok tt, {| db := db st ++ new;
                 next_oid := next_oid st + length batch;
                 ticks := ticks st + 2 * length batch;
                 trace := EvInsertMany (length batch) :: trace st |})
    ∧ persisted_as f batch new.
Proof.
  intros Hne. destruct (stamp_all_run f batch 0 st) as (l' & Hrun & Hlen & Hst).
  exists (imap (λ i d, with_id (next_oid st + i) d) l').
  rewrite bind_run, Hrun. split.
  - destruct l' as [|x l']; [destruct batch; [congruence|discriminate]|].
    cbv beta iota. rewrite insert_many_run, Hlen. reflexivity.
  - split; [by rewrite length_imap|].
    intros i d Hi. rewrite list_lookup_imap in Hi.
    destruct (l' !! i) as [d1|] eqn:E; [|discriminate]. simpl in Hi.
    apply (inj Some) in Hi. subst d.
    destruct (Hst i d1 E) as (Hstamp & d0 & Hd0 & Hkeep).
    split; [by apply with_id_stamped|].
    exists d0. split; [assumption|by apply with_id_keeps].
Qed.

(** *** Seeding an empty collection *)

Lemma seed_nonempty st :
  db st ≠ [] → seed_if_empty st = (Ok tt, logged (EvCount ∅) st).
Proof.
  intros Hne. unfold seed_if_empty.
  rewrite bind_run, count_documents_run, matching_empty_query.
  destruct (db st); [congruence|reflexivity].
Qed.

(** On an empty collection the generator is asked for twelve records,
    without hints; what it delivers is marked (the first six featured),
    stamped and inserted; its failure is logged and nothing else happens. *)
Lemma seed_empty st :
  db st = [] →
  let g := generate_suggestions None None None 12 (logged (EvCount ∅) st) in
  match g.1 with
  | Ok [] => seed_if_empty st = (Ok tt, g.2)
  | Ok batch =>
      ∃ new, seed_if_empty st
             = (Ok tt, {| db := new;
                          next_oid := next_oid st + length batch;
                          ticks := ticks st + 2 * length batch;
                          trace := EvInsertMany (length batch) :: trace g.2 |})
             ∧ persisted_as (λ i, i <? 6)%nat batch new
  | Raise e =>
      seed_if_empty st
      = (Ok tt, logged (EvLogError ("Failed to generate initial suggestions: "
                                    +:+ exn_str e)) g.2)
  end.
Proof.
  intros Hdb g. unfold seed_if_empty.
  rewrite bind_run, count_documents_run, matching_empty_query, Hdb. simpl.
  rewrite try_except_run, bind_run. fold g.
  destruct (generate_frame None None None 12 (logged (EvCount ∅) st))
    as (Hgdb & Hgoid & Hgticks & _). fold g in Hgdb, Hgoid, Hgticks.
  destruct g as [[batch|e] sg]; simpl in *; [|reflexivity].
  destruct batch as [|d batch]; [reflexivity|].
  destruct (stamp_and_insert (λ i, i <? 6)%nat (d :: batch) sg) as (new & Hrun & Hper);
    [discriminate|].
  rewrite Hrun. exists new. split; [|exact Hper].
  rewrite Hgdb, Hdb, Hgoid, Hgticks. reflexivity.
Qed.

Lemma seed_never_raises st : (seed_if_empty st).1 = Ok tt.
Proof.
  destruct (db st) as [|d l] eqn:Hdb.
  - pose proof (seed_empty st Hdb) as Hs. simpl in Hs.
    destruct (generate_suggestions None None None 12 (logged (EvCount ∅) st))
      as [[[|d batch]|e] sg]; simpl in Hs.
    + by rewrite Hs.
    + destruct Hs as (new & -> & _). reflexivity.
    + by rewrite Hs.
  - rewrite seed_nonempty; [reflexivity|]. rewrite Hdb. discriminate.
Qed.

Lemma seed_run st : seed_if_empty st = (Ok tt, seeded st).
Proof.
  unfold seeded. pose proof (seed_never_raises st) as Hseed.
  destruct (seed_if_empty st) as [r st1]. simpl in *. by subst r.
Qed.

End ListingFacts.

Section RouteFacts.
Import Suggestions.
Context {B : Builtins} {L : Library} {W : World}.

Implicit Types (st : state) (req : Request) (query : gmap string value).

Lemma build_query_filters req : (build_query req).2 = filter_supplied req.
Proof.
  unfold build_query, filter_supplied.
  destruct (featured req), (truthy_opt (category req)), (truthy_opt (budget req)),
    (truthy_opt (continent req)),
    (bool_decide (duration_min req ≠ None ∨ duration_max req ≠ None));
    reflexivity.
Qed.

Lemma build_query_eq req : build_query req = (query_of req, filter_supplied req).
Proof.
  rewrite <- build_query_filters. unfold query_of. by destruct (build_query req).
Qed.

(** *** Generating when nothing matches *)

(** The block does nothing unless the total is zero and a filter was
    supplied. *)
Lemma backfill_skipped req query (has_filters : bool) (eff total : Z)
    (page : list (gmap string value)) st :
  (total =? 0) && has_filters && negb (truthy_opt (suggestion_id req)) = false →
  backfill req query has_filters eff page total st = (Ok (page, total), st).
Proof. intros Hcond. unfold backfill. rewrite Hcond. reflexivity. Qed.

(** Otherwise the generator is asked for [min(effective limit, 6)] records
    with the request's own hints; what it delivers is marked not featured,
    stamped and inserted, and the query is run again from the first match on;
    its failure is logged, and the empty page stays. *)
Lemma backfill_run req query (eff : Z) (page : list (gmap string value)) st :
  truthy_opt (suggestion_id req) = false →
  let g := generate_suggestions (category req) (budget req) (continent req)
             (Z.min eff 6) st in
  match g.1 with
  | Ok [] => backfill req query true eff page 0 st = (Ok (page, 0), g.2)
  | Ok batch =>
      ∃ new final,
        backfill req query true eff page 0 st
        = (Ok (page_of query 0 eff final,
               Z.of_nat (length (page_of query 0 eff final))),
           logged (EvFind query 0 eff) final)
        ∧ final = {| db := db st ++ new;
                     next_oid := next_oid st + length batch;
                     ticks := ticks st + 2 * length batch;
                     trace := EvInsertMany (length batch) :: trace g.2 |}
        ∧ persisted_as (λ _, false) batch new
  | Raise e =>
      backfill req query true eff page 0 st
      = (Ok (page, 0),
         logged (EvLogError ("Failed to generate filtered suggestions: "
                             +:+ exn_str e)) g.2)
  end.
Proof.
  intros Hid g. unfold backfill. rewrite Hid. simpl.
  rewrite try_except_run, bind_run. fold g.
  destruct (generate_frame (category req) (budget req) (continent req)
              (Z.min eff 6) st) as (Hgdb & Hgoid & Hgticks & _).
  fold g in Hgdb, Hgoid, Hgticks.
  destruct g as [[batch|e] sg]; simpl in *; [|reflexivity].
  destruct batch as [|d batch]; [reflexivity|].
  destruct (stamp_all_run (λ _, false) (d :: batch) 0 sg) as (l' & Hrun & Hlen & Hst).
  rewrite bind_run, Hrun.
  destruct l' as [|x l']; [discriminate|]. cbv beta iota.
  rewrite bind_run, insert_many_run, bind_run, find_run.
  eexists _, _. split; [reflexivity|]. split.
  - rewrite Hgdb, Hgoid, Hgticks, Hlen. reflexivity.
  - split; [by rewrite length_imap|].
    intros i d' Hi. rewrite list_lookup_imap in Hi.
    destruct ((x :: l') !! i) as [d1|] eqn:E; [|discriminate]. simpl in Hi.
    apply (inj Some) in Hi. subst d'.
    destruct (Hst i d1 E) as (Hstamp & d0 & Hd0 & Hkeep).
    split; [by apply with_id_stamped|].
    exists d0. split; [assumption|by apply with_id_keeps].
Qed.

Lemma backfill_never_raises req query (hf : bool) (eff total : Z)
    (page : list (gmap string value)) st :
  truthy_opt (suggestion_id req) = false →
  ∃ page' total', (backfill req query hf eff page total st).1 = Ok (page', total').
Proof.
  intros Hid.
  destruct ((total =? 0) && hf && negb (truthy_opt (suggestion_id req))) eqn:Hcond.
  - apply andb_prop in Hcond as [Hcond _]. apply andb_prop in Hcond as [Ht ->].
    apply Z.eqb_eq in Ht. subst total.
    pose proof (backfill_run req query eff page st Hid) as Hb. simpl in Hb.
    destruct (generate_suggestions _ _ _ _ st) as [[[|d batch]|e] sg]; simpl in Hb.
    + rewrite Hb. eauto.
    + destruct Hb as (new & final & -> & _). eauto.
    + rewrite Hb. eauto.
  - rewrite backfill_skipped by assumption. eauto.
Qed.

(** *** Building the response *)

Lemma present_all_run (page : list (gmap string value)) st :
  ∃ r, present_all page st = (r, st)
       ∧ match r with
         | Ok shown => Forall2 presents page shown
         | Raise e => e = Exception "KeyError: '_id'"
         end.
Proof.
  induction page as [|s page IH]; cbn [present_all].
  - exists (Ok []). split; [reflexivity|constructor].
  - destruct IH as (r & Hrun & Hr).
    rewrite bind_run. unfold present at 1.
    destruct (normalize_suggestion_data s !! "_id") as [oid|] eqn:Hoid.
    + unfold mret at 1, M_ret at 1. rewrite bind_run, Hrun. destruct r as [shown|e].
      * eexists (Ok _). split; [reflexivity|].
        constructor; [|assumption]. exists oid. split; [assumption|reflexivity].
      * exists (Raise e). split; [reflexivity|assumption].
    + eexists (Raise _). split; reflexivity.
Qed.

(** The response has the total and the query it was given, and shows the
    page it was given; it fails only with a plain exception; an empty page
    always goes through. *)
Lemma respond_run (total : Z) (page : list (gmap string value)) query st :
  ∃ r, respond total page query st = (r, st)
       ∧ match r with
         | Ok resp =>
             Suggestions.total resp = total
             ∧ filters_applied resp = query
             ∧ Forall2 presents page (suggestions resp)
         | Raise e => ∃ msg, e = Exception msg
         end
       ∧ (page = [] →
          r = Ok {| Suggestions.total := total; suggestions := [];
                    filters_applied := query |}).
Proof.
  unfold respond. rewrite bind_run.
  destruct (present_all_run page st) as (r & Hrun & Hr). rewrite Hrun.
  destruct r as [shown|e].
  - rewrite bind_run. unfold validate_all.
    destruct (forallb validates shown) eqn:Hval.
    + eexists (Ok _). split; [reflexivity|]. split; [by repeat split|].
      intros ->. inversion Hr. reflexivity.
    + eexists (Raise _). split; [reflexivity|]. split; [eauto|].
      intros ->. inversion Hr; subst. discriminate.
  - exists (Raise e). split; [reflexivity|]. split; [eauto|].
    intros ->. simpl in Hrun. discriminate.
Qed.

(** *** The listing as a whole *)

(** Without an identifier, the route seeds, queries, generates on no
    match, and answers with what these blocks leave: the response, or an
    error 500 if a record of the page cannot be presented. *)
Lemma get_suggestions_run req st :
  truthy_opt (suggestion_id req) = false →
  let query := query_of req in
  let eff := effective_limit_of req in
  let b := backfill req query (filter_supplied req) eff
             (page_of query (skip req) eff (seeded st))
             (Z.of_nat (length (matching query (seeded st))))
             (queried req st) in
  ∃ page total r,
    b.1 = Ok (page, total)
    ∧ respond total page query b.2 = (r, b.2)
    ∧ get_suggestions req st
      = match r with
        | Ok resp => (Ok resp, b.2)
        | Raise e =>
            (Raise (HTTPException 500 (exn_str e)),
             logged (EvLogError ("Error fetching suggestions: " +:+ exn_str e)) b.2)
        end.
Proof.
  intros Hid query eff b.
  destruct (backfill_never_raises req query (filter_supplied req) eff
              (Z.of_nat (length (matching query (seeded st))))
              (page_of query (skip req) eff (seeded st)) (queried req st) Hid)
    as (page & total & Hb). fold b in Hb.
  destruct (respond_run total page query b.2) as (r & Hresp & Hr & _).
  exists page, total, r. split; [assumption|]. split; [assumption|].
  unfold get_suggestions. rewrite try_except_run, Hid, build_query_eq.
  fold query. fold eff. unfold effective_limit_of in eff.
  change (if filter_supplied req then Z.min (limit req) 10 else limit req) with eff.
  rewrite bind_run, seed_run.
  rewrite bind_run, find_run, bind_run, count_documents_run.
  rewrite bind_run.
  change (logged (EvCount query) (logged (EvFind query (skip req) eff) (seeded st)))
    with (queried req st).
  change (matching query (logged (EvFind query (skip req) eff) (seeded st)))
    with (matching query (seeded st)).
  fold b.
  destruct b as [rb sb] eqn:Eb. simpl in Hb. subst rb. simpl in Hresp.
  cbv beta iota. rewrite Hresp. destruct r as [resp|e]; [reflexivity|].
  destruct Hr as [msg ->]. reflexivity.
Qed.

End RouteFacts.

Section TraceFacts.
Import Suggestions.
Context {B : Builtins} {L : Library} {W : World}.

Implicit Types (st : state) (req : Request) (query : gmap string value).

(** With an identifier, a response shows the one record found. *)
Lemma get_by_id_one req st (resp : SuggestionsResponse) :
  truthy_opt (suggestion_id req) = true →
  (get_suggestions req st).1 = Ok resp →
  length (suggestions resp) = 1%nat.
Proof.
  intros Hid. unfold get_suggestions. rewrite try_except_run, Hid.
  unfold get_by_id. destruct (object_id _) as [oid|]; [|discriminate].
  rewrite bind_run. unfold find_one. rewrite bind_run, log_run.
  unfold gets at 1. cbv beta iota.
  destruct (List.find _ _) as [s|]; [|discriminate].
  rewrite bind_run. unfold present.
  destruct (normalize_suggestion_data s !! "_id") as [v|]; [|discriminate].
  unfold mret at 1, M_ret at 1. rewrite bind_run. unfold validate_all.
  destruct (forallb validates _); [|discriminate].
  unfold mret, M_ret. cbv beta iota. unfold fst.
  intros Hresp.
  apply (f_equal (on_ok (λ r, length (suggestions r)))) in Hresp.
  cbn [on_ok suggestions length] in Hresp. by injection Hresp.
Qed.

(** Without a filter the query is empty. *)
Lemma query_of_no_filter req : filter_supplied req = false → query_of req = ∅.
Proof.
  unfold filter_supplied, query_of, build_query. intros Hf.
  repeat (apply orb_false_elim in Hf as [Hf ?]).
  repeat match goal with H : _ = false |- _ => rewrite H; clear H end.
  reflexivity.
Qed.

(** Where the listing stops: in the state the last block leaves, or one
    log entry later. *)
Lemma get_suggestions_final req st :
  truthy_opt (suggestion_id req) = false →
  let b := backfill req (query_of req) (filter_supplied req) (effective_limit_of req)
             (page_of (query_of req) (skip req) (effective_limit_of req) (seeded st))
             (Z.of_nat (length (matching (query_of req) (seeded st))))
             (queried req st) in
  db (get_suggestions req st).2 = db b.2
  ∧ ∃ later, trace (get_suggestions req st).2 = later ++ trace b.2.
Proof.
  intros Hid b.
  destruct (get_suggestions_run req st Hid) as (page & total & r & _ & _ & Hrun).
  fold b in Hrun. rewrite Hrun. destruct r as [resp|e]; simpl.
  - split; [reflexivity|]. by exists [].
  - split; [reflexivity|]. by eexists [_].
Qed.

End TraceFacts.

Section PageSize.
Import Suggestions.
Context {B : Builtins} {L : Library} {W : World}.

Implicit Types (st : state) (req : Request) (query : gmap string value).

(** The page the generating block returns is the one it was given, or a
    page of the same size limit taken anew. *)
Lemma backfill_page req query (hf : bool) (eff total : Z)
    (page : list (gmap string value)) st page' total' :
  truthy_opt (suggestion_id req) = false →
  (backfill req query hf eff page total st).1 = Ok (page', total') →
  page' = page ∨ ∃ final, page' = page_of query 0 eff final.
Proof.
  intros Hid.
  destruct ((total =? 0) && hf && negb (truthy_opt (suggestion_id req))) eqn:Hcond.
  - apply andb_prop in Hcond as [Hcond _]. apply andb_prop in Hcond as [Ht ->].
    apply Z.eqb_eq in Ht. subst total.
    pose proof (backfill_run req query eff page st Hid) as Hb. simpl in Hb.
    destruct (generate_suggestions _ _ _ _ st) as [[[|d batch]|e] sg]; simpl in Hb.
    + rewrite Hb. simpl. intros [= <- <-]. by left.
    + destruct Hb as (new & final & -> & _). simpl. intros [= <- <-]. eauto.
    + rewrite Hb. simpl. intros [= <- <-]. by left.
  - rewrite backfill_skipped by assumption. simpl. intros [= <- <-]. by left.
Qed.

End PageSize.

(** C5. For a limit between 1 and 50 and every response of the listing:
    if a filter is supplied (featured, or a non-empty category, budget or
    continent, or a bound on the duration), the page holds at most
    min(limit, 10) records, however many match in storage; if no filter is
    supplied (and no identifier), the requested limit is the page size: the
    page shows the first [limit] records after [skip] of the whole
    collection, best rated first. *)
Theorem page_size_capped {B : Builtins} {L : Suggestions.Library}
    {W : Suggestions.World}
    (req : Suggestions.Request) (st : Suggestions.state)
    (resp : Suggestions.SuggestionsResponse) :
  1 ≤ Suggestions.limit req ≤ 50 →
  (Suggestions.get_suggestions req st).1 = Ok resp →
  (Suggestions.filter_supplied req = true →
   (length (Suggestions.suggestions resp)
    ≤ Z.to_nat (Z.min (Suggestions.limit req) 10))%nat)
  ∧ (Suggestions.filter_supplied req = false →
     truthy_opt (Suggestions.suggestion_id req) = false →
     Forall2 Suggestions.presents
       (take (Z.to_nat (Suggestions.limit req))
          (drop (Z.to_nat (Suggestions.skip req))
             (Suggestions.sort_by_rating_desc
                (Suggestions.db (Suggestions.seeded st)))))
       (Suggestions.suggestions resp)).
Proof.
  intros Hlimit Hresp. split.
  - intros Hf.
    destruct (truthy_opt (Suggestions.suggestion_id req)) eqn:Hid.
    { rewrite (get_by_id_one req st resp Hid Hresp). lia. }
    destruct (get_suggestions_run req st Hid) as (page & total & r & Hb & Hr & Hrun).
    rewrite Hrun in Hresp.
    destruct (respond_run total page (Suggestions.query_of req)
                (Suggestions.backfill req (Suggestions.query_of req)
                   (Suggestions.filter_supplied req)
                   (Suggestions.effective_limit_of req)
                   (Suggestions.page_of (Suggestions.query_of req)
                      (Suggestions.skip req) (Suggestions.effective_limit_of req)
                      (Suggestions.seeded st))
                   (Z.of_nat (length (Suggestions.matching (Suggestions.query_of req)
                                        (Suggestions.seeded st))))
                   (Suggestions.queried req st)).2)
      as (r' & Hr' & Hprop & _).
    rewrite Hr in Hr'. injection Hr' as <-.
    destruct r as [resp'|e]; [|discriminate]. simpl in Hresp.
    injection Hresp as ->. destruct Hprop as (_ & _ & Hshown).
    apply Forall2_length in Hshown. rewrite <- Hshown.
    assert (Heff : Suggestions.effective_limit_of req
                   = Z.min (Suggestions.limit req) 10)
      by (unfold Suggestions.effective_limit_of; by rewrite Hf).
    rewrite <- Heff.
    destruct (backfill_page _ _ _ _ _ _ _ _ _ Hid Hb) as [->|[final ->]];
      apply page_of_length.
  - intros Hf Hid.
    destruct (get_suggestions_run req st Hid) as (page & total & r & Hb & Hr & Hrun).
    rewrite Hrun in Hresp.
    rewrite backfill_skipped in Hb, Hr
      by (rewrite Hf, andb_false_r; reflexivity).
    simpl in Hb, Hr. injection Hb as <- <-.
    destruct (respond_run
                (Z.of_nat (length (Suggestions.matching (Suggestions.query_of req)
                                     (Suggestions.seeded st))))
                (Suggestions.page_of (Suggestions.query_of req)
                   (Suggestions.skip req) (Suggestions.effective_limit_of req)
                   (Suggestions.seeded st))
                (Suggestions.query_of req) (Suggestions.queried req st))
      as (r' & Hr' & Hprop & _).
    rewrite Hr in Hr'. injection Hr' as <-.
    destruct r as [resp'|e]; [|discriminate]. simpl in Hresp.
    injection Hresp as ->. destruct Hprop as (_ & _ & Hshown).
    unfold Suggestions.page_of, Suggestions.effective_limit_of in Hshown.
    rewrite Hf, (query_of_no_filter req Hf), matching_empty_query in Hshown.
    exact Hshown.
Qed.

(** C5 where twelve stored records match the category and 50 are asked
    for: ten are shown. *)
Lemma page_size_capped_witness :
  let req := {| Suggestions.category := Some "culture"; Suggestions.budget := None;
                Suggestions.duration_min := None; Suggestions.duration_max := None;
                Suggestions.continent := None; Suggestions.featured := false;
                Suggestions.limit := 50; Suggestions.skip := 0;
                Suggestions.suggestion_id := None |} in
  let out := Suggestions.get_suggestions (B := Sample.builtins) (L := Sample.library)
               (W := Sample.model "[]") req Sample.many_cultures in
  length (Suggestions.matching (L := Sample.library)
            (Suggestions.query_of (B := Sample.builtins) req)
            Sample.many_cultures) = 12%nat
  ∧ ∃ resp, out.1 = Ok resp ∧ (length (Suggestions.suggestions resp) ≤ 10)%nat.
Proof.
  intros req out. split; [vm_compute; reflexivity|].
  assert (Hok : on_ok (λ _, tt) out.1 = Some tt) by (vm_compute; reflexivity).
  pose proof (page_size_capped (B := Sample.builtins) (L := Sample.library)
                (W := Sample.model "[]") req Sample.many_cultures) as Hcap.
  fold out in Hcap. clearbody out.
  destruct out as [[resp|e] final]; [|discriminate].
  exists resp. split; [reflexivity|].
  refine (proj1 (Hcap resp _ eq_refl) eq_refl). simpl. lia.
Defined.

Section ColdStartFacts.
Import Suggestions.
Context {B : Builtins} {L : Library} {W : World}.

Implicit Types (st : state) (req : Request) (query : gmap string value).

(** What the generating block adds to the record of events. *)
Lemma backfill_extends req query (hf : bool) (eff total : Z)
    (page : list (gmap string value)) st :
  truthy_opt (suggestion_id req) = false →
  ∃ later, trace (backfill req query hf eff page total st).2 = later ++ trace st.
Proof.
  intros Hid.
  destruct ((total =? 0) && hf && negb (truthy_opt (suggestion_id req))) eqn:Hcond.
  - apply andb_prop in Hcond as [Hcond _]. apply andb_prop in Hcond as [Ht ->].
    apply Z.eqb_eq in Ht. subst total.
    pose proof (backfill_run req query eff page st Hid) as Hb. simpl in Hb.
    destruct (generate_frame (category req) (budget req) (continent req)
                (Z.min eff 6) st) as (_ & _ & _ & logs & Htr & _).
    destruct (generate_suggestions _ _ _ _ st) as [[[|d batch]|e] sg];
      simpl in Hb, Htr.
    + rewrite Hb. simpl. rewrite Htr. by eexists (logs ++ [_; _]); rewrite <- app_assoc.
    + destruct Hb as (new & final & -> & -> & _). simpl. rewrite Htr.
      by eexists (_ :: _ :: logs ++ [_; _]); rewrite <- !app_comm_cons, <- app_assoc.
    + rewrite Hb. simpl. rewrite Htr.
      by eexists (_ :: logs ++ [_; _]); rewrite <- !app_comm_cons, <- app_assoc.
  - rewrite backfill_skipped by assumption. by exists [].
Qed.

(** The filtered query comes after the seeding, and all that the listing
    does later comes after the filtered query. *)
Lemma listing_after_query req st :
  truthy_opt (suggestion_id req) = false →
  ∃ later,
    trace (get_suggestions req st).2
    = later ++ EvCount (query_of req)
            :: EvFind (query_of req) (skip req) (effective_limit_of req)
            :: trace (seeded st).
Proof.
  intros Hid.
  destruct (get_suggestions_final req st Hid) as (_ & l1 & H1).
  destruct (backfill_extends req (query_of req) (filter_supplied req)
              (effective_limit_of req)
              (Z.of_nat (length (matching (query_of req) (seeded st))))
              (page_of (query_of req) (skip req) (effective_limit_of req) (seeded st))
              (queried req st) Hid) as (l2 & H2).
  rewrite H1, H2. exists (l1 ++ l2). by rewrite <- app_assoc.
Qed.

(** On an empty collection the first thing after the count is the call of
    the generator, for twelve records and without hints. *)
Lemma seed_asks_for_twelve st :
  db st = [] →
  ∃ later,
    trace (seeded st) = later ++ EvGenerate None None None 12 :: EvCount ∅ :: trace st.
Proof.
  intros Hdb. pose proof (seed_empty st Hdb) as Hs. simpl in Hs. unfold seeded.
  destruct (generate_frame None None None 12 (logged (EvCount ∅) st))
    as (_ & _ & _ & logs & Htr & _).
  destruct (generate_suggestions None None None 12 (logged (EvCount ∅) st))
    as [[[|d batch]|e] sg]; simpl in Hs, Htr.
  - rewrite Hs. simpl. rewrite Htr. exists (logs ++ [EvChat (build_prompt None None None 12)]).
    by rewrite <- app_assoc.
  - destruct Hs as (new & -> & _). simpl. rewrite Htr.
    exists (EvInsertMany (length (d :: batch)) :: logs
            ++ [EvChat (build_prompt None None None 12)]).
    by rewrite <- app_comm_cons, <- app_assoc.
  - rewrite Hs. simpl. rewrite Htr.
    eexists (_ :: logs ++ [EvChat (build_prompt None None None 12)]).
    by rewrite <- app_comm_cons, <- app_assoc.
Qed.

End ColdStartFacts.

(** C4, as stated, fails when the request carries a filter: the total is
    that of the filtered query. On an empty collection, with the twelve
    generated records and [featured] asked for, twelve records are stored
    and the response says 6. *)
Lemma cold_start_total_counts_matches :
  let req := {| Suggestions.category := None; Suggestions.budget := None;
                Suggestions.duration_min := None; Suggestions.duration_max := None;
                Suggestions.continent := None; Suggestions.featured := true;
                Suggestions.limit := 10; Suggestions.skip := 0;
                Suggestions.suggestion_id := None |} in
  let out := Suggestions.get_suggestions (B := Sample.builtins) (L := Sample.library)
               (W := Sample.model "[twelve]") req Sample.empty_store in
  Suggestions.db Sample.empty_store = []
  ∧ length (Suggestions.db out.2) = 12%nat
  ∧ on_ok Suggestions.total out.1 = Some 6.
Proof.
  intros req out. split; [reflexivity|]. split; vm_compute; reflexivity.
Qed.

(** C4 (amended). When the collection is empty and no identifier is given,
    the listing asks the generator, before anything else, for a batch of 12
    records without hints. If the generator delivers a batch, the records
    are persisted as delivered, in order, the first 6 marked featured and
    the others not, each with creation and update stamps, before the filtered
    query runs. If the batch has 12 records and the request carries no
    filter, the total of the same call's response is 12. *)
Theorem cold_start_seeds_twelve {B : Builtins} {L : Suggestions.Library}
    {W : Suggestions.World} (req : Suggestions.Request) (st : Suggestions.state) :
  truthy_opt (Suggestions.suggestion_id req) = false →
  Suggestions.db st = [] →
  let g := Suggestions.generate_suggestions None None None 12
             (Suggestions.logged (Suggestions.EvCount ∅) st) in
  let out := Suggestions.get_suggestions req st in
  (∃ later, Suggestions.trace out.2
            = later ++ Suggestions.EvGenerate None None None 12
                    :: Suggestions.EvCount ∅ :: Suggestions.trace st)
  ∧ ∀ d batch,
      g.1 = Ok (d :: batch) →
      Suggestions.persisted_as (λ i, i <? 6)%nat (d :: batch)
        (Suggestions.db (Suggestions.seeded st))
      ∧ (∃ later,
           Suggestions.trace out.2
           = later ++ Suggestions.EvFind (Suggestions.query_of req)
                        (Suggestions.skip req) (Suggestions.effective_limit_of req)
                   :: Suggestions.EvInsertMany (length (d :: batch))
                   :: Suggestions.trace g.2)
      ∧ (Suggestions.filter_supplied req = false →
         length (d :: batch) = 12%nat →
         ∀ resp, out.1 = Ok resp → Suggestions.total resp = 12).
Proof.
  intros Hid Hdb g out. split.
  - destruct (listing_after_query req st Hid) as (l1 & H1).
    destruct (seed_asks_for_twelve st Hdb) as (l2 & H2).
    subst out. rewrite H1, H2. eexists (l1 ++ _ :: _ :: l2).
    by rewrite <- app_assoc, <- !app_comm_cons.
  - intros d batch Hg.
    pose proof (seed_empty st Hdb) as Hs. simpl in Hs. fold g in Hs. rewrite Hg in Hs.
    destruct Hs as (new & Hseed & Hper).
    assert (Hseeded : Suggestions.seeded st
                      = {| Suggestions.db := new;
                           Suggestions.next_oid := Suggestions.next_oid st + length (d :: batch);
                           Suggestions.ticks := Suggestions.ticks st + 2 * length (d :: batch);
                           Suggestions.trace :=
                             Suggestions.EvInsertMany (length (d :: batch))
                             :: Suggestions.trace g.2 |})
      by (unfold Suggestions.seeded; by rewrite Hseed).
    split; [by rewrite Hseeded|]. split.
    + destruct (listing_after_query req st Hid) as (l1 & H1).
      subst out. rewrite H1, Hseeded. simpl. eexists (l1 ++ [_]).
      by rewrite <- app_assoc.
    + intros Hf Hlen resp Hresp.
      destruct (get_suggestions_run req st Hid) as (page & total & r & Hb & Hr & Hrun).
      subst out. rewrite Hrun in Hresp.
      rewrite backfill_skipped in Hb, Hr by (rewrite Hf, andb_false_r; reflexivity).
      simpl in Hb, Hr. injection Hb as <- <-.
      destruct (respond_run
                  (Z.of_nat (length (Suggestions.matching (Suggestions.query_of req)
                                       (Suggestions.seeded st))))
                  (Suggestions.page_of (Suggestions.query_of req)
                     (Suggestions.skip req) (Suggestions.effective_limit_of req)
                     (Suggestions.seeded st))
                  (Suggestions.query_of req) (Suggestions.queried req st))
        as (r' & Hr' & Hprop & _).
      rewrite Hr in Hr'. injection Hr' as <-.
      destruct r as [resp'|e]; [|discriminate]. simpl in Hresp.
      injection Hresp as ->. destruct Hprop as (-> & _ & _).
      rewrite (query_of_no_filter req Hf), matching_empty_query, Hseeded. simpl.
      destruct Hper as [-> _]. rewrite Hlen. reflexivity.
Qed.

(** C4 (amended) on an empty collection, a request without filter and a
    model that delivers twelve records. *)
Lemma cold_start_seeds_twelve_witness :
  let W := Sample.model "[twelve]" in
  let g := Suggestions.generate_suggestions (L := Sample.library) None None None 12
             (Suggestions.logged (Suggestions.EvCount ∅) Sample.empty_store) in
  let out := Suggestions.get_suggestions (B := Sample.builtins) (L := Sample.library)
               Sample.request Sample.empty_store in
  on_ok length g.1 = Some 12%nat
  ∧ ∃ resp, out.1 = Ok resp ∧ Suggestions.total resp = 12.
Proof.
  intros W g out.
  assert (Hlen : on_ok length g.1 = Some 12%nat) by (vm_compute; reflexivity).
  split; [exact Hlen|].
  assert (Hok : on_ok (λ _, tt) out.1 = Some tt) by (vm_compute; reflexivity).
  pose proof (cold_start_seeds_twelve (B := Sample.builtins) (L := Sample.library)
                (W := W) Sample.request Sample.empty_store eq_refl eq_refl) as Hthm.
  cbv zeta in Hthm. fold g out in Hthm. destruct Hthm as [_ Hbatch].
  assert (Hf : Suggestions.filter_supplied Sample.request = false) by reflexivity.
  clearbody g out.
  destruct out as [[resp|e] final]; [|discriminate].
  exists resp. split; [reflexivity|].
  destruct g as [[[|d batch]|e] sg]; [discriminate| |discriminate].
  apply (inj Some) in Hlen.
  exact (proj2 (proj2 (Hbatch d batch eq_refl)) Hf Hlen resp eq_refl).
Defined.

Section BackfillFacts.
Import Suggestions.
Context {B : Builtins} {L : Library} {W : World}.

Implicit Types (st : state) (req : Request) (query : gmap string value).

Lemma page_of_db query (skip limit : Z) st st' :
  db st = db st' → page_of query skip limit st = page_of query skip limit st'.
Proof. intros Hdb. unfold page_of, matching. by rewrite Hdb. Qed.

(** With a filter and no match, the first thing the generating block does
    is to call the generator with the hints of the request. *)
Lemma backfill_asks req query (eff : Z) (page : list (gmap string value)) st :
  truthy_opt (suggestion_id req) = false →
  ∃ later,
    trace (backfill req query true eff page 0 st).2
    = later ++ EvGenerate (category req) (budget req) (continent req) (Z.min eff 6)
            :: trace st.
Proof.
  intros Hid.
  pose proof (backfill_run req query eff page st Hid) as Hb. simpl in Hb.
  destruct (generate_frame (category req) (budget req) (continent req)
              (Z.min eff 6) st) as (_ & _ & _ & logs & Htr & _).
  destruct (generate_suggestions _ _ _ _ st) as [[[|d batch]|e] sg];
    simpl in Hb, Htr.
  - rewrite Hb. simpl. rewrite Htr. eexists (logs ++ [_]). by rewrite <- app_assoc.
  - destruct Hb as (new & final & -> & -> & _). simpl. rewrite Htr.
    eexists (_ :: _ :: logs ++ [_]). by rewrite <- !app_comm_cons, <- app_assoc.
  - rewrite Hb. simpl. rewrite Htr.
    eexists (_ :: logs ++ [_]). by rewrite <- !app_comm_cons, <- app_assoc.
Qed.

End BackfillFacts.

(** C3, as stated, fails on the second run of the query: it has no
    [skip], and the total becomes the length of its page. With one stored
    trip that does not match, a request for beaches with [skip] 1, and a
    model that delivers two beaches: the page shows both, though the same
    query with the same [skip] gives one. With [limit] 1 and no [skip]
    instead, two stored records match in the end and the total says 1. *)
Lemma backfill_requery_ignores_skip :
  let req := {| Suggestions.category := Some "Beach"; Suggestions.budget := None;
                Suggestions.duration_min := None; Suggestions.duration_max := None;
                Suggestions.continent := None; Suggestions.featured := false;
                Suggestions.limit := 10; Suggestions.skip := 1;
                Suggestions.suggestion_id := None |} in
  let req1 := {| Suggestions.category := Some "Beach"; Suggestions.budget := None;
                 Suggestions.duration_min := None; Suggestions.duration_max := None;
                 Suggestions.continent := None; Suggestions.featured := false;
                 Suggestions.limit := 1; Suggestions.skip := 0;
                 Suggestions.suggestion_id := None |} in
  let out := Suggestions.get_suggestions (B := Sample.builtins) (L := Sample.library)
               (W := Sample.model "[two beaches]") req Sample.one_city in
  let out1 := Suggestions.get_suggestions (B := Sample.builtins) (L := Sample.library)
                (W := Sample.model "[two beaches]") req1 Sample.one_city in
  let query := Suggestions.query_of (B := Sample.builtins) req in
  Suggestions.matching (L := Sample.library) query Sample.one_city = []
  ∧ length (Suggestions.page_of (L := Sample.library) query 1 10 out.2) = 1%nat
  ∧ hd_error (Suggestions.trace out.2) = Some (Suggestions.EvFind query 0 10)
  ∧ on_ok (λ resp, length (Suggestions.suggestions resp)) out.1 = Some 2%nat
  ∧ length (Suggestions.matching (L := Sample.library) query out1.2) = 2%nat
  ∧ on_ok Suggestions.total out1.1 = Some 1.
Proof.
  intros req req1 out out1 query. repeat split; vm_compute; reflexivity.
Qed.

(** C3 (amended). In the listing, when no identifier is given, a filter is
    supplied and no stored record matches the filtered query, the generator
    is called with the category, budget and continent of the request and
    count = min(effective limit, 6). If it delivers records, they are
    persisted as delivered, each marked not featured and stamped with
    creation and update times; the query is then run again with the same
    filter, order and limit but from the first match on (without the
    [skip]); the response shows that page, and its total is the number of
    records on it. If the generator fails or delivers nothing, nothing is
    stored and the response is empty with total 0. *)
Theorem backfill_on_no_match {B : Builtins} {L : Suggestions.Library}
    {W : Suggestions.World} (req : Suggestions.Request) (st : Suggestions.state) :
  truthy_opt (Suggestions.suggestion_id req) = false →
  Suggestions.filter_supplied req = true →
  Suggestions.matching (Suggestions.query_of req) (Suggestions.seeded st) = [] →
  let query := Suggestions.query_of req in
  let eff := Suggestions.effective_limit_of req in
  let g := Suggestions.generate_suggestions (Suggestions.category req)
             (Suggestions.budget req) (Suggestions.continent req) (Z.min eff 6)
             (Suggestions.queried req st) in
  let out := Suggestions.get_suggestions req st in
  (∃ later,
     Suggestions.trace out.2
     = later ++ Suggestions.EvGenerate (Suggestions.category req)
                  (Suggestions.budget req) (Suggestions.continent req) (Z.min eff 6)
             :: Suggestions.trace (Suggestions.queried req st))
  ∧ (∀ d batch,
       g.1 = Ok (d :: batch) →
       ∃ new,
         Suggestions.db out.2 = Suggestions.db (Suggestions.seeded st) ++ new
         ∧ Suggestions.persisted_as (λ _, false) (d :: batch) new
         ∧ (∃ later,
              Suggestions.trace out.2
              = later ++ Suggestions.EvFind query 0 eff
                      :: Suggestions.EvInsertMany (length (d :: batch))
                      :: Suggestions.trace g.2)
         ∧ ∀ resp,
             out.1 = Ok resp →
             Forall2 Suggestions.presents (Suggestions.page_of query 0 eff out.2)
               (Suggestions.suggestions resp)
             ∧ Suggestions.total resp
               = Z.of_nat (length (Suggestions.suggestions resp)))
  ∧ (Suggestions.sort_by_rating_desc [] = [] →
     g.1 = Ok [] ∨ (∃ e, g.1 = Raise e) →
     Suggestions.db out.2 = Suggestions.db (Suggestions.seeded st)
     ∧ out.1 = Ok {| Suggestions.total := 0; Suggestions.suggestions := [];
                     Suggestions.filters_applied := query |}).
Proof.
  intros Hid Hf Hnone query eff g out.
  destruct (get_suggestions_final req st Hid) as (Hdb & l1 & Htr).
  destruct (get_suggestions_run req st Hid) as (page & total & r & Hb & Hr & Hrun).
  rewrite Hf, Hnone in Hdb, Htr, Hb, Hr, Hrun.
  fold query eff in Hdb, Htr, Hb, Hr, Hrun. fold out in Hdb, Htr, Hrun.
  cbn [length] in Hdb, Htr, Hb, Hr, Hrun.
  change (Z.of_nat 0) with 0 in Hdb, Htr, Hb, Hr, Hrun.
  pose proof (backfill_run req query eff
                (Suggestions.page_of query (Suggestions.skip req) eff
                   (Suggestions.seeded st))
                (Suggestions.queried req st) Hid) as Hrun_b.
  simpl in Hrun_b. fold g in Hrun_b.
  split; [|split].
  - destruct (backfill_asks req query eff
                (Suggestions.page_of query (Suggestions.skip req) eff
                   (Suggestions.seeded st))
                (Suggestions.queried req st) Hid) as (l2 & H2).
    rewrite Htr, H2. exists (l1 ++ l2). by rewrite <- app_assoc.
  - intros d batch Hg. rewrite Hg in Hrun_b.
    destruct Hrun_b as (new & final & Hbf & Hfinal & Hper).
    rewrite Hbf in Hdb, Htr, Hb, Hr, Hrun. simpl in Hdb, Htr, Hb, Hr, Hrun.
    injection Hb as <- <-.
    exists new. split; [by rewrite Hdb, Hfinal|]. split; [exact Hper|]. split.
    + rewrite Htr, Hfinal. simpl. by exists l1.
    + intros resp Hresp. rewrite Hrun in Hresp.
      destruct (respond_run
                  (Z.of_nat (length (Suggestions.page_of query 0 eff final)))
                  (Suggestions.page_of query 0 eff final) query
                  (Suggestions.logged (Suggestions.EvFind query 0 eff) final))
        as (r' & Hr' & Hprop & _).
      rewrite Hr in Hr'. injection Hr' as <-.
      destruct r as [resp'|e]; [|discriminate]. simpl in Hresp.
      injection Hresp as ->. destruct Hprop as (Htotal & _ & Hshown).
      rewrite (page_of_db query 0 eff out.2 final) by exact Hdb.
      split; [exact Hshown|].
      rewrite Htotal. by rewrite (Forall2_length _ _ _ Hshown).
  - intros Hsort Hg.
    assert (Hpage : Suggestions.page_of query (Suggestions.skip req) eff
                      (Suggestions.seeded st) = []).
    { unfold Suggestions.page_of. fold query in Hnone. rewrite Hnone, Hsort.
      by rewrite drop_nil, take_nil. }
    rewrite Hpage in *.
    assert (Hbf : (Suggestions.backfill req query true eff [] 0
                     (Suggestions.queried req st)).1 = Ok ([], 0)
                  ∧ Suggestions.db (Suggestions.backfill req query true eff [] 0
                                      (Suggestions.queried req st)).2
                    = Suggestions.db (Suggestions.seeded st)).
    { destruct (generate_frame (Suggestions.category req) (Suggestions.budget req)
                  (Suggestions.continent req) (Z.min eff 6)
                  (Suggestions.queried req st)) as (Hgdb & _).
      fold g in Hgdb.
      destruct Hg as [Hg|[e Hg]]; rewrite Hg in Hrun_b; rewrite Hrun_b; simpl;
        by rewrite Hgdb. }
    destruct Hbf as [Hb1 Hb2]. rewrite Hb1 in Hb. injection Hb as <- <-.
    split; [by rewrite Hdb|].
    destruct (respond_run 0 [] query
                (Suggestions.backfill req query true eff [] 0
                   (Suggestions.queried req st)).2) as (r' & Hr' & _ & Hnil).
    rewrite Hr in Hr'. injection Hr' as <-.
    rewrite Hrun, (Hnil eq_refl). reflexivity.
Qed.

(** C3 (amended) on one stored city trip, a request for beaches with
    [skip] 1, and a model that delivers two beaches. *)
Lemma backfill_on_no_match_witness :
  let req := {| Suggestions.category := Some "Beach"; Suggestions.budget := None;
                Suggestions.duration_min := None; Suggestions.duration_max := None;
                Suggestions.continent := None; Suggestions.featured := false;
                Suggestions.limit := 10; Suggestions.skip := 1;
                Suggestions.suggestion_id := None |} in
  let W := Sample.model "[two beaches]" in
  let g := Suggestions.generate_suggestions (L := Sample.library)
             (Some "Beach") None None 6
             (Suggestions.queried (B := Sample.builtins) (L := Sample.library)
                req Sample.one_city) in
  let out := Suggestions.get_suggestions (B := Sample.builtins) (L := Sample.library)
               req Sample.one_city in
  on_ok length g.1 = Some 2%nat
  ∧ length (Suggestions.db out.2) = 3%nat
  ∧ ∃ resp, out.1 = Ok resp
            ∧ Suggestions.total resp = Z.of_nat (length (Suggestions.suggestions resp)).
Proof.
  intros req W g out.
  assert (Hlen : on_ok length g.1 = Some 2%nat) by (vm_compute; reflexivity).
  split; [exact Hlen|].
  assert (Hok : on_ok (λ _, tt) out.1 = Some tt) by (vm_compute; reflexivity).
  assert (Hstored : length (Suggestions.db (Suggestions.seeded
                              (L := Sample.library) Sample.one_city)) = 1%nat)
    by (vm_compute; reflexivity).
  assert (Hnone : Suggestions.matching (L := Sample.library)
                    (Suggestions.query_of (B := Sample.builtins) req)
                    (Suggestions.seeded (L := Sample.library) Sample.one_city) = [])
    by (vm_compute; reflexivity).
  pose proof (backfill_on_no_match (B := Sample.builtins) (L := Sample.library)
                (W := W) req Sample.one_city eq_refl eq_refl Hnone) as Hthm.
  cbv zeta in Hthm.
  change (Z.min (Suggestions.effective_limit_of req) 6) with 6 in Hthm.
  change (Suggestions.category req) with (Some "Beach") in Hthm.
  change (Suggestions.budget req) with (@None string) in Hthm.
  change (Suggestions.continent req) with (@None string) in Hthm.
  fold g out in Hthm. destruct Hthm as (_ & Hbatch & _).
  clearbody g out. clear Hnone.
  destruct g as [[[|d batch]|e] sg]; [discriminate| |discriminate].
  destruct (Hbatch d batch eq_refl) as (new & Hdb & Hper & _ & Hresp).
  split.
  - rewrite Hdb, length_app, Hstored. destruct Hper as [-> _].
    apply (inj Some) in Hlen. rewrite Hlen. reflexivity.
  - destruct out as [[resp|e] final]; [|discriminate].
    exists resp. split; [reflexivity|]. by apply Hresp.
Defined.

Section ParseFailureFacts.
Import Suggestions.
Context {B : Builtins} {L : Library} {W : World}.

Implicit Types (st : state) (req : Request) (query : gmap string value).

(** If no completion is JSON, every call of the generator raises. *)
Lemma generate_always_fails (c b k : option string) (n : Z) st :
  (∀ tr prompt, unparsable (chat tr prompt)) →
  ∃ e, (generate_suggestions c b k n st).1 = Raise e.
Proof.
  intros Hbad.
  destruct (Hbad (EvGenerate c b k n :: trace st) (build_prompt c b k n))
    as (raw & msg & Hchat & Hjson).
  rewrite (generate_unparsable c b k n st raw msg Hchat Hjson). eauto.
Qed.

Lemma seeded_db_when_unparsable st :
  (∀ tr prompt, unparsable (chat tr prompt)) →
  db (seeded st) = db st.
Proof.
  intros Hbad. destruct (db st) as [|d l] eqn:Hdb.
  - pose proof (seed_empty st Hdb) as Hs. simpl in Hs.
    destruct (generate_always_fails None None None 12 (logged (EvCount ∅) st) Hbad)
      as [e He].
    destruct (generate_frame None None None 12 (logged (EvCount ∅) st)) as (Hgdb & _).
    rewrite He in Hs. unfold seeded. rewrite Hs. simpl. by rewrite Hgdb.
  - unfold seeded. rewrite seed_nonempty by (rewrite Hdb; discriminate).
    simpl. by rewrite Hdb.
Qed.

(** Then the generating block returns what it was given and stores
    nothing. *)
Lemma backfill_when_unparsable req query (hf : bool) (eff total : Z)
    (page : list (gmap string value)) st :
  truthy_opt (suggestion_id req) = false →
  (∀ tr prompt, unparsable (chat tr prompt)) →
  (backfill req query hf eff page total st).1 = Ok (page, total)
  ∧ db (backfill req query hf eff page total st).2 = db st.
Proof.
  intros Hid Hbad.
  destruct ((total =? 0) && hf && negb (truthy_opt (suggestion_id req))) eqn:Hcond.
  - apply andb_prop in Hcond as [Hcond _]. apply andb_prop in Hcond as [Ht ->].
    apply Z.eqb_eq in Ht. subst total.
    pose proof (backfill_run req query eff page st Hid) as Hb. simpl in Hb.
    destruct (generate_always_fails (category req) (budget req) (continent req)
                (Z.min eff 6) st Hbad) as [e He].
    destruct (generate_frame (category req) (budget req) (continent req)
                (Z.min eff 6) st) as (Hgdb & _).
    rewrite He in Hb. rewrite Hb. simpl. by rewrite Hgdb.
  - rewrite backfill_skipped by assumption. by split.
Qed.

End ParseFailureFacts.

(** C6, as stated, fails in the listing: both calls of the generator sit
    in a [try] whose handler logs the error and goes on. With an empty
    collection and a model whose answer is not JSON, the listing returns an
    empty response; the error the generator raised carries the decoder's
    message, not the text. *)
Lemma unparsable_completion_is_swallowed :
  let W := Sample.model "Sure! Here are some ideas" in
  let gen := Suggestions.generate_suggestions (L := Sample.library)
               None None None 12 Sample.empty_store in
  let out := Suggestions.get_suggestions (B := Sample.builtins) (L := Sample.library)
               Sample.request Sample.empty_store in
  Suggestions.json_loads (Library := Sample.library)
    (Suggestions.strip_code_fence (PyStr.strip "Sure! Here are some ideas"))
  = inl "Expecting value: line 1 column 1 (char 0)"
  ∧ gen.1 = Raise (ValueError
                     "AI returned invalid JSON: Expecting value: line 1 column 1 (char 0)")
  ∧ out.1 = Ok {| Suggestions.total := 0; Suggestions.suggestions := [];
                  Suggestions.filters_applied := ∅ |}.
Proof. repeat split. Qed.

(** C6 (amended). The generator does not retry: for every completion whose
    text (the fence removed) fails to parse as JSON it asks the model once,
    logs the decoder's message and the text, and raises a [ValueError] whose
    message is "AI returned invalid JSON: " followed by the decoder's
    message. The listing does not pass this error on: both of its calls of
    the generator log the error and continue. So when no completion parses,
    the listing stores nothing, and where it called the generator (the
    collection is empty, or a filter is supplied and nothing matches) it
    answers with an empty page and total 0. *)
Theorem parse_failure_logged_not_raised {B : Builtins} {L : Suggestions.Library}
    {W : Suggestions.World} :
  (∀ (c b k : option string) (n : Z) (st : Suggestions.state) (raw msg : string),
     Suggestions.chat (Suggestions.EvGenerate c b k n :: Suggestions.trace st)
       (Suggestions.build_prompt c b k n) = Suggestions.Completion raw →
     Suggestions.json_loads (Suggestions.strip_code_fence (PyStr.strip raw)) = inl msg →
     let out := Suggestions.generate_suggestions c b k n st in
     out.1 = Raise (ValueError ("AI returned invalid JSON: " +:+ msg))
     ∧ Suggestions.trace out.2
       = [ Suggestions.EvLogError
             ("Response content: " +:+ Suggestions.strip_code_fence (PyStr.strip raw));
           Suggestions.EvLogError ("JSON parsing error: " +:+ msg);
           Suggestions.EvChat (Suggestions.build_prompt c b k n);
           Suggestions.EvGenerate c b k n ] ++ Suggestions.trace st
     ∧ Suggestions.db out.2 = Suggestions.db st)
  ∧ (∀ (req : Suggestions.Request) (st : Suggestions.state),
       truthy_opt (Suggestions.suggestion_id req) = false →
       (∀ tr prompt, Suggestions.unparsable (Suggestions.chat tr prompt)) →
       let out := Suggestions.get_suggestions req st in
       Suggestions.db out.2 = Suggestions.db st
       ∧ (Suggestions.sort_by_rating_desc [] = [] →
          Suggestions.matching (Suggestions.query_of req) st = [] →
          Suggestions.db st = [] ∨ Suggestions.filter_supplied req = true →
          (∃ c b k n, In (Suggestions.EvGenerate c b k n) (Suggestions.trace out.2))
          ∧ out.1 = Ok {| Suggestions.total := 0; Suggestions.suggestions := [];
                          Suggestions.filters_applied := Suggestions.query_of req |})).
Proof.
  split.
  - intros c b k n st raw msg Hchat Hjson out. subst out.
    rewrite (generate_unparsable c b k n st raw msg Hchat Hjson). by repeat split.
  - intros req st Hid Hbad out.
    destruct (get_suggestions_final req st Hid) as (Hdb & l1 & Htr).
    destruct (get_suggestions_run req st Hid) as (page & total & r & Hb & Hr & Hrun).
    fold out in Hdb, Htr, Hrun.
    destruct (backfill_when_unparsable req (Suggestions.query_of req)
                (Suggestions.filter_supplied req) (Suggestions.effective_limit_of req)
                (Z.of_nat (length (Suggestions.matching (Suggestions.query_of req)
                                     (Suggestions.seeded st))))
                (Suggestions.page_of (Suggestions.query_of req) (Suggestions.skip req)
                   (Suggestions.effective_limit_of req) (Suggestions.seeded st))
                (Suggestions.queried req st) Hid Hbad) as [Hb1 Hb2].
    pose proof (seeded_db_when_unparsable st Hbad) as Hseed.
    split; [by rewrite Hdb, Hb2|].
    intros Hsort Hnone Hcalled.
    assert (Hnone' : Suggestions.matching (Suggestions.query_of req)
                       (Suggestions.seeded st) = [])
      by (unfold Suggestions.matching in *; by rewrite Hseed).
    assert (Hpage : Suggestions.page_of (Suggestions.query_of req) (Suggestions.skip req)
                      (Suggestions.effective_limit_of req) (Suggestions.seeded st) = []).
    { unfold Suggestions.page_of. rewrite Hnone', Hsort. by rewrite drop_nil, take_nil. }
    split.
    + destruct (listing_after_query req st Hid) as (l2 & H2). fold out in H2.
      destruct (Suggestions.db st) as [|d0 l0] eqn:Hst.
      * destruct (seed_asks_for_twelve st Hst) as (l3 & H3).
        exists None, None, None, 12. rewrite H2, H3.
        apply in_or_app. right. right. right. apply in_or_app. right. by left.
      * destruct Hcalled as [?|Hf]; [discriminate|].
        rewrite Hf, Hnone' in Htr. cbn [length] in Htr.
        change (Z.of_nat 0) with 0 in Htr.
        destruct (backfill_asks req (Suggestions.query_of req)
                    (Suggestions.effective_limit_of req)
                    (Suggestions.page_of (Suggestions.query_of req) (Suggestions.skip req)
                       (Suggestions.effective_limit_of req) (Suggestions.seeded st))
                    (Suggestions.queried req st) Hid) as (l3 & H3).
        eexists _, _, _, _. rewrite Htr, H3.
        apply in_or_app. right. apply in_or_app. right. by left.
    + rewrite Hb1 in Hb. injection Hb as <- <-.
      set (sb := (Suggestions.backfill _ _ _ _ _ _ _).2) in *.
      rewrite Hnone', Hpage in Hr. cbn [length] in Hr.
      change (Z.of_nat 0) with 0 in Hr.
      destruct (respond_run 0 [] (Suggestions.query_of req) sb)
        as (r' & Hr' & _ & Hnil).
      rewrite Hr in Hr'. injection Hr' as <-.
      rewrite Hrun, (Hnil eq_refl). reflexivity.
Qed.

(** C6 (amended) on an empty collection and a model whose answer is not
    JSON. *)
Lemma parse_failure_logged_not_raised_witness :
  let W := Sample.model "Sure! Here are some ideas" in
  let out := Suggestions.get_suggestions (B := Sample.builtins) (L := Sample.library)
               Sample.request Sample.empty_store in
  Suggestions.db out.2 = []
  ∧ out.1 = Ok {| Suggestions.total := 0; Suggestions.suggestions := [];
                  Suggestions.filters_applied := ∅ |}.
Proof.
  intros W out.
  destruct (parse_failure_logged_not_raised (B := Sample.builtins)
              (L := Sample.library) (W := W)) as [_ Hlisting].
  destruct (Hlisting Sample.request Sample.empty_store) as [Hdb Hresp].
  - reflexivity.
  - intros tr prompt. exists "Sure! Here are some ideas", "Expecting value: line 1 column 1 (char 0)".
    split; reflexivity.
  - split; [exact Hdb|].
    destruct Hresp as [_ Hout]; [reflexivity|reflexivity|by left|exact Hout].
Defined.

(* ================================================================== *)
(** * Further properties of the code *)
(* ================================================================== *)

(** ** The grouping of forecast readings by day *)

Section GroupingFacts.
Import Weather.
Context {B : Builtins}.

(** A run starts with the reading it was opened for. *)
Lemma date_runs_head (item : Reading) (rest : list Reading) :
  ∃ run runs, date_runs (item :: rest) = (item :: run) :: runs.
Proof.
  cbn [date_runs]. destruct (date_runs rest) as [|[|next run] runs]; eauto.
  case_bool_decide; eauto.
Qed.

(** Readings of one date form a single run. *)
Lemma date_runs_one_date (d : Z) (item : Reading) (run : list Reading) :
  Forall (λ r, local_date (r_dt r) = d) (item :: run) →
  date_runs (item :: run) = [item :: run].
Proof.
  revert item. induction run as [|next run IH]; intros item Hd; [reflexivity|].
  apply Forall_cons in Hd as [Hitem Hrun].
  change (date_runs (item :: next :: run))
    with (match date_runs (next :: run) with
          | (next :: run) :: runs =>
              if bool_decide (local_date (r_dt item) = local_date (r_dt next))
              then (item :: next :: run) :: runs
              else [item] :: (next :: run) :: runs
          | _ => [[item]]
          end).
  rewrite (IH next Hrun).
  apply Forall_cons in Hrun as [Hnext _].
  rewrite bool_decide_true by congruence. reflexivity.
Qed.

(** A reading of another date closes the run before it. *)
Lemma date_runs_other_date (d : Z) (first item : Reading) (run rest : list Reading) :
  Forall (λ r, local_date (r_dt r) = d) (first :: run) →
  local_date (r_dt item) ≠ d →
  date_runs ((first :: run) ++ item :: rest)
  = (first :: run) :: date_runs (item :: rest).
Proof.
  revert first. induction run as [|next run IH]; intros first Hd Hitem.
  - apply Forall_cons in Hd as [Hfirst _].
    change (date_runs ([first] ++ item :: rest))
      with (match date_runs (item :: rest) with
            | (next :: run) :: runs =>
                if bool_decide (local_date (r_dt first) = local_date (r_dt next))
                then (first :: next :: run) :: runs
                else [first] :: (next :: run) :: runs
            | _ => [[first]]
            end).
    destruct (date_runs_head item rest) as (run' & runs' & ->).
    rewrite bool_decide_false by congruence. reflexivity.
  - apply Forall_cons in Hd as [Hfirst Hrun].
    change (date_runs ((first :: next :: run) ++ item :: rest))
      with (match date_runs ((next :: run) ++ item :: rest) with
            | (next :: run) :: runs =>
                if bool_decide (local_date (r_dt first) = local_date (r_dt next))
                then (first :: next :: run) :: runs
                else [first] :: (next :: run) :: runs
            | _ => [[first]]
            end).
    rewrite (IH next Hrun Hitem).
    apply Forall_cons in Hrun as [Hnext _].
    rewrite bool_decide_true by congruence. reflexivity.
Qed.

(** The loop, started in the middle of a run. *)
Lemma group_loop (rest : list Reading) :
  ∀ (daily_forecasts : list (option DayForecast)) (d : Z)
    (first : Reading) (run : list Reading),
    Forall (λ r, local_date (r_dt r) = d) (first :: run) →
    (let '(daily_forecasts', _, day_data) :=
       fold_left group_step rest (daily_forecasts, Some d, first :: run) in
     match day_data with
     | [] => daily_forecasts'
     | _ => daily_forecasts' ++ [_aggregate_day_forecast day_data]
     end)
    = daily_forecasts
      ++ map _aggregate_day_forecast (date_runs ((first :: run) ++ rest)).
Proof.
  induction rest as [|item rest IH]; intros dfs d first run Hd.
  - rewrite app_nil_r, (date_runs_one_date d) by assumption. reflexivity.
  - cbn [fold_left]. unfold group_step at 2.
    case_bool_decide as Hnew.
    + assert (local_date (r_dt item) ≠ d) as Hother by congruence.
      rewrite (IH _ (local_date (r_dt item)) item [])
        by (by apply Forall_singleton).
      rewrite (date_runs_other_date d) by assumption.
      rewrite <-app_assoc. reflexivity.
    + assert (local_date (r_dt item) = d) as Hsame by congruence.
      change ((first :: run) ++ [item]) with (first :: (run ++ [item])).
      rewrite (IH _ d first (run ++ [item])).
      * rewrite <-!app_comm_cons, <-app_assoc. reflexivity.
      * rewrite app_comm_cons. apply Forall_app. split; [assumption|].
        by apply Forall_singleton.
Qed.

Lemma group_by_day_runs (readings : list Reading) :
  group_by_day readings = map _aggregate_day_forecast (date_runs readings).
Proof.
  unfold group_by_day. destruct readings as [|item rest]; [reflexivity|].
  cbn [fold_left]. unfold group_step at 2.
  rewrite bool_decide_true by discriminate.
  apply (group_loop rest [] (local_date (r_dt item)) item []).
  by apply Forall_singleton.
Qed.

(** The runs are what their name says: they make up the readings, none
    is empty, each is of one date, and two neighbours are of different
    dates. *)
Lemma date_runs_spec (readings : list Reading) :
  concat (date_runs readings) = readings
  ∧ Forall (λ run, run ≠ []
                   ∧ ∃ d, Forall (λ r, local_date (r_dt r) = d) run)
      (date_runs readings)
  ∧ ∀ i run run' a b,
      date_runs readings !! i = Some run →
      date_runs readings !! S i = Some run' →
      a ∈ run → b ∈ run' →
      local_date (r_dt a) ≠ local_date (r_dt b).
Proof.
  induction readings as [|item rest (Hcat & Hruns & Hadj)].
  { repeat split; [constructor|]. intros ????? Hi. discriminate Hi. }
  cbn [date_runs].
  destruct (date_runs rest) as [|[|next run] runs] eqn:Hrest.
  - cbn in Hcat. subst rest. repeat split.
    + repeat constructor; [discriminate|]. exists (local_date (r_dt item)).
      by apply Forall_singleton.
    + intros i ???? _ Hi. destruct i; discriminate Hi.
  - apply Forall_cons in Hruns as [[Hne _] _]. done.
  - apply Forall_cons in Hruns as [[_ [d Hd]] Hruns].
    pose proof Hd as Hd'. apply Forall_cons in Hd' as [Hnext _].
    case_bool_decide as Hsame.
    + repeat split.
      * cbn [concat] in *. rewrite <-Hcat. reflexivity.
      * constructor; [|assumption]. split; [discriminate|].
        exists d. constructor; [congruence|assumption].
      * intros i r r' a b Hi Hi' Ha Hb. destruct i as [|i].
        -- injection Hi as <-. apply elem_of_cons in Ha as [->|Ha].
           ++ rewrite Hsame.
              apply (Hadj 0%nat (next :: run) r' next b);
                [reflexivity|exact Hi'|by left|assumption].
           ++ apply (Hadj 0%nat (next :: run) r' a b);
                [reflexivity|exact Hi'|assumption|assumption].
        -- apply (Hadj (S i) r r' a b); assumption.
    + repeat split.
      * cbn [concat] in *. rewrite <-Hcat. reflexivity.
      * constructor.
        { split; [discriminate|]. exists (local_date (r_dt item)).
          by apply Forall_singleton. }
        constructor; [|assumption]. split; [discriminate|]. by exists d.
      * intros i r r' a b Hi Hi' Ha Hb. destruct i as [|i].
        -- injection Hi as <-. injection Hi' as <-.
           apply list_elem_of_singleton in Ha as ->.
           rewrite Forall_forall in Hd. rewrite (Hd b Hb), <-Hnext. exact Hsame.
        -- apply (Hadj i r r' a b); assumption.
Qed.

(** No entry of the result is the empty dictionary. *)
Lemma group_by_day_entries (readings : list Reading) (entry : option DayForecast) :
  entry ∈ group_by_day readings → entry ≠ None.
Proof.
  destruct (date_runs_spec readings) as (_ & Hruns & _).
  rewrite Forall_forall in Hruns. rewrite group_by_day_runs.
  intros (run & <- & Hin%list_elem_of_In)%list_elem_of_In%in_map_iff.
  destruct (Hruns run Hin) as [Hne _]. by destruct run.
Qed.

End GroupingFacts.

(** X1. For every list of 3-hour readings, the loop of [get_forecast]
    groups them into the maximal runs of consecutive readings of one local
    date and summarises each run: the runs, in order, make up the readings;
    no run is empty, so no entry of the result is the empty dictionary; each
    run is of one date and two neighbouring runs are of different dates. So
    a date that comes back after another one starts a new entry. *)
Theorem group_by_day_consecutive_runs {B : Builtins}
    (readings : list Weather.Reading) :
  Weather.group_by_day readings
  = map Weather._aggregate_day_forecast (Weather.date_runs readings)
  ∧ concat (Weather.date_runs readings) = readings
  ∧ (∀ entry, entry ∈ Weather.group_by_day readings → entry ≠ None)
  ∧ (∀ run, run ∈ Weather.date_runs readings →
       ∃ d, Forall (λ r, local_date (Weather.r_dt r) = d) run)
  ∧ (∀ i run run' a b,
       Weather.date_runs readings !! i = Some run →
       Weather.date_runs readings !! S i = Some run' →
       a ∈ run → b ∈ run' →
       local_date (Weather.r_dt a) ≠ local_date (Weather.r_dt b)).
Proof.
  destruct (date_runs_spec readings) as (Hcat & Hruns & Hadj).
  rewrite Forall_forall in Hruns.
  repeat split; [apply group_by_day_runs|exact Hcat| | |exact Hadj].
  - apply group_by_day_entries.
  - intros run Hin. by destruct (Hruns run Hin) as [_ Hd].
Qed.

(** ** The forecast lookup *)

Section ForecastFacts.
Import Weather.
Context {B : Builtins} {W : World}.

Lemma clamp_days_range (days : Z) : 1 ≤ clamp_days days ≤ 5.
Proof. unfold clamp_days. lia. Qed.

Lemma clamp_days_idem (days : Z) : clamp_days (clamp_days days) = clamp_days days.
Proof. unfold clamp_days. lia. Qed.

Lemma get_forecast_clamped (city : string) (days : Z) :
  get_forecast city days = get_forecast city (clamp_days days).
Proof.
  unfold get_forecast.
  change (Z.max 1 (Z.min (clamp_days days) 5)) with (clamp_days (clamp_days days)).
  rewrite clamp_days_idem. reflexivity.
Qed.

Lemma format_forecast_days (days : Z) (data : ForecastPayload) (stamp : Z) :
  ∃ f, format_forecast days data stamp = CachedForecast f
       ∧ (length (f_forecasts f) ≤ Z.to_nat days)%nat
       ∧ ∀ entry, entry ∈ f_forecasts f → entry ≠ None.
Proof.
  eexists. split; [reflexivity|]. cbn [f_forecasts]. split.
  - rewrite length_take. lia.
  - intros entry (i & Hi & _)%elem_of_take.
    apply list_elem_of_lookup_2 in Hi. by apply group_by_day_entries in Hi.
Qed.

End ForecastFacts.

(** X2. With an API key and no fresh entry, [get_forecast] works for the
    number of days clamped to 1..5, whatever number is passed: the call is
    the call for the clamped number (so all numbers of days with the same
    clamped value share one cache entry), one request for 8 readings per day
    goes upstream, and a good answer gives a forecast of at most that many
    days, none of them empty, however many readings came back. *)
Theorem forecast_days_clamped {B : Builtins} {W : Weather.World}
    (city : string) (days : Z) (st : Weather.state) :
  let n := Weather.clamp_days days in
  let key := Weather._get_cache_key city ("forecast_" +:+ pretty n) in
  let out := Weather.get_forecast city days st in
  truthy_opt (Weather.api_key (Weather.self st)) = true →
  Weather.fresh_entry st key = None →
  1 ≤ n ≤ 5
  ∧ out = Weather.get_forecast city n st
  ∧ Weather.upstream_calls out.2
    = Weather.EvGetForecast city (n * 8) :: Weather.upstream_calls st
  ∧ ∀ payload,
      Weather.api_forecast (Weather.trace (Weather.after_check st key)) city (n * 8)
      = Weather.UpOk payload →
      ∃ f, out.1 = Ok (Some (Weather.CachedForecast f))
           ∧ (length (Weather.f_forecasts f) ≤ Z.to_nat n)%nat
           ∧ ∀ entry, entry ∈ Weather.f_forecasts f → entry ≠ None.
Proof.
  intros n key out Hkey Hmiss. subst out.
  split; [apply clamp_days_range|].
  split; [by rewrite get_forecast_clamped|].
  rewrite forecast_miss by assumption.
  fold (Weather.clamp_days days). fold n. fold key.
  split.
  - destruct (Weather.api_forecast _ city (n * 8)); reflexivity.
  - intros payload ->.
    destruct (format_forecast_days n payload
                (Weather.clock (Weather.ticks (Weather.after_check st key))))
      as (f & Hf & Hlen & Hsome).
    exists f. cbv zeta. rewrite Hf. auto.
Qed.

(** X2 at a request for 9 days answered with the readings of two days. *)
Lemma forecast_days_clamped_witness :
  let W := Sample.world_two_days 0 in
  let st := Sample.start (Sample.svc_empty (Some "k3y")) in
  let out := Weather.get_forecast (B := Sample.builtins) "Paris" 9 st in
  out = Weather.get_forecast (B := Sample.builtins) "Paris" 5 st
  ∧ Weather.upstream_calls out.2 = [Weather.EvGetForecast "Paris" 40].
Proof.
  intros W st out.
  destruct (forecast_days_clamped (B := Sample.builtins) (W := W) "Paris" 9 st)
    as (_ & Heq & Hcalls & _); [reflexivity|reflexivity|].
  split; [exact Heq|exact Hcalls].
Defined.

(** X3. A current-weather answer fetched upstream is served from the cache
    to the next lookup of the same place: after a lookup that missed and got
    a good answer, a second lookup for any spelling with the same cache key
    (other case, surrounding blanks), made while the stored entry is younger
    than one hour, returns the very same data, sends nothing upstream and
    leaves the cache as the first lookup left it. *)
Theorem current_weather_round_trip {B : Builtins} {W : Weather.World}
    (city city' : string) (st : Weather.state) (payload : Weather.CurrentPayload) :
  let key := Weather._get_cache_key city "current" in
  let first := Weather.get_current_weather city st in
  let second := Weather.get_current_weather city' first.2 in
  truthy_opt (Weather.api_key (Weather.self st)) = true →
  Weather.fresh_entry st key = None →
  Weather.api_weather (Weather.trace (Weather.after_check st key)) city
  = Weather.UpOk payload →
  Weather._get_cache_key city' "current" = key →
  (∀ data fetched_at,
     Weather.cache (Weather.self first.2) !! key = Some (data, fetched_at) →
     Weather.clock (Weather.ticks first.2) - fetched_at < Weather.cache_duration) →
  (∃ w, first.1 = Ok (Some w))
  ∧ second.1 = first.1
  ∧ Weather.upstream_calls second.2 = Weather.upstream_calls first.2
  ∧ Weather.cache (Weather.self second.2) = Weather.cache (Weather.self first.2).
Proof.
  intros key first second Hkey Hmiss Hup Hsame Hage. subst second first.
  revert Hage. rewrite current_miss by assumption. fold key. rewrite Hup.
  cbv zeta. cbn [fst snd]. intros Hage.
  set (w := Weather.format_current payload _) in *.
  set (st2 := Weather.Build_state _ _ _) in *.
  assert (Weather.fresh_entry st2 (Weather._get_cache_key city' "current") = Some w)
    as Hhit.
  { rewrite Hsame. eapply fresh_entry_young.
    - subst st2. cbn [Weather.self Weather.cache]. apply lookup_insert_eq.
    - eapply Hage. subst st2. cbn [Weather.self Weather.cache].
      apply lookup_insert_eq. }
  rewrite (current_hit city' st2 w Hkey Hhit).
  split; [by exists w|]. repeat split.
Qed.

(** X3 at an empty cache: [Paris], then [  PARIS ] one second later. *)
Lemma current_weather_round_trip_witness :
  let W := Sample.world_up 0 in
  let st := Sample.start (Sample.svc_empty (Some "k3y")) in
  let first := Weather.get_current_weather (B := Sample.builtins) "Paris" st in
  let second := Weather.get_current_weather (B := Sample.builtins) "  PARIS " first.2 in
  second.1 = first.1
  ∧ Weather.upstream_calls second.2 = [Weather.EvGetWeather "Paris"].
Proof.
  intros W st first second.
  destruct (current_weather_round_trip (B := Sample.builtins) (W := W)
              "Paris" "  PARIS " st Sample.paris_now)
    as (_ & Hsame & Hcalls & _); try reflexivity.
  - intros data fetched_at Hin. vm_compute in Hin.
    injection Hin as _ <-. reflexivity.
  - split; [exact Hsame|exact Hcalls].
Defined.

(** X4. The same for forecasts: after a forecast lookup that missed and
    got a good answer, a second lookup for a spelling with the same key and
    a number of days with the same clamped value (say 5, then 9), made while
    the stored entry is younger than one hour, returns the same forecast and
    sends nothing upstream. *)
Theorem forecast_round_trip {B : Builtins} {W : Weather.World}
    (city city' : string) (days days' : Z) (st : Weather.state)
    (payload : Weather.ForecastPayload) :
  let n := Weather.clamp_days days in
  let key := Weather._get_cache_key city ("forecast_" +:+ pretty n) in
  let first := Weather.get_forecast city days st in
  let second := Weather.get_forecast city' days' first.2 in
  truthy_opt (Weather.api_key (Weather.self st)) = true →
  Weather.fresh_entry st key = None →
  Weather.api_forecast (Weather.trace (Weather.after_check st key)) city (n * 8)
  = Weather.UpOk payload →
  Weather.clamp_days days' = n →
  Weather._get_cache_key city' ("forecast_" +:+ pretty n) = key →
  (∀ data fetched_at,
     Weather.cache (Weather.self first.2) !! key = Some (data, fetched_at) →
     Weather.clock (Weather.ticks first.2) - fetched_at < Weather.cache_duration) →
  (∃ f, first.1 = Ok (Some f))
  ∧ second.1 = first.1
  ∧ Weather.upstream_calls second.2 = Weather.upstream_calls first.2
  ∧ Weather.cache (Weather.self second.2) = Weather.cache (Weather.self first.2).
Proof.
  intros n key first second Hkey Hmiss Hup Hdays Hsame Hage. subst second first.
  revert Hage. rewrite forecast_miss by assumption.
  fold (Weather.clamp_days days). fold n. fold key. rewrite Hup.
  cbv zeta. cbn [fst snd]. intros Hage.
  set (f := Weather.format_forecast n payload _) in *.
  set (st2 := Weather.Build_state _ _ _) in *.
  assert (Weather.fresh_entry st2
            (Weather._get_cache_key city'
               ("forecast_" +:+ pretty (Z.max 1 (Z.min days' 5)))) = Some f)
    as Hhit.
  { fold (Weather.clamp_days days'). rewrite Hdays, Hsame.
    eapply fresh_entry_young.
    - subst st2. cbn [Weather.self Weather.cache]. apply lookup_insert_eq.
    - eapply Hage. subst st2. cbn [Weather.self Weather.cache].
      apply lookup_insert_eq. }
  rewrite (forecast_hit city' days' st2 f Hkey Hhit).
  split; [by exists f|]. repeat split.
Qed.

(** X4 at an empty cache: five days of [Paris], then nine of [paris]. *)
Lemma forecast_round_trip_witness :
  let W := Sample.world_two_days 0 in
  let st := Sample.start (Sample.svc_empty (Some "k3y")) in
  let first := Weather.get_forecast (B := Sample.builtins) "Paris" 5 st in
  let second := Weather.get_forecast (B := Sample.builtins) "paris" 9 first.2 in
  second.1 = first.1
  ∧ Weather.upstream_calls second.2 = [Weather.EvGetForecast "Paris" 40].
Proof.
  intros W st first second.
  destruct (forecast_round_trip (B := Sample.builtins) (W := W)
              "Paris" "paris" 5 9 st
              {| Weather.p_list := Sample.two_days; Weather.p_city_name := "Paris";
                 Weather.p_city_country := "FR" |})
    as (_ & Hsame & Hcalls & _); try reflexivity.
  - intros data fetched_at Hin.
    apply (f_equal (fmap snd)) in Hin. vm_compute in Hin.
    injection Hin as <-. reflexivity.
  - split; [exact Hsame|exact Hcalls].
Defined.

(** ** What the lookups do to the cache *)

Section CacheFacts.
Import Weather.
Context {B : Builtins} {W : World}.

Lemma append_empty (s t : string) : s +:+ t = "" → t = "".
Proof. destruct s; [trivial|]. rewrite append_cons. discriminate. Qed.

Lemma last_char_app (s t : string) : t ≠ "" → last_char (s +:+ t) = last_char t.
Proof.
  intros Ht. induction s as [|c s IH]; [reflexivity|].
  rewrite append_cons. cbn [last_char].
  destruct (s +:+ t) as [|c' u] eqn:Hu; [|exact IH].
  by apply append_empty in Hu.
Qed.

Lemma key_current_last (city : string) :
  last_char (_get_cache_key city "current") = Some "t"%char.
Proof. unfold _get_cache_key. by rewrite last_char_app. Qed.

Lemma key_forecast_last (city : string) (n : Z) :
  1 ≤ n ≤ 5 →
  last_char (_get_cache_key city ("forecast_" +:+ pretty n)) ≠ Some "t"%char.
Proof.
  intros Hn. unfold _get_cache_key.
  assert (n = 1 ∨ n = 2 ∨ n = 3 ∨ n = 4 ∨ n = 5) as Hcases by lia.
  destruct Hcases as [-> | [-> | [-> | [-> | ->]]]];
    by rewrite last_char_app.
Qed.

Lemma fresh_entry_Some (st : state) (key : string) (data : cached) :
  fresh_entry st key = Some data →
  ∃ fetched_at, cache (self st) !! key = Some (data, fetched_at).
Proof.
  unfold fresh_entry.
  destruct (cache (self st) !! key) as [[data' ts]|]; [|discriminate].
  destruct (_ <? _); [|discriminate]. intros Heq. injection Heq as ->. eauto.
Qed.

(** A lookup of current weather leaves the cache alone and returns nothing
    or what the cache held under the key, or stores the current weather it
    returns under the key. *)
Lemma current_outcome (city : string) (st : state) :
  let key := _get_cache_key city "current" in
  let out := get_current_weather city st in
  api_key (self out.2) = api_key (self st)
  ∧ ((cache (self out.2) = cache (self st)
      ∧ (out.1 = Ok None
         ∨ ∃ data fetched_at, out.1 = Ok (Some data)
                              ∧ cache (self st) !! key = Some (data, fetched_at)))
     ∨ ∃ w stored_at, out.1 = Ok (Some (CachedWeather w))
                      ∧ cache (self out.2)
                        = <[key := (CachedWeather w, stored_at)]> (cache (self st))).
Proof.
  intros key out. subst out.
  destruct (truthy_opt (api_key (self st))) eqn:Hkey;
    [|rewrite current_without_key by assumption; auto].
  destruct (fresh_entry st key) as [data|] eqn:Hc.
  - rewrite (current_hit city st data Hkey Hc).
    apply fresh_entry_Some in Hc as [ts Hin]. split; [reflexivity|].
    left. split; [reflexivity|]. right. eauto.
  - rewrite current_miss by assumption. fold key.
    destruct (api_weather _ city); auto.
    split; [reflexivity|]. right. eexists _, _. split; reflexivity.
Qed.

Lemma forecast_outcome (city : string) (days : Z) (st : state) :
  let key := _get_cache_key city ("forecast_" +:+ pretty (clamp_days days)) in
  let out := get_forecast city days st in
  api_key (self out.2) = api_key (self st)
  ∧ ((cache (self out.2) = cache (self st)
      ∧ (out.1 = Ok None
         ∨ ∃ data fetched_at, out.1 = Ok (Some data)
                              ∧ cache (self st) !! key = Some (data, fetched_at)))
     ∨ ∃ f stored_at, out.1 = Ok (Some (CachedForecast f))
                      ∧ cache (self out.2)
                        = <[key := (CachedForecast f, stored_at)]> (cache (self st))).
Proof.
  intros key out. subst out.
  destruct (truthy_opt (api_key (self st))) eqn:Hkey;
    [|rewrite forecast_without_key by assumption; auto].
  destruct (fresh_entry st key) as [data|] eqn:Hc.
  - rewrite (forecast_hit city days st data Hkey Hc).
    apply fresh_entry_Some in Hc as [ts Hin]. split; [reflexivity|].
    left. split; [reflexivity|]. right. eauto.
  - rewrite forecast_miss by assumption.
    fold (clamp_days days). fold key.
    destruct (api_forecast _ city _); auto.
    split; [reflexivity|]. right. eexists _, _. split; reflexivity.
Qed.

Lemma well_keyed_insert (c : gmap string (cached * Z)) (key : string)
    (data : cached) (stored_at : Z) :
  well_keyed c →
  is_current data = bool_decide (last_char key = Some "t"%char) →
  well_keyed (<[key := (data, stored_at)]> c).
Proof.
  intros Hc Hkind k d ts.
  destruct (decide (k = key)) as [->|Hne].
  - rewrite lookup_insert_eq. intros Heq. injection Heq as <- <-. exact Hkind.
  - rewrite lookup_insert_ne by done. apply Hc.
Qed.

End CacheFacts.

(** X5. Current weather and forecasts never get mixed up in the cache.
    The keys of the two kinds differ in their last character for every city
    and number of days; so in a cache where every entry sits under a key of
    its kind, a current-weather lookup returns nothing or current weather, a
    forecast lookup returns nothing or a forecast, and both leave the cache
    in that shape. *)
Theorem lookups_keep_kinds {B : Builtins} {W : Weather.World}
    (city : string) (days : Z) (st : Weather.state) :
  Weather.well_keyed (Weather.cache (Weather.self st)) →
  (∀ data, (Weather.get_current_weather city st).1 = Ok (Some data) →
           Weather.is_current data = true)
  ∧ (∀ data, (Weather.get_forecast city days st).1 = Ok (Some data) →
             Weather.is_current data = false)
  ∧ Weather.well_keyed (Weather.cache (Weather.self (Weather.get_current_weather city st).2))
  ∧ Weather.well_keyed (Weather.cache (Weather.self (Weather.get_forecast city days st).2)).
Proof.
  intros Hwk.
  destruct (current_outcome city st)
    as [_ [[Hc [Hr|(d & ts & Hr & Hin)]]|(w & ts & Hr & Hc)]];
  destruct (forecast_outcome city days st)
    as [_ [[Hc' [Hr'|(d' & ts' & Hr' & Hin')]]|(f & ts' & Hr' & Hc')]];
  rewrite Hr, Hr', Hc, Hc'; repeat split;
    try (intros ? Heq; injection Heq as <-); try discriminate; try done;
    try (rewrite (Hwk _ _ _ Hin), key_current_last; by rewrite bool_decide_true);
    try (rewrite (Hwk _ _ _ Hin'); apply bool_decide_false, key_forecast_last,
           clamp_days_range);
    try (apply well_keyed_insert; [assumption|]; cbn [Weather.is_current];
         symmetry;
         first [ apply bool_decide_true, key_current_last
               | apply bool_decide_false, key_forecast_last, clamp_days_range ]).
Qed.

(** X5 at a cache with one entry of each kind. *)
Lemma lookups_keep_kinds_witness :
  let W := Sample.world_up (Weather.minutes 45) in
  let st := Sample.start Sample.svc_two_entries in
  on_ok (fmap Weather.is_current)
    (Weather.get_current_weather (B := Sample.builtins) "Paris" st).1 = Some (Some true)
  ∧ on_ok (fmap Weather.is_current)
      (Weather.get_forecast (B := Sample.builtins) "Paris" 3 st).1 = Some (Some false).
Proof.
  intros W st.
  destruct (lookups_keep_kinds (B := Sample.builtins) (W := W) "Paris" 3 st)
    as (Hcur & Hfc & _).
  - intros key data ts Hin.
    destruct (decide (key = "paris_forecast_3")) as [->|Hne1].
    { vm_compute in Hin. by injection Hin as <- <-. }
    destruct (decide (key = "paris_current")) as [->|Hne2].
    { vm_compute in Hin. by injection Hin as <- <-. }
    exfalso. revert Hin. unfold st, Sample.start, Sample.svc_two_entries.
    cbn [Weather.self Weather.cache].
    rewrite lookup_insert_ne by done. rewrite lookup_singleton_ne by done.
    discriminate.
  - split.
    + specialize (Hcur Sample.paris_cached eq_refl). by rewrite <-Hcur.
    + specialize (Hfc Sample.paris_forecast eq_refl). by rewrite <-Hfc.
Defined.

(** X6. No lookup evicts or rewrites another entry. Both lookups leave
    the API key alone, leave every entry under a key other than the one
    they look up exactly as it was, and never remove an entry: a key cached
    before is cached after, expired or not. *)
Theorem lookups_never_evict {B : Builtins} {W : Weather.World}
    (city : string) (days : Z) (st : Weather.state) :
  let current := (Weather.get_current_weather city st).2 in
  let forecast := (Weather.get_forecast city days st).2 in
  Weather.api_key (Weather.self current) = Weather.api_key (Weather.self st)
  ∧ Weather.api_key (Weather.self forecast) = Weather.api_key (Weather.self st)
  ∧ (∀ key, key ≠ Weather._get_cache_key city "current" →
       Weather.cache (Weather.self current) !! key
       = Weather.cache (Weather.self st) !! key)
  ∧ (∀ key,
       key ≠ Weather._get_cache_key city
               ("forecast_" +:+ pretty (Weather.clamp_days days)) →
       Weather.cache (Weather.self forecast) !! key
       = Weather.cache (Weather.self st) !! key)
  ∧ (∀ key, is_Some (Weather.cache (Weather.self st) !! key) →
       is_Some (Weather.cache (Weather.self current) !! key)
       ∧ is_Some (Weather.cache (Weather.self forecast) !! key)).
Proof.
  intros current forecast. subst current forecast.
  destruct (current_outcome city st) as [Hk [[Hc _]|(w & ts & _ & Hc)]];
  destruct (forecast_outcome city days st) as [Hk' [[Hc' _]|(f & ts' & _ & Hc')]];
  rewrite Hc, Hc'; repeat split; try assumption;
    try (intros; rewrite lookup_insert_ne by congruence; reflexivity);
    match goal with
    | |- is_Some (<[?k := _]> _ !! ?x) =>
        destruct (decide (x = k)) as [-> | ];
        [rewrite lookup_insert_eq; eauto
        |rewrite lookup_insert_ne by congruence; assumption]
    end.
Qed.

(** ** Clearing the cache, its statistics, the summary and the route *)

Section MaintenanceFacts.
Import Weather.
Context {B : Builtins} {W : World} {R : Runtime}.

Lemma fresh_entry_cleared (st : state) (key : string) :
  fresh_entry (clear_cache st).2 key = None.
Proof. unfold fresh_entry. cbn [clear_cache modify snd self cache]. by rewrite lookup_empty. Qed.

Lemma is_cache_valid_run (timestamp : Z) (st : state) :
  _is_cache_valid timestamp st
  = (Ok (clock (ticks st) - timestamp <? cache_duration),
     {| self := self st; ticks := S (ticks st); trace := trace st |}).
Proof. reflexivity. Qed.

(** Counting reads the clock once per item and changes nothing else. *)
Lemma count_valid_run (items : list (string * (cached * Z))) :
  ∀ st, ∃ n,
    count_valid items st
    = (Ok n, {| self := self st; ticks := (ticks st + length items)%nat;
                trace := trace st |})
    ∧ 0 ≤ n ≤ Z.of_nat (length items)
    ∧ ∀ now, (∀ i, (i < length items)%nat → clock (ticks st + i) = now) →
             n = Z.of_nat (length (filter (λ kv, now - kv.2.2 < cache_duration) items)).
Proof.
  induction items as [|[key [data timestamp]] rest IH]; intros st.
  - exists 0. rewrite Nat.add_0_r. repeat split; [by destruct st|done|done].
  - cbn [count_valid]. rewrite bind_run, is_cache_valid_run.
    set (st1 := Build_state _ _ _).
    destruct (IH st1) as (n & Hrun & Hn & Hnow).
    rewrite bind_run, Hrun.
    eexists. split; [|split].
    + unfold mret, M_ret. f_equal. subst st1. cbn [self ticks trace length].
      f_equal. lia.
    + cbn [length]. destruct (_ <? _); lia.
    + intros now Hclock. rewrite filter_cons. cbn [fst snd].
      rewrite (Hnow now).
      2:{ intros i Hi. subst st1. cbn [ticks].
          rewrite <-(Hclock (S i)) by (cbn [length]; lia). f_equal. lia. }
      rewrite <-(Hclock 0%nat), Nat.add_0_r by (cbn [length]; lia).
      destruct (Z.ltb_spec (clock (ticks st) - timestamp) cache_duration);
        [rewrite decide_True by done|rewrite decide_False by lia];
        cbn [length]; lia.
Qed.

(** The size of a filtered map, counted on its items. *)
Lemma size_fresh_at (now : Z) (c : gmap string (cached * Z)) :
  size (fresh_at now c)
  = length (filter (λ kv : string * (cached * Z), now - kv.2.2 < cache_duration)
              (map_to_list c)).
Proof.
  unfold fresh_at. rewrite map_filter_alt.
  apply map_size_list_to_map.
  eapply sublist_NoDup; [apply (NoDup_fst_map_to_list c)|].
  apply fmap_sublist, sublist_filter.
Qed.

(** The route passes the service's answer on; [None] becomes a 404. *)
Lemma weather_info_run (destination : string) (forecast_days : option Z) (st : state) :
  let lookup :=
    match forecast_days with
    | Some n => if n =? 0 then get_current_weather destination
                else get_forecast destination n
    | None => get_current_weather destination
    end in
  (get_weather_info destination forecast_days st).2 = (lookup st).2
  ∧ ((∃ data, (lookup st).1 = Ok (Some data)
              ∧ (get_weather_info destination forecast_days st).1 = Ok data)
     ∨ ((lookup st).1 = Ok None
        ∧ ∃ detail, (get_weather_info destination forecast_days st).1
                    = Raise (HTTPException 404 detail))).
Proof.
  intros lookup. subst lookup. unfold get_weather_info. rewrite try_except_run.
  destruct forecast_days as [n|]; [destruct (n =? 0) eqn:Hn|]; cbn [negb].
  - rewrite bind_run.
    destruct (current_outcome destination st)
      as [_ [[_ [Hr|(d & ts & Hr & _)]]|(w & ts & Hr & _)]];
      destruct (get_current_weather destination st) as [r st']; cbn [fst snd] in *;
      subst r; eauto.
  - rewrite bind_run. fold (clamp_days n). rewrite <-get_forecast_clamped.
    destruct (forecast_outcome destination n st)
      as [_ [[_ [Hr|(d & ts & Hr & _)]]|(w & ts & Hr & _)]];
      destruct (get_forecast destination n st) as [r st']; cbn [fst snd] in *;
      subst r; eauto.
  - rewrite bind_run.
    destruct (current_outcome destination st)
      as [_ [[_ [Hr|(d & ts & Hr & _)]]|(w & ts & Hr & _)]];
      destruct (get_current_weather destination st) as [r st']; cbn [fst snd] in *;
      subst r; eauto.
Qed.

End MaintenanceFacts.

(** X7. [clear_cache] forgets everything and nothing else: it cannot
    fail, leaves the API key and the record of requests alone, and empties
    the cache; so, with an API key, the next lookup of any city, current
    weather or forecast, sends one request upstream, however fresh the entry
    was that the cache held before. *)
Theorem clear_cache_forgets {B : Builtins} {W : Weather.World}
    (city : string) (days : Z) (st : Weather.state) :
  let cleared := (Weather.clear_cache st).2 in
  truthy_opt (Weather.api_key (Weather.self st)) = true →
  (Weather.clear_cache st).1 = Ok tt
  ∧ Weather.cache (Weather.self cleared) = ∅
  ∧ Weather.api_key (Weather.self cleared) = Weather.api_key (Weather.self st)
  ∧ Weather.trace cleared = Weather.trace st
  ∧ Weather.upstream_calls (Weather.get_current_weather city cleared).2
    = Weather.EvGetWeather city :: Weather.upstream_calls st
  ∧ Weather.upstream_calls (Weather.get_forecast city days cleared).2
    = Weather.EvGetForecast city (Weather.clamp_days days * 8)
      :: Weather.upstream_calls st.
Proof.
  intros cleared Hkey. subst cleared. repeat split.
  - rewrite current_miss_calls; [reflexivity|exact Hkey|apply fresh_entry_cleared].
  - rewrite forecast_miss; [|exact Hkey|apply fresh_entry_cleared].
    fold (Weather.clamp_days days).
    destruct (Weather.api_forecast _ city _); reflexivity.
Qed.

(** X7 at an entry five minutes old: served from the cache before the
    clearing, fetched upstream after it. *)
Lemma clear_cache_forgets_witness :
  let W := Sample.world_up (Weather.minutes 5) in
  let st := Sample.start Sample.svc_paris in
  let lookup := Weather.get_current_weather (B := Sample.builtins) "Paris" in
  Weather.upstream_calls (lookup st).2 = []
  ∧ Weather.upstream_calls (lookup (Weather.clear_cache st).2).2
    = [Weather.EvGetWeather "Paris"].
Proof.
  intros W st lookup. split; [reflexivity|].
  destruct (clear_cache_forgets (B := Sample.builtins) (W := W) "Paris" 1 st)
    as (_ & _ & _ & _ & Hcalls & _); [reflexivity|].
  exact Hcalls.
Defined.

(** X8. [get_cache_stats] only counts. Whatever the order in which the
    dictionary hands out its entries, it cannot fail, sends nothing upstream
    and leaves the service as it was, expired entries included; it reads the
    clock once per entry; [total_entries] is the number of entries, and
    [valid_entries] and [expired_entries] are two numbers from 0 to that
    total which add up to it. If the clock shows the same time at all these
    readings, [valid_entries] is the number of entries younger than one hour
    at that time. *)
Theorem cache_stats_partition {B : Builtins} {W : Weather.World}
    {R : Weather.Runtime} (st : Weather.state) :
  let c := Weather.cache (Weather.self st) in
  let out := Weather.get_cache_stats st in
  Weather.dict_items c ≡ₚ map_to_list c →
  ∃ stats,
    out.1 = Ok stats
    ∧ Weather.self out.2 = Weather.self st
    ∧ Weather.trace out.2 = Weather.trace st
    ∧ Weather.ticks out.2 = (Weather.ticks st + size c)%nat
    ∧ Weather.total_entries stats = Z.of_nat (size c)
    ∧ 0 ≤ Weather.valid_entries stats ≤ Weather.total_entries stats
    ∧ 0 ≤ Weather.expired_entries stats ≤ Weather.total_entries stats
    ∧ Weather.valid_entries stats + Weather.expired_entries stats
      = Weather.total_entries stats
    ∧ ∀ now,
        (∀ i, (i < size c)%nat → Weather.clock (Weather.ticks st + i) = now) →
        Weather.valid_entries stats = Z.of_nat (size (Weather.fresh_at now c)).
Proof.
  intros c out Hitems. subst out.
  assert (length (Weather.dict_items c) = size c) as Hlen.
  { rewrite Hitems. apply length_map_to_list. }
  destruct (count_valid_run (Weather.dict_items c) st) as (n & Hrun & Hn & Hnow).
  rewrite Hlen in *.
  assert (Weather.get_cache_stats st
          = (Ok {| Weather.total_entries := Z.of_nat (size c);
                   Weather.valid_entries := n;
                   Weather.expired_entries := Z.of_nat (size c) - n |},
             {| Weather.self := Weather.self st;
                Weather.ticks := (Weather.ticks st + size c)%nat;
                Weather.trace := Weather.trace st |})) as ->.
  { unfold Weather.get_cache_stats. rewrite bind_run. unfold gets at 1. fold c.
    rewrite bind_run, Hrun, bind_run. reflexivity. }
  eexists. split; [reflexivity|].
  cbn [fst snd Weather.self Weather.trace Weather.ticks
       Weather.total_entries Weather.valid_entries Weather.expired_entries].
  repeat split; try lia.
  intros now Hclock. rewrite (Hnow now Hclock), size_fresh_at.
  f_equal. apply Permutation_length. by rewrite Hitems.
Qed.

(** X8 at a cache of two entries. *)
Lemma cache_stats_partition_witness :
  let W := Sample.world_up (Weather.minutes 45) in
  let out := Weather.get_cache_stats (R := Sample.runtime)
               (Sample.start Sample.svc_two_entries) in
  on_ok Weather.total_entries out.1 = Some 2
  ∧ on_ok (λ s, Weather.valid_entries s + Weather.expired_entries s) out.1 = Some 2.
Proof.
  intros W out.
  destruct (cache_stats_partition (B := Sample.builtins) (W := W)
              (R := Sample.runtime) (Sample.start Sample.svc_two_entries))
    as (stats & Hok & _ & _ & _ & Htotal & _ & _ & Hsum & _); [reflexivity|].
  subst out. rewrite Hok. cbn [on_ok]. rewrite Hsum, Htotal. split; reflexivity.
Defined.

(** X9. In a cache where every entry sits under a key of its kind,
    [get_weather_summary] never raises: it returns a text, after exactly
    the steps of [get_current_weather], and when that lookup has nothing
    (no API key, a failed request) the text is the fixed sentence with the
    city as it was typed. *)
Theorem weather_summary_never_raises {B : Builtins} {W : Weather.World}
    {R : Weather.Runtime} (city : string) (st : Weather.state) :
  Weather.well_keyed (Weather.cache (Weather.self st)) →
  ∃ text,
    Weather.get_weather_summary city st
    = (Ok text, (Weather.get_current_weather city st).2)
    ∧ ((Weather.get_current_weather city st).1 = Ok None →
       text = "Weather information not available for " +:+ city).
Proof.
  intros Hwk. unfold Weather.get_weather_summary. rewrite bind_run.
  destruct (current_outcome city st)
    as [_ [[_ [Hr|(d & ts & Hr & Hin)]]|(w & ts & Hr & _)]].
  - destruct (Weather.get_current_weather city st) as [r st']. cbn [fst snd] in *.
    subst r. eauto.
  - pose proof (Hwk _ _ _ Hin) as Hkind.
    rewrite key_current_last, bool_decide_true in Hkind by done.
    destruct (Weather.get_current_weather city st) as [r st']. cbn [fst snd] in *.
    subst r. destruct d as [w|f]; [|discriminate].
    eexists. split; [reflexivity|discriminate].
  - destruct (Weather.get_current_weather city st) as [r st']. cbn [fst snd] in *.
    subst r. eexists. split; [reflexivity|discriminate].
Qed.

(** X9 at a service whose upstream is down. *)
Lemma weather_summary_never_raises_witness :
  let W := Sample.world_down 0 in
  (Weather.get_weather_summary (B := Sample.builtins) (R := Sample.runtime)
     "Atlantis" (Sample.start (Sample.svc_empty (Some "k3y")))).1
  = Ok "Weather information not available for Atlantis".
Proof.
  intros W.
  destruct (weather_summary_never_raises (B := Sample.builtins) (W := W)
              (R := Sample.runtime) "Atlantis"
              (Sample.start (Sample.svc_empty (Some "k3y"))))
    as (text & Hrun & Htext).
  - intros key data ts Hin. cbn [Sample.start Sample.svc_empty Weather.self
                                  Weather.cache] in Hin.
    by rewrite lookup_empty in Hin.
  - rewrite Hrun, (Htext eq_refl). reflexivity.
Defined.

(** X10. The weather route never answers 500. With [forecast_days]
    missing or 0 it asks the service for the current weather, otherwise for
    the forecast of that many days (its own clamping to 1..5 changes nothing,
    the service clamps the same way); it does exactly what the service does,
    passes the data on when there is some, and answers 404 when the service
    has nothing. *)
Theorem weather_info_never_500 {B : Builtins} {W : Weather.World}
    (destination : string) (forecast_days : option Z) (st : Weather.state) :
  let out := Weather.get_weather_info destination forecast_days st in
  let lookup :=
    match forecast_days with
    | Some n => if n =? 0 then Weather.get_current_weather destination
                else Weather.get_forecast destination n
    | None => Weather.get_current_weather destination
    end in
  out.2 = (lookup st).2
  ∧ ((∃ data, (lookup st).1 = Ok (Some data) ∧ out.1 = Ok data)
     ∨ ((lookup st).1 = Ok None
        ∧ ∃ detail, out.1 = Raise (HTTPException 404 detail)))
  ∧ (∀ e, out.1 = Raise e → ∃ detail, e = HTTPException 404 detail).
Proof.
  intros out lookup.
  destruct (weather_info_run destination forecast_days st) as [Hst Hres].
  fold out lookup in Hst, Hres. repeat split; [exact Hst|exact Hres|].
  intros e He. destruct Hres as [(data & _ & Hok)|(_ & detail & Hraise)].
  - rewrite Hok in He. discriminate.
  - rewrite Hraise in He. injection He as <-. eauto.
Qed.

(** ** Travel tips and the single suggestion *)

Section AdviceFacts.
Import Suggestions.
Context {B : Builtins} {L : Library} {W : World}.

Implicit Types (st : state).

(** The tips are the numbered lines of the answer, stripped, five at
    most; a failure of the model gives the fixed tips. *)
Lemma generate_travel_tips_run (destination : string) st :
  generate_travel_tips destination st
  = match chat (trace st) (tips_prompt destination) with
    | Completion tips_text =>
        (Ok (take 5 (map PyStr.strip
                       (List.filter
                          (λ line, PyStr.truthy (PyStr.strip line)
                                   && PyStr.any PyStr.isdigit (PyStr.take 3 line))
                          (PyStr.split newline tips_text)))),
         logged (EvChat (tips_prompt destination)) st)
    | ChatError msg =>
        (Ok default_tips,
         logged (EvLogError ("Error generating tips: " +:+ msg))
           (logged (EvChat (tips_prompt destination)) st))
    end.
Proof.
  unfold generate_travel_tips. rewrite try_except_run, bind_run, chat_completion_run.
  destruct (chat (trace st) (tips_prompt destination)); reflexivity.
Qed.

Lemma default_tips_clean (tip : string) :
  tip ∈ default_tips →
  tip ≠ "" ∧ PyStr.starts_clean tip = true ∧ PyStr.ends_clean tip = true.
Proof.
  unfold default_tips. rewrite !elem_of_cons, elem_of_nil.
  intros [->|[->|[->|[->|[->|[]]]]]]; repeat split; discriminate.
Qed.

Lemma kept_lines (p : string → bool) (lines : list string) (tip : string) :
  tip ∈ take 5 (map PyStr.strip (List.filter p lines)) →
  ∃ line, line ∈ lines ∧ tip = PyStr.strip line ∧ p line = true.
Proof.
  intros (i & Hi & _)%elem_of_take.
  apply list_elem_of_lookup_2, list_elem_of_In, in_map_iff in Hi
    as (line & <- & [Hin Hp]%filter_In).
  exists line. by rewrite list_elem_of_In.
Qed.

Lemma kept_lines_clean (p : string → bool) (lines : list string) (tip : string) :
  (∀ line, p line = true → PyStr.truthy (PyStr.strip line) = true) →
  tip ∈ take 5 (map PyStr.strip (List.filter p lines)) →
  tip ≠ "" ∧ PyStr.starts_clean tip = true ∧ PyStr.ends_clean tip = true.
Proof.
  intros Hp (line & _ & -> & Hkept%Hp)%kept_lines.
  destruct (strip_spec line) as (l & r & _ & _ & _ & Hs & He).
  repeat split; try assumption. intros Hempty. by rewrite Hempty in Hkept.
Qed.

(** What [generate_single_suggestion] comes to, by the model's answer. *)
Lemma generate_single_run (destination : string) st :
  let asked := logged (EvChat (single_prompt destination)) st in
  let failing (e : exn) :=
    (Raise e,
     logged (EvLogError ("Error generating single suggestion: " +:+ exn_str e))
       asked) in
  generate_single_suggestion destination st
  = match chat (trace st) (single_prompt destination) with
    | Completion raw =>
        let content := strip_code_fence (PyStr.strip raw) in
        match json_loads content with
        | inr (VDict kvs) =>
            (Ok (<["is_featured" := VBool false]> (dict_of kvs)), asked)
        | inr _ => failing (Exception "TypeError")
        | inl msg => failing (JSONDecodeError msg content)
        end
    | ChatError msg => failing (Exception msg)
    end.
Proof.
  intros asked failing.
  unfold generate_single_suggestion.
  rewrite try_except_run, bind_run, chat_completion_run.
  destruct (chat (trace st) (single_prompt destination)) as [raw|msg];
    [|reflexivity].
  cbv beta iota zeta. rewrite bind_run. unfold loads.
  destruct (json_loads _) as [msg|v]; [reflexivity|].
  destruct v; reflexivity.
Qed.

End AdviceFacts.

(** X11. [generate_travel_tips] always delivers tips: whatever the model
    answers, and when it fails, the call returns a list (it never raises) of
    at most five texts, none empty and none with white space at either end;
    it asks the model exactly once and leaves the collection alone. When the
    model fails the list is the five fixed tips; otherwise every tip is a
    line of the answer, stripped, that has a digit among its first three
    characters. *)
Theorem travel_tips_always_delivered {W : Suggestions.World}
    (destination : string) (st : Suggestions.state) :
  let out := Suggestions.generate_travel_tips destination st in
  let answer := Suggestions.chat (Suggestions.trace st)
                  (Suggestions.tips_prompt destination) in
  ∃ tips,
    out.1 = Ok tips
    ∧ (length tips ≤ 5)%nat
    ∧ (∀ tip, tip ∈ tips →
         tip ≠ "" ∧ PyStr.starts_clean tip = true ∧ PyStr.ends_clean tip = true)
    ∧ Suggestions.db out.2 = Suggestions.db st
    ∧ List.filter Suggestions.is_chat (Suggestions.trace out.2)
      = Suggestions.EvChat (Suggestions.tips_prompt destination)
        :: List.filter Suggestions.is_chat (Suggestions.trace st)
    ∧ (∀ msg, answer = Suggestions.ChatError msg → tips = Suggestions.default_tips)
    ∧ (∀ text tip,
         answer = Suggestions.Completion text → tip ∈ tips →
         ∃ line, line ∈ PyStr.split Suggestions.newline text
                 ∧ tip = PyStr.strip line
                 ∧ PyStr.any PyStr.isdigit (PyStr.take 3 line) = true).
Proof.
  intros out answer. subst out. rewrite generate_travel_tips_run. fold answer.
  destruct answer as [text|msg]; eexists; (split; [reflexivity|]);
    cbn [fst snd]; (split; [|split; [|split; [|split; [|split]]]]);
    try reflexivity; try discriminate.
  - rewrite length_take. apply Nat.le_min_l.
  - intros tip. apply kept_lines_clean. by intros line [Hne _]%andb_prop.
  - intros text' tip Heq Hin. injection Heq as <-.
    apply kept_lines in Hin as (line & Hline & -> & [_ Hdigit]%andb_prop).
    eauto.
  - apply default_tips_clean.
Qed.

(** X12. [generate_single_suggestion] asks the model once and touches
    neither the collection nor the clock. A record it returns is marked
    not featured. Whatever goes wrong is logged and raised again as it is:
    in particular an answer that is not JSON comes out as the decoder's own
    [JSONDecodeError], not as the [ValueError] that [generate_suggestions]
    makes of it. *)
Theorem single_suggestion_reraises {L : Suggestions.Library}
    {W : Suggestions.World} (destination : string) (st : Suggestions.state) :
  let out := Suggestions.generate_single_suggestion destination st in
  let prompt := Suggestions.single_prompt destination in
  Suggestions.db out.2 = Suggestions.db st
  ∧ Suggestions.next_oid out.2 = Suggestions.next_oid st
  ∧ Suggestions.ticks out.2 = Suggestions.ticks st
  ∧ List.filter Suggestions.is_chat (Suggestions.trace out.2)
    = Suggestions.EvChat prompt
      :: List.filter Suggestions.is_chat (Suggestions.trace st)
  ∧ (∀ suggestion, out.1 = Ok suggestion →
       suggestion !! "is_featured" = Some (VBool false))
  ∧ (∀ e, out.1 = Raise e →
       Suggestions.trace out.2
       = Suggestions.EvLogError
           ("Error generating single suggestion: " +:+ exn_str e)
         :: Suggestions.EvChat prompt :: Suggestions.trace st)
  ∧ (∀ raw msg,
       Suggestions.chat (Suggestions.trace st) prompt = Suggestions.Completion raw →
       Suggestions.json_loads (Suggestions.strip_code_fence (PyStr.strip raw)) = inl msg →
       out.1 = Raise (JSONDecodeError msg
                        (Suggestions.strip_code_fence (PyStr.strip raw)))).
Proof.
  intros out prompt. subst out. rewrite generate_single_run. fold prompt.
  destruct (Suggestions.chat _ prompt) as [raw|msg].
  - cbv zeta. destruct (Suggestions.json_loads _) as [msg|v] eqn:Hjson.
    + repeat split; try discriminate.
      * intros e He. by injection He as <-.
      * intros raw' msg' Heq. injection Heq as <-. rewrite Hjson.
        intros Hmsg. by injection Hmsg as <-.
    + destruct v; repeat split; try discriminate;
        try (intros e He; by injection He as <-);
        try (intros raw' msg' Heq; injection Heq as <-; rewrite Hjson; discriminate).
      intros s Hs. injection Hs as <-. apply lookup_insert_eq.
  - repeat split; try discriminate. intros e He. by injection He as <-.
Qed.

(** ** The route that generates on request *)

Section AiGenerateFacts.
Import Suggestions.
Context {B : Builtins} {L : Library} {W : World}.

Implicit Types (st : state).

Lemma validate_models_run (l : list (gmap string value)) st :
  validate_models l st
  = (if forallb validates l then Ok l
     else Raise (ValueError "validation error for SuggestedTrip"), st).
Proof. unfold validate_models. by destruct (forallb validates l). Qed.

Lemma insert_many_ids_run (docs : list (gmap string value)) st :
  docs ≠ [] →
  insert_many_ids docs st
  = (Ok (imap (λ i d, default VNone (with_id (next_oid st + i) d !! "_id")) docs),
     {| db := db st ++ imap (λ i d, with_id (next_oid st + i) d) docs;
        next_oid := next_oid st + length docs;
        ticks := ticks st;
        trace := EvInsertMany (length docs) :: trace st |}).
Proof. destruct docs; [congruence|reflexivity]. Qed.

(** The store always gives a document an identifier. *)
Lemma with_id_is_Some (n : nat) (d : gmap string value) :
  ∃ oid, with_id n d !! "_id" = Some oid.
Proof.
  unfold with_id. destruct (d !! "_id") as [v|] eqn:Hid; [by exists v|].
  rewrite lookup_insert_eq. eauto.
Qed.

(** Normalising leaves the identifier alone, and does not look at it. *)
Lemma normalize_id (d : gmap string value) :
  normalize_suggestion_data d !! "_id" = d !! "_id".
Proof. rewrite normalize_lookup. by rewrite decide_False by compute_done. Qed.

Lemma normalize_insert_id (d : gmap string value) (n : nat) (x : value) :
  normalize_suggestion_data (<["_id" := x]> d)
  = <["_id" := x]> (normalize_suggestion_data (with_id n d)).
Proof.
  apply map_eq. intros g. destruct (decide (g = "_id")) as [->|Hg].
  - by rewrite normalize_id, !lookup_insert_eq.
  - rewrite (lookup_insert_ne _ "_id" g) by done.
    rewrite !normalize_lookup, lookup_insert_ne, with_id_lookup by done.
    reflexivity.
Qed.

(** What the route sends back for a stored batch is the stored records
    as the listing shows them. *)
Lemma shown_as_stored (first : nat) (docs : list (gmap string value)) :
  Forall2 presents
    (imap (λ i d, with_id (first + i) d) docs)
    (map normalize_suggestion_data
       (zip_with (λ suggestion inserted_id,
                    <["_id" := VStr (py_str inserted_id)]> suggestion)
          docs
          (imap (λ i d, default VNone (with_id (first + i) d !! "_id")) docs))).
Proof.
  apply Forall2_same_length_lookup_2.
  - rewrite length_map, length_zip_with, !length_imap. lia.
  - intros i x y Hx Hy.
    rewrite list_lookup_imap in Hx.
    change (map normalize_suggestion_data ?l) with (normalize_suggestion_data <$> l) in Hy.
    rewrite list_lookup_fmap, lookup_zip_with, list_lookup_imap in Hy.
    destruct (docs !! i) as [d|]; [|discriminate].
    cbn [fmap option_fmap option_map mbind option_bind] in Hx, Hy.
    injection Hx as <-. injection Hy as <-.
    destruct (with_id_is_Some (first + i) d) as [oid Hoid].
    exists oid. rewrite normalize_id, Hoid. split; [reflexivity|].
    apply normalize_insert_id.
Qed.

(** A model whose every answer is not JSON: both generators fail, the
    batch one with a [ValueError], the single one with the decoder's
    error. *)
Lemma single_unparsable (destination : string) st :
  (∀ tr prompt, unparsable (chat tr prompt)) →
  ∃ msg content st',
    generate_single_suggestion destination st
    = (Raise (JSONDecodeError msg content), st')
    ∧ db st' = db st ∧ next_oid st' = next_oid st.
Proof.
  intros Hbad. rewrite generate_single_run.
  destruct (Hbad (trace st) (single_prompt destination)) as (raw & msg & -> & Hjson).
  cbv zeta. rewrite Hjson. eexists _, _, _. split; [reflexivity|]. split; reflexivity.
Qed.

Lemma batch_unparsable c b k (n : Z) st :
  (∀ tr prompt, unparsable (chat tr prompt)) →
  ∃ msg st',
    generate_suggestions c b k n st = (Raise (ValueError msg), st')
    ∧ db st' = db st ∧ next_oid st' = next_oid st.
Proof.
  intros Hbad.
  destruct (Hbad (EvGenerate c b k n :: trace st) (build_prompt c b k n))
    as (raw & msg & Hchat & Hjson).
  rewrite (generate_unparsable c b k n st raw msg Hchat Hjson).
  eexists _, _. split; [reflexivity|]. split; reflexivity.
Qed.

End AiGenerateFacts.

(** X13. An answer of the model that is not JSON makes the route
    [POST /ai-generate] answer 400, for a single destination as for a
    batch, whether it was to save or not; nothing is stored and no
    identifier is used up. *)
Theorem ai_generate_bad_json_is_400 {L : Suggestions.Library}
    {W : Suggestions.World}
    (category budget continent destination : option string)
    (count : Z) (save_to_db : bool) (st : Suggestions.state) :
  let out := Suggestions.generate_ai_suggestions category budget continent
               destination count save_to_db st in
  (∀ tr prompt, Suggestions.unparsable (Suggestions.chat tr prompt)) →
  (∃ detail, out.1 = Raise (HTTPException 400 detail))
  ∧ Suggestions.db out.2 = Suggestions.db st
  ∧ Suggestions.next_oid out.2 = Suggestions.next_oid st.
Proof.
  intros out Hbad. subst out. unfold Suggestions.generate_ai_suggestions.
  rewrite try_except_run. destruct (truthy_opt destination).
  - rewrite bind_run.
    destruct (single_unparsable (default "" destination) st Hbad)
      as (msg & content & st' & -> & Hdb & Hoid).
    cbn [Suggestions.is_ValueError]. rewrite bind_run, log_run.
    split; [eexists; reflexivity|]. split; assumption.
  - rewrite bind_run.
    destruct (batch_unparsable category budget continent count st Hbad)
      as (msg & st' & -> & Hdb & Hoid).
    cbn [Suggestions.is_ValueError]. rewrite bind_run, log_run.
    split; [eexists; reflexivity|]. split; assumption.
Qed.

(** X13 at a model that answers with prose, asked for Lisbon and to save. *)
Lemma ai_generate_bad_json_is_400_witness :
  let W := Sample.model "Sure! Here are some ideas" in
  let out := Suggestions.generate_ai_suggestions
               (L := Sample.library) None None None (Some "Lisbon") 6 true
               Sample.one_city in
  (∃ detail, out.1 = Raise (HTTPException 400 detail))
  ∧ Suggestions.db out.2 = Suggestions.db Sample.one_city.
Proof.
  intros W out.
  destruct (ai_generate_bad_json_is_400
              (L := Sample.library) (W := W) None None None (Some "Lisbon") 6 true
              Sample.one_city) as (Hout & Hdb & _).
  - intros tr prompt.
    exists "Sure! Here are some ideas", "Expecting value: line 1 column 1 (char 0)".
    split; reflexivity.
  - split; [exact Hout|exact Hdb].
Defined.

(** X14. With [save_to_db] off the route [POST /ai-generate] never
    touches the collection: whatever the model answers, and whether the
    route succeeds or fails, the documents, the next identifier and the
    clock are as before; and the one record it returns for a destination
    carries a null identifier. *)
Theorem ai_generate_unsaved_leaves_store {L : Suggestions.Library}
    {W : Suggestions.World}
    (category budget continent destination : option string)
    (count : Z) (st : Suggestions.state) :
  let out := Suggestions.generate_ai_suggestions category budget continent
               destination count false st in
  Suggestions.db out.2 = Suggestions.db st
  ∧ Suggestions.next_oid out.2 = Suggestions.next_oid st
  ∧ Suggestions.ticks out.2 = Suggestions.ticks st
  ∧ (∀ shown, truthy_opt destination = true → out.1 = Ok shown →
       ∃ suggestion, shown = [suggestion] ∧ suggestion !! "_id" = Some VNone).
Proof.
  intros out.
  assert (∃ r st', out = (r, st')
            ∧ Suggestions.db st' = Suggestions.db st
            ∧ Suggestions.next_oid st' = Suggestions.next_oid st
            ∧ Suggestions.ticks st' = Suggestions.ticks st
            ∧ (∀ shown, truthy_opt destination = true → r = Ok shown →
                 ∃ suggestion, shown = [suggestion]
                               ∧ suggestion !! "_id" = Some VNone))
    as (r & st' & -> & Hout); [|exact Hout].
  subst out. unfold Suggestions.generate_ai_suggestions.
  rewrite try_except_run. destruct (truthy_opt destination).
  - rewrite bind_run, generate_single_run.
    destruct (Suggestions.chat _ _) as [raw|msg]; cbv zeta;
      [destruct (Suggestions.json_loads _) as [msg|v]; [|destruct v]|];
      try (cbn [Suggestions.is_ValueError]; rewrite bind_run, log_run;
           eexists _, _; split; [reflexivity|]; repeat split; done).
    unfold mret at 1, M_ret at 1. rewrite bind_run. cbv beta iota.
    rewrite validate_models_run.
    destruct (forallb _ _).
    + eexists _, _. split; [reflexivity|]. repeat split.
      intros shown _ Hshown. injection Hshown as <-.
      eexists. split; [reflexivity|]. by rewrite normalize_id, lookup_insert_eq.
    + cbn [Suggestions.is_ValueError]. rewrite bind_run, log_run.
      eexists _, _. split; [reflexivity|]. repeat split; done.
  - rewrite bind_run.
    destruct (generate_frame category budget continent count st)
      as (Hdb & Hoid & Hticks & _).
    destruct (Suggestions.generate_suggestions category budget continent count st)
      as [[batch|e] sg]; cbn [fst snd] in *.
    + unfold mret at 1, M_ret at 1. rewrite bind_run. cbv beta iota.
      rewrite validate_models_run.
      destruct (forallb _ _);
        [eexists _, _; split; [reflexivity|]; repeat split; done|].
      cbn [Suggestions.is_ValueError]. rewrite bind_run, log_run.
      eexists _, _. split; [reflexivity|]. repeat split; done.
    + destruct (Suggestions.is_ValueError e); rewrite bind_run, log_run;
        eexists _, _; (split; [reflexivity|]); repeat split; done.
Qed.

(** X15. With [save_to_db] on, a non-empty batch delivered to the route
    [POST /ai-generate] is stored before the response is built: the
    collection grows by exactly the batch, in order, each record marked not
    featured and stamped; the response shows the stored records as the
    listing would (normalised, the identifier as text); and when one of
    them does not validate the route answers 400 although the batch stays
    stored. *)
Theorem ai_generate_stores_batch {L : Suggestions.Library}
    {W : Suggestions.World}
    (category budget continent destination : option string)
    (count : Z) (st : Suggestions.state) (batch : list (gmap string value)) :
  let out := Suggestions.generate_ai_suggestions category budget continent
               destination count true st in
  truthy_opt destination = false →
  (Suggestions.generate_suggestions category budget continent count st).1
  = Ok batch →
  batch ≠ [] →
  ∃ new shown,
    Suggestions.db out.2 = Suggestions.db st ++ new
    ∧ Suggestions.persisted_as (λ _, false) batch new
    ∧ Forall2 Suggestions.presents new shown
    ∧ out.1 = (if forallb Suggestions.validates shown then Ok shown
               else Raise (HTTPException 400 "validation error for SuggestedTrip")).
Proof.
  intros out Hdest Hgen Hne.
  assert (∃ new shown st',
            out = ((if forallb Suggestions.validates shown then Ok shown
                    else Raise (HTTPException 400 "validation error for SuggestedTrip")),
                   st')
            ∧ Suggestions.db st' = Suggestions.db st ++ new
            ∧ Suggestions.persisted_as (λ _, false) batch new
            ∧ Forall2 Suggestions.presents new shown)
    as (new & shown & st' & -> & Hdb' & Hper & Hshown); [|by exists new, shown].
  subst out. unfold Suggestions.generate_ai_suggestions.
  rewrite try_except_run, Hdest, bind_run.
  destruct (generate_frame category budget continent count st)
    as (Hdb & Hoid & _).
  destruct (Suggestions.generate_suggestions category budget continent count st)
    as [r sg]. cbn [fst snd] in *. subst r.
  rewrite !bind_run.
  destruct (stamp_all_run (λ _, false) batch 0 sg) as (l' & Hrun & Hlen & Hst).
  rewrite Hrun, bind_run, insert_many_ids_run
    by (intros ->; destruct batch; [congruence|discriminate]).
  unfold mret at 1, M_ret at 1. cbv beta iota.
  match goal with
  | |- context [Suggestions.validate_models ?x] => set (shown := x)
  end.
  rewrite validate_models_run.
  exists (imap (λ i d, Suggestions.with_id (Suggestions.next_oid sg + i) d) l'), shown.
  assert (Suggestions.persisted_as (λ _ : nat, false) batch
            (imap (λ i d, Suggestions.with_id (Suggestions.next_oid sg + i) d) l'))
    as Hper; [|
    destruct (forallb _ shown);
      [|cbn [Suggestions.is_ValueError]; rewrite bind_run, log_run];
      (eexists; split; [reflexivity|]);
      (split; [cbn [Suggestions.db Suggestions.logged]; by rewrite <-Hdb|]);
      (split; [exact Hper|apply shown_as_stored])].
  split; [by rewrite length_imap|].
  intros i d Hi. rewrite list_lookup_imap in Hi.
  destruct (l' !! i) as [d1|] eqn:E; [|discriminate].
  cbn [fmap option_fmap option_map] in Hi. injection Hi as <-.
  destruct (Hst i d1 E) as (Hstamp & d0 & Hd0 & Hkeep).
  split; [by apply with_id_stamped|].
  exists d0. split; [assumption|by apply with_id_keeps].
Qed.

(** X15 at a model that answers with two beaches, on a collection of one
    city. *)
Lemma ai_generate_stores_batch_witness :
  let W := Sample.model "[two beaches]" in
  let g := Suggestions.generate_suggestions (L := Sample.library)
             (Some "beach") None None 2 Sample.one_city in
  let out := Suggestions.generate_ai_suggestions (L := Sample.library)
               (Some "beach") None None None 2 true Sample.one_city in
  on_ok length g.1 = Some 2%nat
  ∧ length (Suggestions.db out.2) = 3%nat.
Proof.
  intros W g out.
  assert (Hlen : on_ok length g.1 = Some 2%nat) by (vm_compute; reflexivity).
  split; [exact Hlen|].
  pose proof (λ batch,
                ai_generate_stores_batch (L := Sample.library) (W := W)
                  (Some "beach") None None None 2 Sample.one_city batch eq_refl)
    as Hthm.
  cbv zeta in Hthm. fold g out in Hthm. clearbody g out.
  destruct g as [[[|d batch]|e] sg]; [discriminate| |discriminate].
  destruct (Hthm (d :: batch) eq_refl) as (new & shown & Hdb & Hper & _);
    [discriminate|].
  rewrite Hdb, length_app. destruct Hper as [-> _].
  apply (inj Some) in Hlen. cbn [on_ok fst] in Hlen. rewrite Hlen. reflexivity.
Defined.

(** ** Deleting, creating and updating *)

Section AdminFacts.
Import Suggestions.
Context {B : Builtins} {L : Library} {W : World}.

Implicit Types (st : state) (d : gmap string value).

Lemma has_oid_spec (oid : nat) d : has_oid oid d = true ↔ oid_of d = Some oid.
Proof.
  unfold has_oid, oid_of. destruct (d !! "_id") as [[]|]; try (split; discriminate).
  rewrite Nat.eqb_eq. split; congruence.
Qed.

Lemma has_oid_false (oid : nat) d : has_oid oid d = false ↔ oid_of d ≠ Some oid.
Proof. rewrite <-has_oid_spec. by destruct (has_oid oid d). Qed.

Lemma existsb_none (p : gmap string value → bool) (l : list (gmap string value)) :
  (∀ x, x ∈ l → p x = false) → existsb p l = false.
Proof.
  induction l as [|d l IH]; intros Hl; [reflexivity|]. cbn [existsb].
  rewrite (Hl d) by (by left). apply IH. intros x Hx. apply Hl. by right.
Qed.

Lemma existsb_first (p : gmap string value → bool)
    (before after : list (gmap string value)) d :
  p d = true → existsb p (before ++ d :: after) = true.
Proof. intros Hd. rewrite existsb_app. cbn [existsb]. rewrite Hd. apply orb_true_r. Qed.

Lemma remove_first_none (p : gmap string value → bool) (l : list (gmap string value)) :
  (∀ x, x ∈ l → p x = false) → remove_first p l = l.
Proof.
  induction l as [|d l IH]; intros Hl; [reflexivity|]. cbn [remove_first].
  rewrite (Hl d) by (by left). f_equal. apply IH. intros x Hx. apply Hl. by right.
Qed.

Lemma remove_first_at (p : gmap string value → bool)
    (before after : list (gmap string value)) d :
  (∀ x, x ∈ before → p x = false) → p d = true →
  remove_first p (before ++ d :: after) = before ++ after.
Proof.
  intros Hbefore Hd. induction before as [|x before IH]; cbn [remove_first app].
  - by rewrite Hd.
  - rewrite (Hbefore x) by (by left). f_equal. apply IH.
    intros y Hy. apply Hbefore. by right.
Qed.

Lemma update_first_none (p : gmap string value → bool) (u : gmap string value)
    (l : list (gmap string value)) :
  (∀ x, x ∈ l → p x = false) → update_first p u l = l.
Proof.
  induction l as [|d l IH]; intros Hl; [reflexivity|]. cbn [update_first].
  rewrite (Hl d) by (by left). f_equal. apply IH. intros x Hx. apply Hl. by right.
Qed.

Lemma update_first_at (p : gmap string value → bool) (u : gmap string value)
    (before after : list (gmap string value)) d :
  (∀ x, x ∈ before → p x = false) → p d = true →
  update_first p u (before ++ d :: after) = before ++ (u ∪ d) :: after.
Proof.
  intros Hbefore Hd. induction before as [|x before IH]; cbn [update_first app].
  - by rewrite Hd.
  - rewrite (Hbefore x) by (by left). f_equal. apply IH.
    intros y Hy. apply Hbefore. by right.
Qed.

Lemma find_none (p : gmap string value → bool) (l : list (gmap string value)) :
  (∀ x, x ∈ l → p x = false) → List.find p l = None.
Proof.
  induction l as [|d l IH]; intros Hl; [reflexivity|]. cbn [List.find].
  rewrite (Hl d) by (by left). apply IH. intros x Hx. apply Hl. by right.
Qed.

Lemma find_at (p : gmap string value → bool)
    (before after : list (gmap string value)) d :
  (∀ x, x ∈ before → p x = false) → p d = true →
  List.find p (before ++ d :: after) = Some d.
Proof.
  intros Hbefore Hd. induction before as [|x before IH]; cbn [List.find app].
  - by rewrite Hd.
  - rewrite (Hbefore x) by (by left). apply IH.
    intros y Hy. apply Hbefore. by right.
Qed.

(** Among documents with identifiers of their own, removing the one with
    [oid] leaves none with [oid]. *)
Lemma remove_first_unique (oid : nat) (l : list (gmap string value)) :
  NoDup (map oid_of l) →
  ∀ x, x ∈ remove_first (has_oid oid) l → has_oid oid x = false.
Proof.
  induction l as [|d l IH]; intros Hnd x; cbn [remove_first].
  - by intros ?%elem_of_nil.
  - cbn [map] in Hnd. apply NoDup_cons in Hnd as [Hd Hnd].
    destruct (has_oid oid d) eqn:Hoid.
    + intros Hx. apply has_oid_false. intros Hx'.
      apply has_oid_spec in Hoid. apply Hd. rewrite Hoid, <-Hx'.
      apply list_elem_of_In, in_map, list_elem_of_In, Hx.
    + intros [->|Hx]%elem_of_cons; [assumption|by apply IH].
Qed.

(** What the deletion does, in one equation. *)
Lemma delete_suggestion_run (suggestion_id : string) (clear_all : bool) st :
  delete_suggestion suggestion_id clear_all st
  = if clear_all then
      (Ok (Cleared (Z.of_nat (length (db st)))),
       {| db := []; next_oid := next_oid st; ticks := ticks st; trace := trace st |})
    else
      match object_id suggestion_id with
      | None => (Raise (HTTPException 400 "Invalid suggestion ID format"), st)
      | Some oid =>
          (if existsb (has_oid oid) (db st) then Ok (Deleted suggestion_id)
           else Raise (HTTPException 404 "Suggestion not found"),
           {| db := remove_first (has_oid oid) (db st); next_oid := next_oid st;
              ticks := ticks st; trace := trace st |})
      end.
Proof.
  unfold delete_suggestion, or_500. rewrite try_except_run.
  destruct clear_all; [reflexivity|].
  destruct (object_id suggestion_id) as [oid|]; [|reflexivity].
  rewrite bind_run. unfold delete_one.
  destruct (existsb (has_oid oid) (db st)); reflexivity.
Qed.

End AdminFacts.

(** X16. What [DELETE /{suggestion_id}] does to the collection. With
    [clear_all] every document goes and their number is reported, whatever
    the identifier in the path, well-formed or not. Without it, an
    identifier that is not well-formed gives 400 and one that no document
    carries gives 404, and both leave the collection as it was; otherwise
    exactly the first document with that identifier is removed, the others
    stay in their order. No outcome touches the clock, the log or the next
    identifier. *)
Theorem delete_suggestion_outcomes {L : Suggestions.Library}
    (suggestion_id : string) (clear_all : bool) (st : Suggestions.state) :
  let out := Suggestions.delete_suggestion suggestion_id clear_all st in
  Suggestions.next_oid out.2 = Suggestions.next_oid st
  ∧ Suggestions.ticks out.2 = Suggestions.ticks st
  ∧ Suggestions.trace out.2 = Suggestions.trace st
  ∧ (clear_all = true →
     out.1 = Ok (Suggestions.Cleared (Z.of_nat (length (Suggestions.db st))))
     ∧ Suggestions.db out.2 = [])
  ∧ (clear_all = false → Suggestions.object_id suggestion_id = None →
     out.1 = Raise (HTTPException 400 "Invalid suggestion ID format")
     ∧ Suggestions.db out.2 = Suggestions.db st)
  ∧ (∀ oid, clear_all = false → Suggestions.object_id suggestion_id = Some oid →
       (∀ d, d ∈ Suggestions.db st → Suggestions.oid_of d ≠ Some oid) →
       out.1 = Raise (HTTPException 404 "Suggestion not found")
       ∧ Suggestions.db out.2 = Suggestions.db st)
  ∧ (∀ oid before d after,
       clear_all = false → Suggestions.object_id suggestion_id = Some oid →
       Suggestions.db st = before ++ d :: after →
       Suggestions.oid_of d = Some oid →
       (∀ x, x ∈ before → Suggestions.oid_of x ≠ Some oid) →
       out.1 = Ok (Suggestions.Deleted suggestion_id)
       ∧ Suggestions.db out.2 = before ++ after).
Proof.
  intros out. subst out. rewrite delete_suggestion_run.
  destruct clear_all.
  { repeat split; discriminate. }
  destruct (Suggestions.object_id suggestion_id) as [oid|] eqn:Hoid.
  2:{ repeat split; discriminate. }
  cbn [fst snd Suggestions.db Suggestions.next_oid Suggestions.ticks
       Suggestions.trace].
  split; [reflexivity|]. split; [reflexivity|]. split; [reflexivity|].
  split; [discriminate|]. split; [discriminate|]. split.
  - intros oid' _ Heq Hnone. injection Heq as <-.
    assert (∀ x, x ∈ Suggestions.db st → Suggestions.has_oid oid x = false) as Hno.
    { intros x Hx. apply has_oid_false. by apply Hnone. }
    rewrite existsb_none, remove_first_none by assumption. by split.
  - intros oid' before d after _ Heq Hdb Hd Hbefore. injection Heq as <-.
    rewrite Hdb, existsb_first by (by apply has_oid_spec).
    split; [reflexivity|]. apply remove_first_at; [|by apply has_oid_spec].
    intros x Hx. apply has_oid_false. by apply Hbefore.
Qed.

Section LookupFacts.
Import Suggestions.
Context {B : Builtins} {L : Library} {W : World}.

Implicit Types (st : state) (d : gmap string value).

(** The lookup by identifier, in one equation. *)
Lemma get_by_id_run (suggestion_id : string) st :
  get_by_id suggestion_id st
  = match object_id suggestion_id with
    | None => (Raise (HTTPException 400 "Invalid suggestion ID format"), st)
    | Some oid =>
        (match List.find (has_oid oid) (db st) with
         | None => Raise (HTTPException 404 "Suggestion not found")
         | Some found =>
             match normalize_suggestion_data found !! "_id" with
             | None => Raise (Exception "KeyError: '_id'")
             | Some v =>
                 let shown := <["_id" := VStr (py_str v)]>
                                (normalize_suggestion_data found) in
                 if validates shown
                 then Ok {| total := 1; suggestions := [shown];
                            filters_applied := {[ "_id" := VStr suggestion_id ]} |}
                 else Raise (Exception "validation error for SuggestedTrip")
             end
         end,
         logged (EvFindOne oid) st)
    end.
Proof.
  unfold get_by_id. destruct (object_id suggestion_id) as [oid|]; [|reflexivity].
  rewrite bind_run. unfold find_one. rewrite bind_run, log_run.
  unfold gets at 1. cbv beta iota.
  change (List.find _ (db (logged (EvFindOne oid) st)))
    with (List.find (has_oid oid) (db st)).
  destruct (List.find (has_oid oid) (db st)) as [found|]; [|reflexivity].
  rewrite bind_run. unfold present.
  destruct (normalize_suggestion_data found !! "_id") as [v|]; [|reflexivity].
  unfold mret at 1, M_ret at 1. rewrite bind_run. unfold validate_all.
  cbn [forallb]. rewrite andb_true_r.
  destruct (validates _); reflexivity.
Qed.

(** The listing route with an identifier: the collection, the next
    identifier and the clock stay; the lookup is logged, and an error that
    is not an HTTP error is logged too and becomes a 500. *)
Lemma get_by_id_route req st :
  truthy_opt (suggestion_id req) = true →
  ∃ logs,
    get_suggestions req st
    = (match (get_by_id (default "" (suggestion_id req)) st).1 with
       | Ok resp => Ok resp
       | Raise (HTTPException code detail) => Raise (HTTPException code detail)
       | Raise e => Raise (HTTPException 500 (exn_str e))
       end,
       {| db := db st; next_oid := next_oid st; ticks := ticks st;
          trace := logs ++ trace st |})
    ∧ List.filter is_generate logs = []
    ∧ List.filter is_chat logs = [].
Proof.
  intros Hid. unfold get_suggestions. rewrite try_except_run, Hid, get_by_id_run.
  destruct (object_id _) as [oid|].
  2:{ exists []. split; [by destruct st|]. by split. }
  destruct (List.find (has_oid oid) (db st)) as [found|].
  2:{ exists [EvFindOne oid]. split; [reflexivity|]. by split. }
  destruct (normalize_suggestion_data found !! "_id") as [v|].
  2:{ eexists [_; _]. split; [reflexivity|]. by split. }
  cbv zeta. destruct (validates _).
  - exists [EvFindOne oid]. split; [reflexivity|]. by split.
  - eexists [_; _]. split; [reflexivity|]. by split.
Qed.

End LookupFacts.

(** X17. A request of the listing route that names an identifier only
    reads: whatever comes of it, the collection, the next identifier and the
    clock are as before, and neither the generator nor the model is called,
    not even on an empty collection. An identifier that is not well-formed
    is answered with 400, one that no document carries with 404. *)
Theorem lookup_by_id_only_reads {B : Builtins} {L : Suggestions.Library}
    {W : Suggestions.World} (req : Suggestions.Request) (st : Suggestions.state) :
  let out := Suggestions.get_suggestions req st in
  let id := default "" (Suggestions.suggestion_id req) in
  truthy_opt (Suggestions.suggestion_id req) = true →
  Suggestions.db out.2 = Suggestions.db st
  ∧ Suggestions.next_oid out.2 = Suggestions.next_oid st
  ∧ Suggestions.ticks out.2 = Suggestions.ticks st
  ∧ List.filter Suggestions.is_generate (Suggestions.trace out.2)
    = List.filter Suggestions.is_generate (Suggestions.trace st)
  ∧ List.filter Suggestions.is_chat (Suggestions.trace out.2)
    = List.filter Suggestions.is_chat (Suggestions.trace st)
  ∧ (Suggestions.object_id id = None →
     out.1 = Raise (HTTPException 400 "Invalid suggestion ID format"))
  ∧ (∀ oid, Suggestions.object_id id = Some oid →
       (∀ d, d ∈ Suggestions.db st → Suggestions.oid_of d ≠ Some oid) →
       out.1 = Raise (HTTPException 404 "Suggestion not found")).
Proof.
  intros out id Hid.
  destruct (get_by_id_route req st Hid) as (logs & Hrun & Hgen & Hchat).
  subst out. rewrite Hrun. fold id. cbn [fst snd Suggestions.db
    Suggestions.next_oid Suggestions.ticks Suggestions.trace].
  rewrite !List.filter_app, Hgen, Hchat.
  repeat split.
  - intros Hbad. by rewrite get_by_id_run, Hbad.
  - intros oid Hoid Hnone. rewrite get_by_id_run, Hoid.
    by rewrite find_none
      by (intros x Hx; apply has_oid_false; by apply Hnone).
Qed.

(** X17 on an empty collection: 404, and the collection stays empty. *)
Lemma lookup_by_id_only_reads_witness :
  let W := Sample.model "[twelve]" in
  let req := {| Suggestions.category := None; Suggestions.budget := None;
                Suggestions.duration_min := None; Suggestions.duration_max := None;
                Suggestions.continent := None; Suggestions.featured := false;
                Suggestions.limit := 10; Suggestions.skip := 0;
                Suggestions.suggestion_id := Some "7" |} in
  let out := Suggestions.get_suggestions (B := Sample.builtins)
               (L := Sample.library) req Sample.empty_store in
  out.1 = Raise (HTTPException 404 "Suggestion not found")
  ∧ Suggestions.db out.2 = [].
Proof.
  intros W req out.
  destruct (lookup_by_id_only_reads (B := Sample.builtins) (L := Sample.library)
              (W := W) req Sample.empty_store eq_refl)
    as (Hdb & _ & _ & _ & _ & _ & Hmissing).
  split; [|exact Hdb].
  apply (Hmissing 7%nat); [reflexivity|]. by intros d ?%elem_of_nil.
Defined.

Section RoundTripFacts.
Import Suggestions.
Context {B : Builtins} {L : Library} {W : World}.

Implicit Types (st : state) (d : gmap string value).

Lemma show_found_run (found : gmap string value) st :
  show_found (Some found) st
  = (match normalize_suggestion_data found !! "_id" with
     | None => Raise (Exception "KeyError: '_id'")
     | Some v =>
         let shown := <["_id" := VStr (py_str v)]>
                        (normalize_suggestion_data found) in
         if validates shown then Ok shown
         else Raise (ValueError "validation error for SuggestedTrip")
     end, st).
Proof.
  unfold show_found. rewrite bind_run. unfold present.
  destruct (normalize_suggestion_data found !! "_id") as [v|]; [|reflexivity].
  unfold mret at 1, M_ret at 1. rewrite bind_run, validate_models_run.
  cbn [forallb]. rewrite andb_true_r. by destruct (validates _).
Qed.

(** The handlers of the admin routes: an HTTP error passes, any other
    error is logged and becomes a 500, a result passes. *)
Lemma or_500_run {A} (what : string) (body : M state A) st :
  or_500 what body st
  = match body st with
    | (Ok a, st') => (Ok a, st')
    | (Raise (HTTPException code detail), st') =>
        (Raise (HTTPException code detail), st')
    | (Raise e, st') =>
        (Raise (HTTPException 500 (exn_str e)),
         logged (EvLogError (what +:+ exn_str e)) st')
    end.
Proof.
  unfold or_500. rewrite try_except_run.
  destruct (body st) as [[a|e] st']; [reflexivity|]. by destruct e.
Qed.


End RoundTripFacts.

(** X18. Deleting and looking up compose: in a collection whose
    documents have identifiers of their own, after a deletion by identifier
    that succeeded, the listing route asked for that identifier answers
    404. *)
Theorem delete_then_lookup_is_404 {B : Builtins} {L : Suggestions.Library}
    {W : Suggestions.World} (id : string) (req : Suggestions.Request)
    (st : Suggestions.state) :
  let deleted := Suggestions.delete_suggestion id false st in
  Suggestions.well_identified st →
  Suggestions.suggestion_id req = Some id →
  truthy_opt (Some id) = true →
  deleted.1 = Ok (Suggestions.Deleted id) →
  (Suggestions.get_suggestions req deleted.2).1
  = Raise (HTTPException 404 "Suggestion not found").
Proof.
  intros deleted [Hnd _] Hreq Hid. subst deleted.
  rewrite delete_suggestion_run.
  destruct (Suggestions.object_id id) as [oid|] eqn:Hoid; [|discriminate].
  cbn [fst snd]. intros _.
  assert (truthy_opt (Suggestions.suggestion_id req) = true) as Hid'
    by (by rewrite Hreq).
  destruct (get_by_id_route req
              {| Suggestions.db :=
                   Suggestions.remove_first (Suggestions.has_oid oid) (Suggestions.db st);
                 Suggestions.next_oid := Suggestions.next_oid st;
                 Suggestions.ticks := Suggestions.ticks st;
                 Suggestions.trace := Suggestions.trace st |} Hid')
    as (logs & -> & _).
  rewrite Hreq. change (default "" (Some id)) with id. cbn [fst].
  rewrite get_by_id_run, Hoid.
  cbn [Suggestions.db]. rewrite find_none; [reflexivity|].
  by apply remove_first_unique.
Qed.

(** X19. Clearing and listing compose: after [clear_all] the collection
    is empty, so the next listing request without identifier takes the cold
    start: it asks the generator for twelve records without hints, right
    after counting the collection. *)
Theorem clear_all_then_listing_reseeds {B : Builtins} {L : Suggestions.Library}
    {W : Suggestions.World} (id : string) (req : Suggestions.Request)
    (st : Suggestions.state) :
  let cleared := (Suggestions.delete_suggestion id true st).2 in
  truthy_opt (Suggestions.suggestion_id req) = false →
  Suggestions.db cleared = []
  ∧ ∃ later,
      Suggestions.trace (Suggestions.get_suggestions req cleared).2
      = later ++ Suggestions.EvGenerate None None None 12
              :: Suggestions.EvCount ∅ :: Suggestions.trace st.
Proof.
  intros cleared Hid. subst cleared. rewrite delete_suggestion_run. cbn [snd].
  split; [reflexivity|].
  set (cleared := Suggestions.Build_state _ _ _ _).
  destruct (listing_after_query req cleared Hid) as (l1 & ->).
  destruct (seed_asks_for_twelve cleared eq_refl) as (l2 & ->).
  eexists (l1 ++ _ :: _ :: l2). rewrite <-app_assoc. reflexivity.
Qed.

(** X18 at a collection of one trip, deleted and looked up again. *)
Lemma delete_then_lookup_is_404_witness :
  let W := Sample.model "[twelve]" in
  let req := {| Suggestions.category := None; Suggestions.budget := None;
                Suggestions.duration_min := None; Suggestions.duration_max := None;
                Suggestions.continent := None; Suggestions.featured := false;
                Suggestions.limit := 10; Suggestions.skip := 0;
                Suggestions.suggestion_id := Some "0" |} in
  let deleted := Suggestions.delete_suggestion (L := Sample.library) "0" false
                   Sample.one_city in
  deleted.1 = Ok (Suggestions.Deleted "0")
  ∧ (Suggestions.get_suggestions (B := Sample.builtins) (L := Sample.library)
       req deleted.2).1
    = Raise (HTTPException 404 "Suggestion not found").
Proof.
  intros W req deleted. split; [reflexivity|].
  apply (delete_then_lookup_is_404 (B := Sample.builtins) (L := Sample.library)
           (W := W) "0" req Sample.one_city); try reflexivity.
  split.
  - apply NoDup_singleton.
  - intros d Hd. apply list_elem_of_singleton in Hd as ->.
    exists 0%nat. split; [reflexivity|]. cbn [Suggestions.next_oid Sample.one_city].
    lia.
Defined.

(** X19 at a collection of one trip. *)
Lemma clear_all_then_listing_reseeds_witness :
  let W := Sample.model "[twelve]" in
  let cleared := (Suggestions.delete_suggestion (L := Sample.library) "anything" true
                    Sample.one_city).2 in
  Suggestions.db cleared = []
  ∧ ∃ later,
      Suggestions.trace
        (Suggestions.get_suggestions (B := Sample.builtins) (L := Sample.library)
           Sample.request cleared).2
      = later ++ [Suggestions.EvGenerate None None None 12; Suggestions.EvCount ∅].
Proof.
  intros W cleared.
  exact (clear_all_then_listing_reseeds (B := Sample.builtins)
           (L := Sample.library) (W := W) "anything" Sample.request
           Sample.one_city eq_refl).
Defined.

Section CreateFacts.
Import Suggestions.
Context {B : Builtins} {L : Library} {W : World}.

Implicit Types (st : state) (d request : gmap string value).


(** The update, by what the collection holds. *)
Lemma update_run request (suggestion_id : option string) (oid : nat) st :
  truthy_opt suggestion_id = true →
  object_id (default "" suggestion_id) = Some oid →
  let update_data := <["updated_at" := VDate (clock (ticks st))]> request in
  let st1 := {| db := update_first (has_oid oid) update_data (db st);
                next_oid := next_oid st; ticks := S (ticks st);
                trace := trace st |} in
  create_or_update_suggestion request suggestion_id st
  = if existsb (has_oid oid) (db st) then
      or_500 "Error creating/updating suggestion: "
        (show_found (List.find (has_oid oid) (db st1)))
        (logged (EvFindOne oid) st1)
    else (Raise (HTTPException 404 "Suggestion not found"), st1).
Proof.
  intros Hid Hoid update_data st1.
  unfold create_or_update_suggestion. rewrite !or_500_run, Hid, Hoid.
  rewrite bind_run. unfold utcnow at 1. cbv beta iota.
  rewrite bind_run. unfold update_one at 1. cbv beta iota.
  cbn [ticks db next_oid trace]. fold update_data. fold st1.
  destruct (existsb (has_oid oid) (db st)); [|reflexivity].
  change (1 =? 0) with false. cbv iota.
  rewrite bind_run. unfold find_one. rewrite bind_run, log_run.
  unfold gets at 1. cbv beta iota.
  change (List.find _ (db (logged (EvFindOne oid) st1)))
    with (List.find (has_oid oid) (db st1)).
  reflexivity.
Qed.

End CreateFacts.



(** X21. Updating by identifier. An identifier that is not well-formed
    gives 400 before anything happens; one that no document carries gives
    404 and leaves the collection as it was. Otherwise exactly the first
    document with the identifier changes, the others keeping their places:
    the fields of the request replace its own, [updated_at] is the clock's
    reading, and every other field (so the identifier, [created_at] and the
    featured mark) is kept; the answer is the changed document as the
    listing shows it, or 500 when it does not validate. *)
Theorem update_suggestion_outcomes {B : Builtins} {L : Suggestions.Library}
    {W : Suggestions.World} (request : gmap string value)
    (suggestion_id : option string) (st : Suggestions.state) :
  let id := default "" suggestion_id in
  let out := Suggestions.create_or_update_suggestion request suggestion_id st in
  let now := Suggestions.clock (Suggestions.ticks st) in
  truthy_opt suggestion_id = true →
  request !! "_id" = None →
  (Suggestions.object_id id = None →
   out = (Raise (HTTPException 400 "Invalid suggestion ID format"), st))
  ∧ (∀ oid, Suggestions.object_id id = Some oid →
       (∀ d, d ∈ Suggestions.db st → Suggestions.oid_of d ≠ Some oid) →
       out.1 = Raise (HTTPException 404 "Suggestion not found")
       ∧ Suggestions.db out.2 = Suggestions.db st)
  ∧ (∀ oid before d after,
       Suggestions.object_id id = Some oid →
       Suggestions.db st = before ++ d :: after →
       Suggestions.oid_of d = Some oid →
       (∀ x, x ∈ before → Suggestions.oid_of x ≠ Some oid) →
       ∃ updated shown,
         Suggestions.db out.2 = before ++ updated :: after
         ∧ updated !! "updated_at" = Some (VDate now)
         ∧ (∀ key v, key ≠ "updated_at" → request !! key = Some v →
                     updated !! key = Some v)
         ∧ (∀ key, key ≠ "updated_at" → request !! key = None →
                   updated !! key = d !! key)
         ∧ Suggestions.presents updated shown
         ∧ out.1 = (if Suggestions.validates shown then Ok shown
                    else Raise (HTTPException 500
                                  "validation error for SuggestedTrip"))).
Proof.
  intros id out now Hid Hreq. split; [|split].
  - intros Hbad. subst out. unfold Suggestions.create_or_update_suggestion.
    rewrite or_500_run, Hid. fold id. by rewrite Hbad.
  - intros oid Hoid Hnone. subst out.
    rewrite (update_run request suggestion_id oid st Hid Hoid).
    assert (∀ x, x ∈ Suggestions.db st → Suggestions.has_oid oid x = false) as Hno.
    { intros x Hx. apply has_oid_false. by apply Hnone. }
    rewrite existsb_none by assumption. cbn [fst snd Suggestions.db].
    split; [reflexivity|]. by apply update_first_none.
  - intros oid before d after Hoid Hdb Hd Hbefore.
    set (updated := <["updated_at" := VDate now]> request ∪ d).
    assert (updated !! "_id" = Some (VObjectId oid)) as Hupdated.
    { subst updated. rewrite lookup_union_r
        by (by rewrite lookup_insert_ne by done).
      unfold Suggestions.oid_of in Hd. by destruct (d !! "_id") as [[]|]; simplify_eq. }
    exists updated, (<["_id" := VStr (Suggestions.py_str (VObjectId oid))]>
                       (normalize_suggestion_data updated)).
    set (shown := <["_id" := _]> _).
    assert (∀ x, x ∈ before → Suggestions.has_oid oid x = false) as Hno.
    { intros x Hx. apply has_oid_false. by apply Hbefore. }
    assert (∃ st', out = ((if Suggestions.validates shown then Ok shown
                      else Raise (HTTPException 500
                                    "validation error for SuggestedTrip")), st')
              ∧ Suggestions.db st' = before ++ updated :: after)
      as (st' & -> & Hdb').
    { subst out. rewrite (update_run request suggestion_id oid st Hid Hoid).
      rewrite Hdb, existsb_first by (by apply has_oid_spec).
      cbn [Suggestions.db]. fold now.
      rewrite (update_first_at _ _ before after d Hno) by (by apply has_oid_spec).
      fold updated.
      rewrite (find_at _ before after updated Hno)
        by (apply has_oid_spec; unfold Suggestions.oid_of; by rewrite Hupdated).
      rewrite or_500_run, show_found_run, normalize_id, Hupdated. cbv zeta.
      fold shown. destruct (Suggestions.validates shown); eexists; by split. }
    cbn [fst snd]. split; [exact Hdb'|]. split; [|split; [|split; [|split]]].
    + subst updated. apply lookup_union_Some_l, lookup_insert_eq.
    + intros key v Hkey Hv. subst updated. apply lookup_union_Some_l.
      by rewrite lookup_insert_ne.
    + intros key Hkey Hnone. subst updated. apply lookup_union_r.
      by rewrite lookup_insert_ne.
    + exists (VObjectId oid). by rewrite normalize_id.
    + reflexivity.
Qed.

(** X21 at a collection of one trip, updated with the fields of Porto. *)
Lemma update_suggestion_outcomes_witness :
  let W := Sample.model "[twelve]" in
  let out := Suggestions.create_or_update_suggestion (L := Sample.library)
               Sample.porto (Some "0") Sample.one_city in
  ∃ updated,
    Suggestions.db out.2 = [updated]
    ∧ updated !! "destination" = Some (VStr "Porto")
    ∧ updated !! "_id" = Some (VObjectId 0).
Proof.
  intros W out.
  destruct (update_suggestion_outcomes (B := Sample.builtins) (L := Sample.library)
              (W := W) Sample.porto (Some "0") Sample.one_city eq_refl eq_refl)
    as (_ & _ & Hupdate).
  destruct (Hupdate 0%nat [] (Sample.stored 0 "Oslo" ["city"] 4.6) [])
    as (updated & shown & Hdb & _ & Hset & Hkeep & _);
    [reflexivity|reflexivity|reflexivity|by intros x ?%elem_of_nil|].
  exists updated. split; [exact Hdb|]. split.
  - by apply Hset.
  - by rewrite Hkeep.
Defined.

(** ** The migration *)

Section MigrationFacts.
Import Suggestions.
Context {B : Builtins} {L : Library} {W : World}.

Implicit Types (st : state) (d : gmap string value).

(** A value equals itself. *)
Lemma py_eq_refl : ∀ v : value, py_eq v v = true.
Proof.
  fix IH 1. intros [ |b|n|q|s|l|kvs|t|oid]; cbn [py_eq num_of].
  - reflexivity.
  - apply Qeq_bool_iff. reflexivity.
  - apply Qeq_bool_iff. reflexivity.
  - apply Qeq_bool_iff. reflexivity.
  - apply String.eqb_refl.
  - induction l as [|a l IHl]; [reflexivity|]. by rewrite (IH a), IHl.
  - rewrite Nat.eqb_refl. cbn [andb].
    assert (∀ whole : list (string * value),
              (∀ kv, kv ∈ kvs → kv ∈ whole) →
              (fix go (x : list (string * value)) : bool :=
                 match x with
                 | [] => true
                 | (k, a') :: x' =>
                     existsb (λ kb : string * value,
                                String.eqb k kb.1 && py_eq a' kb.2) whole
                     && go x'
                 end) kvs = true) as Hgo; [|by apply Hgo].
    induction kvs as [|[k a] kvs IHkvs]; intros whole Hsub; [reflexivity|].
    rewrite IHkvs by (intros kv Hkv; apply Hsub; by right).
    rewrite andb_true_r. apply existsb_exists. exists (k, a).
    split; [apply list_elem_of_In, Hsub; by left|].
    cbn [fst snd]. by rewrite String.eqb_refl, (IH a).
  - apply Z.eqb_refl.
  - apply Nat.eqb_refl.
Qed.

(** What the migration stores for a field. *)
Lemma migrated_lookup d (key : string) :
  migrated d !! key
  = match d !! key with
    | Some v => if decide (key ∈ array_fields)
                then Some (VList (spec_field (Some v))) else Some v
    | None => None
    end.
Proof.
  unfold migrated. rewrite map_lookup_imap.
  destruct (d !! key) as [v|]; [|reflexivity]. cbn [mbind option_bind].
  by destruct (decide (key ∈ array_fields)).
Qed.

Lemma migrated_oid d : oid_of (migrated d) = oid_of d.
Proof.
  unfold oid_of. rewrite migrated_lookup.
  destruct (d !! "_id") as [v|]; [|reflexivity].
  by rewrite decide_False by compute_done.
Qed.

(** A document none of whose five fields is kept as text is its own
    migration. *)
Lemma not_a_list_false (o : option value) :
  not_a_list o = false → o = None ∨ ∃ l, o = Some (VList l).
Proof. destruct o as [[]|]; try discriminate; eauto. Qed.

Lemma needs_migration_false d (key : string) :
  needs_migration d = false → key ∈ array_fields → not_a_list (d !! key) = false.
Proof.
  unfold needs_migration. intros Hd Hkey.
  destruct (not_a_list (d !! key)) eqn:Hk; [|reflexivity].
  rewrite <-Hd. symmetry. apply existsb_exists. exists key.
  split; [by apply list_elem_of_In|exact Hk].
Qed.

Lemma migrated_done d : needs_migration d = false → migrated d = d.
Proof.
  intros Hd. apply map_eq. intros key. rewrite migrated_lookup.
  destruct (d !! key) as [v|] eqn:Hv; [|reflexivity].
  destruct (decide (key ∈ array_fields)) as [Hkey|]; [|reflexivity].
  pose proof (needs_migration_false d key Hd Hkey) as Hk. rewrite Hv in Hk.
  apply not_a_list_false in Hk as [Hk|[l Hk]]; [discriminate|].
  injection Hk as ->. reflexivity.
Qed.

Lemma migrated_needs_none d : needs_migration (migrated d) = false.
Proof.
  unfold needs_migration. apply not_true_iff_false.
  intros (key & Hkey%list_elem_of_In & Hk)%existsb_exists.
  rewrite migrated_lookup in Hk. destruct (d !! key); [|discriminate].
  by rewrite decide_True in Hk.
Qed.

(** One round of the loop over the five fields. *)
Lemma field_update_step d (acc : gmap string value * bool) (field : string) :
  field ∈ array_fields →
  field_update d (normalize_suggestion_data d) acc field
  = if not_a_list (d !! field)
    then (<[field := VList (spec_field (d !! field))]> acc.1, true)
    else acc.
Proof.
  intros Hfield. unfold field_update.
  rewrite normalize_lookup, decide_True by assumption.
  destruct (d !! field) as [o|]; [|reflexivity].
  destruct o; try reflexivity.
  cbn [spec_field not_a_list]. by rewrite py_eq_refl.
Qed.

(** A loop that sets the value of every field picked out, and says
    whether there was one. *)
Lemma fold_updates (step : gmap string value * bool → string → gmap string value * bool)
    (picked : string → bool) (val : string → value) (fields : list string) :
  (∀ acc field, field ∈ fields →
     step acc field = if picked field then (<[field := val field]> acc.1, true)
                      else acc) →
  ∀ acc : gmap string value * bool,
    (fold_left step fields acc).2 = acc.2 || existsb picked fields
    ∧ ∀ key, (fold_left step fields acc).1 !! key
             = if decide (key ∈ fields)
               then if picked key then Some (val key) else acc.1 !! key
               else acc.1 !! key.
Proof.
  induction fields as [|field fields IH]; intros Hstep acc.
  - split; [symmetry; apply orb_false_r|]. intros key.
    by rewrite decide_False by apply not_elem_of_nil.
  - change (fold_left step (field :: fields) acc)
      with (fold_left step fields (step acc field)).
    change (existsb picked (field :: fields))
      with (picked field || existsb picked fields).
    rewrite Hstep by (by left).
    assert (∀ acc f, f ∈ fields →
              step acc f = if picked f then (<[f := val f]> acc.1, true) else acc)
      as Hrest by (intros a f Hf; apply Hstep; by right).
    destruct (picked field) eqn:Hf.
    + destruct (IH Hrest (<[field := val field]> acc.1, true)) as [Hflag Hkeys].
      cbn [fst snd orb] in Hflag, Hkeys. split.
      * rewrite Hflag. symmetry. apply orb_true_r.
      * intros key. rewrite Hkeys.
        destruct (decide (key ∈ fields)) as [Hin|Hout].
        -- rewrite decide_True by (by right).
           destruct (picked key) eqn:Hk; [reflexivity|].
           apply lookup_insert_ne. congruence.
        -- destruct (decide (key = field)) as [->|Hne].
           ++ rewrite decide_True by (by left). rewrite Hf. apply lookup_insert_eq.
           ++ rewrite decide_False by (rewrite elem_of_cons; tauto).
              by apply lookup_insert_ne.
    + destruct (IH Hrest acc) as [Hflag Hkeys]. split; [exact Hflag|].
      intros key. rewrite Hkeys.
      destruct (decide (key ∈ fields)) as [Hin|Hout].
      * by rewrite decide_True by (by right).
      * destruct (decide (key = field)) as [->|Hne].
        -- rewrite decide_True by (by left). by rewrite Hf.
        -- by rewrite decide_False by (rewrite elem_of_cons; tauto).
Qed.

(** The loop of the migration: the updates hold the normalised value of
    every field that is there and is not a list, and the flag says whether
    there is one. *)
Lemma field_updates d :
  (fold_left (field_update d (normalize_suggestion_data d)) array_fields
     (∅, false)).2 = needs_migration d
  ∧ ∀ key, (fold_left (field_update d (normalize_suggestion_data d)) array_fields
              (∅, false)).1 !! key
           = if decide (key ∈ array_fields)
             then if not_a_list (d !! key)
                  then Some (VList (spec_field (d !! key)))
                  else None
             else None.
Proof.
  destruct (fold_updates (field_update d (normalize_suggestion_data d))
              (λ field, not_a_list (d !! field))
              (λ field, VList (spec_field (d !! field)))
              array_fields
              (λ acc field Hfield, field_update_step d acc field Hfield)
              (∅, false)) as [Hflag Hkeys].
  split; [exact Hflag|]. intros key. rewrite Hkeys.
  destruct (decide (key ∈ array_fields)); [|apply lookup_empty].
  destruct (not_a_list (d !! key)); [reflexivity|apply lookup_empty].
Qed.

(** Setting the updates gives the migrated document. *)
Lemma updates_union d :
  (fold_left (field_update d (normalize_suggestion_data d)) array_fields
     (∅, false)).1 ∪ d
  = migrated d.
Proof.
  destruct (field_updates d) as [_ Hkeys].
  apply map_eq. intros key. rewrite migrated_lookup.
  specialize (Hkeys key).
  set (updates := (fold_left (field_update d (normalize_suggestion_data d))
                     array_fields (∅, false)).1) in *.
  destruct (updates !! key) as [x|] eqn:Hx.
  - rewrite (lookup_union_Some_l _ _ _ x) by assumption.
    rewrite Hkeys. destruct (decide (key ∈ array_fields)); [|done].
    destruct (d !! key) as [v|]; [|discriminate Hkeys].
    by destruct (not_a_list (Some v)).
  - rewrite lookup_union_r by assumption.
    destruct (d !! key) as [v|]; [|reflexivity].
    destruct (decide (key ∈ array_fields)); [|reflexivity].
    destruct (not_a_list (Some v)) eqn:Hv; [discriminate Hkeys|].
    apply not_a_list_false in Hv as [Hv|[l Hv]]; [discriminate|].
    injection Hv as ->. reflexivity.
Qed.

(** One document of the snapshot. *)
Lemma migrate_one_run (updated_count : Z) d st :
  migrate_one updated_count d st
  = if needs_migration d then
      match d !! "_id" with
      | None => (Raise (Exception "KeyError: '_id'"), st)
      | Some id =>
          (Ok (updated_count + 1),
           {| db := update_first (id_matches id)
                      (fold_left (field_update d (normalize_suggestion_data d))
                         array_fields (∅, false)).1 (db st);
              next_oid := next_oid st; ticks := ticks st; trace := trace st |})
      end
    else (Ok updated_count, st).
Proof.
  unfold migrate_one.
  destruct (field_updates d) as [Hflag _].
  destruct (fold_left _ array_fields (∅, false)) as [updates needs_update].
  cbn [fst snd] in *. subst needs_update.
  destruct (needs_migration d); [|reflexivity].
  destruct (d !! "_id"); reflexivity.
Qed.

(** The loop over the snapshot, started after the documents [done]. *)
Lemma migrate_loop_run (rest : list (gmap string value)) :
  ∀ (done : list (gmap string value)) (updated_count : Z) st,
    db st = map migrated done ++ rest →
    NoDup (map oid_of (done ++ rest)) →
    (∀ d, d ∈ rest → ∃ n, oid_of d = Some n) →
    migrate_loop rest updated_count st
    = (Ok (updated_count + Z.of_nat (length (List.filter needs_migration rest))),
       {| db := map migrated (done ++ rest); next_oid := next_oid st;
          ticks := ticks st; trace := trace st |}).
Proof.
  induction rest as [|d rest IH]; intros done updated_count st Hdb Hnd Hids.
  - cbn [migrate_loop List.filter length]. unfold mret, M_ret.
    rewrite app_nil_r in *. rewrite <-Hdb, Z.add_0_r. by destruct st.
  - cbn [migrate_loop]. rewrite bind_run, migrate_one_run.
    assert (done ++ d :: rest = (done ++ [d]) ++ rest) as Hsplit
      by (by rewrite <-app_assoc).
    cbn [List.filter].
    destruct (needs_migration d) eqn:Hneeds.
    + destruct (Hids d) as [n Hn]; [by left|].
      assert (d !! "_id" = Some (VObjectId n)) as Hid.
      { unfold oid_of in Hn. by destruct (d !! "_id") as [[]|]; simplify_eq. }
      rewrite Hid. cbn [id_matches].
      rewrite Hdb, (update_first_at _ _ (map migrated done) rest d).
      * rewrite updates_union.
        rewrite (IH (done ++ [d]) (updated_count + 1)).
        -- cbn [next_oid ticks trace length]. rewrite Hsplit. do 2 f_equal. lia.
        -- cbn [db]. rewrite map_app, <-app_assoc. reflexivity.
        -- by rewrite <-Hsplit.
        -- intros x Hx. apply Hids. by right.
      * intros x (y & <- & Hy%list_elem_of_In)%list_elem_of_In%in_map_iff.
        apply has_oid_false. rewrite migrated_oid. intros Hy'.
        rewrite map_app in Hnd. apply NoDup_app in Hnd as (_ & Hdisjoint & _).
        apply (Hdisjoint (Some n)).
        -- rewrite <-Hy'. by apply list_elem_of_In, in_map, list_elem_of_In.
        -- cbn [map]. rewrite Hn. by left.
      * by apply has_oid_spec.
    + rewrite (IH (done ++ [d]) updated_count).
      * by rewrite Hsplit.
      * rewrite Hdb, map_app, <-app_assoc. cbn [map app].
        by rewrite (migrated_done d Hneeds).
      * by rewrite <-Hsplit.
      * intros x Hx. apply Hids. by right.
Qed.

(** The route, for [string-to-array]. *)
Lemma migrate_string_to_array st :
  well_identified st →
  migrate_database "string-to-array" st
  = (Ok (Migrated (Z.of_nat (length (List.filter needs_migration (db st))))
           (Z.of_nat (length (db st)))),
     {| db := map migrated (db st); next_oid := next_oid st;
        ticks := ticks st; trace := trace st |}).
Proof.
  intros [Hnd Hids]. unfold migrate_database. rewrite or_500_run.
  change ("string-to-array" =? "string-to-array")%string with true. cbv iota.
  rewrite bind_run. unfold gets at 1. cbv beta iota.
  rewrite bind_run, (migrate_loop_run (db st) [] 0 st); try done.
  intros d Hd. destruct (Hids d Hd) as (n & Hn & _). eauto.
Qed.

End MigrationFacts.

Section MigrationRuns.
Import Suggestions.
Context {B : Builtins} {L : Library} {W : World}.

Implicit Types (st : state) (d : gmap string value).

(** A migrated collection has the same identifiers and needs no
    migration. *)
Lemma migrated_well_identified st :
  well_identified st →
  well_identified {| db := map migrated (db st); next_oid := next_oid st;
                     ticks := ticks st; trace := trace st |}.
Proof.
  intros [Hnd Hids]. split; cbn [db next_oid].
  - rewrite map_map. erewrite map_ext; [exact Hnd|]. apply migrated_oid.
  - intros d' (d & <- & Hd%list_elem_of_In)%list_elem_of_In%in_map_iff.
    rewrite migrated_oid. by apply Hids.
Qed.

Lemma migrated_all_done (l : list (gmap string value)) :
  List.filter needs_migration (map migrated l) = []
  ∧ map migrated (map migrated l) = map migrated l.
Proof.
  induction l as [|d l [IH1 IH2]]; [done|]. cbn [map List.filter].
  rewrite migrated_needs_none, IH1, IH2.
  by rewrite (migrated_done (migrated d)) by apply migrated_needs_none.
Qed.

(** Seeding on request. *)
Lemma migrate_seed_ai st :
  migrate_database "seed-ai" st
  = or_500 "Error during migration: "
      (ai_suggestions ← generate_suggestions None None None 10;
       ai_suggestions ← stamp_all (λ i, i <? 3)%nat 0 ai_suggestions;
       inserted_ids ← insert_many_ids ai_suggestions;
       mret (Seeded (Z.of_nat (length inserted_ids)))) st.
Proof. reflexivity. Qed.

End MigrationRuns.

(** X22. The migration [string-to-array] normalises what is stored, and
    nothing more. On a collection whose documents have identifiers of their
    own it succeeds and keeps every document in its place; in each document
    every one of the five fields that is there comes to hold what the
    normaliser makes of it (a list stays as it is), a field that is absent
    stays absent (the migration adds none of the five), and every other
    field is kept. It reports the number of documents that had one of the
    five fields not held as a list, and the number of documents; it touches
    neither the clock nor the log. *)
Theorem migration_normalises_present_fields {L : Suggestions.Library}
    {W : Suggestions.World} (st : Suggestions.state) :
  let out := Suggestions.migrate_database "string-to-array" st in
  Suggestions.well_identified st →
  out.1 = Ok (Suggestions.Migrated
                (Z.of_nat (length (List.filter Suggestions.needs_migration
                                     (Suggestions.db st))))
                (Z.of_nat (length (Suggestions.db st))))
  ∧ length (Suggestions.db out.2) = length (Suggestions.db st)
  ∧ (∀ i d, Suggestions.db st !! i = Some d →
       ∃ d', Suggestions.db out.2 !! i = Some d'
             ∧ (∀ key v, key ∈ array_fields → d !! key = Some v →
                         d' !! key = Some (VList (spec_field (Some v))))
             ∧ (∀ key, d !! key = None → d' !! key = None)
             ∧ (∀ key, key ∉ array_fields → d' !! key = d !! key))
  ∧ Suggestions.next_oid out.2 = Suggestions.next_oid st
  ∧ Suggestions.ticks out.2 = Suggestions.ticks st
  ∧ Suggestions.trace out.2 = Suggestions.trace st.
Proof.
  intros out Hwi. subst out. rewrite migrate_string_to_array by assumption.
  cbn [fst snd Suggestions.db Suggestions.next_oid Suggestions.ticks
       Suggestions.trace].
  split; [reflexivity|]. split; [apply length_map|].
  split; [|by repeat split].
  intros i d Hd. exists (Suggestions.migrated d). split.
  - change (map Suggestions.migrated ?l) with (Suggestions.migrated <$> l).
    by rewrite list_lookup_fmap, Hd.
  - repeat split.
    + intros key v Hkey Hv. by rewrite migrated_lookup, Hv, decide_True.
    + intros key Hnone. by rewrite migrated_lookup, Hnone.
    + intros key Hkey. rewrite migrated_lookup.
      destruct (d !! key); [|reflexivity]. by rewrite decide_False.
Qed.

(** X22 at a collection of two trips, the second with fields kept as
    text. *)
Lemma migration_normalises_present_fields_witness :
  let W := Sample.model "[]" in
  let out := Suggestions.migrate_database (L := Sample.library) "string-to-array"
               Sample.legacy_store in
  out.1 = Ok (Suggestions.Migrated 1 2)
  ∧ ∃ d', Suggestions.db out.2 !! 1%nat = Some d'
          ∧ d' !! "category" = Some (VList [VStr "beach"; VStr "food"])
          ∧ d' !! "best_months" = None.
Proof.
  intros W out.
  destruct (migration_normalises_present_fields (L := Sample.library) (W := W)
              Sample.legacy_store) as (Hout & _ & Hdocs & _).
  - split.
    + apply NoDup_cons. split; [by intros ?%list_elem_of_singleton|].
      apply NoDup_singleton.
    + intros d [->|Hd%list_elem_of_singleton]%elem_of_cons.
      * exists 0%nat. split; [reflexivity|].
        cbn [Suggestions.next_oid Sample.legacy_store]. lia.
      * subst d. exists 1%nat. split; [reflexivity|].
        cbn [Suggestions.next_oid Sample.legacy_store]. lia.
  - split; [exact Hout|].
    destruct (Hdocs 1%nat _ eq_refl) as (d' & Hd' & Hfields & Hnone & _).
    exists d'. split; [exact Hd'|]. split.
    + rewrite (Hfields "category" (VStr "beach, food")); [reflexivity| |reflexivity].
      compute_done.
    + by apply Hnone.
Defined.

(** X23. The migration is idempotent: run again right after a run on a
    collection whose documents have identifiers of their own, it updates no
    document and leaves the collection exactly as the first run left it. *)
Theorem migration_idempotent {L : Suggestions.Library} {W : Suggestions.World}
    (st : Suggestions.state) :
  let once := Suggestions.migrate_database "string-to-array" st in
  let twice := Suggestions.migrate_database "string-to-array" once.2 in
  Suggestions.well_identified st →
  twice.1 = Ok (Suggestions.Migrated 0 (Z.of_nat (length (Suggestions.db st))))
  ∧ Suggestions.db twice.2 = Suggestions.db once.2.
Proof.
  intros once twice Hwi. subst twice once.
  rewrite (migrate_string_to_array st Hwi). cbn [snd].
  rewrite migrate_string_to_array by (by apply migrated_well_identified).
  cbn [fst snd Suggestions.db].
  destruct (migrated_all_done (Suggestions.db st)) as [-> ->].
  by rewrite length_map.
Qed.

(** X23 at the same collection. *)
Lemma migration_idempotent_witness :
  let W := Sample.model "[]" in
  let once := Suggestions.migrate_database (L := Sample.library) "string-to-array"
                Sample.legacy_store in
  let twice := Suggestions.migrate_database (L := Sample.library) "string-to-array"
                 once.2 in
  once.1 = Ok (Suggestions.Migrated 1 2)
  ∧ twice.1 = Ok (Suggestions.Migrated 0 2).
Proof.
  intros W once twice. split; [reflexivity|].
  apply (migration_idempotent (L := Sample.library) (W := W) Sample.legacy_store).
  split.
  - apply NoDup_cons. split; [by intros ?%list_elem_of_singleton|].
    apply NoDup_singleton.
  - intros d [->|Hd%list_elem_of_singleton]%elem_of_cons.
    + exists 0%nat. split; [reflexivity|].
      cbn [Suggestions.next_oid Sample.legacy_store]. lia.
    + subst d. exists 1%nat. split; [reflexivity|].
      cbn [Suggestions.next_oid Sample.legacy_store]. lia.
Defined.

(** X24. The operation [seed-ai] asks the generator for ten records
    without hints. A non-empty batch is appended to the collection, in
    order, each record stamped, the first three marked featured and the
    others not, and its size is reported. A failure of the generator gives
    an HTTP error and leaves the collection as it was; so does an empty
    batch, which the store refuses: unlike the listing, this route does not
    check that the batch is non-empty before inserting it. *)
Theorem seed_ai_marks_three_featured {L : Suggestions.Library}
    {W : Suggestions.World} (st : Suggestions.state) :
  let g := Suggestions.generate_suggestions None None None 10 st in
  let out := Suggestions.migrate_database "seed-ai" st in
  (∀ batch, g.1 = Ok batch → batch ≠ [] →
     ∃ new, out.1 = Ok (Suggestions.Seeded (Z.of_nat (length batch)))
            ∧ Suggestions.db out.2 = Suggestions.db st ++ new
            ∧ Suggestions.persisted_as (λ i, i <? 3)%nat batch new)
  ∧ (g.1 = Ok [] →
     out.1 = Raise (HTTPException 500 "documents must be a non-empty list")
     ∧ Suggestions.db out.2 = Suggestions.db st)
  ∧ (∀ e, g.1 = Raise e →
     (∃ code detail, out.1 = Raise (HTTPException code detail))
     ∧ Suggestions.db out.2 = Suggestions.db st).
Proof.
  intros g out.
  destruct (generate_frame None None None 10 st) as (Hdb & Hoid & _).
  fold g in Hdb, Hoid.
  subst out. rewrite migrate_seed_ai, or_500_run, bind_run. fold g.
  clearbody g. destruct g as [[[|d batch]|e] sg]; cbn [fst snd] in *.
  - split; [intros batch Heq Hne; by injection Heq as <-|].
    split; [intros _; split; [reflexivity|exact Hdb]|]. intros e He. discriminate He.
  - split; [|split; intros; discriminate].
    intros batch' Heq Hne. injection Heq as <-.
    destruct (stamp_all_run (λ i, i <? 3)%nat (d :: batch) 0 sg)
      as (l' & Hrun & Hlen & Hst).
    exists (imap (λ i d, Suggestions.with_id (Suggestions.next_oid sg + i) d) l').
    rewrite bind_run, Hrun, bind_run, insert_many_ids_run
      by (intros ->; discriminate).
    unfold mret, M_ret. cbn [fst snd Suggestions.db].
    rewrite length_imap, Hlen, Hdb.
    split; [reflexivity|]. split; [reflexivity|].
    split; [by rewrite length_imap|].
    intros i x Hi. rewrite list_lookup_imap in Hi.
    destruct (l' !! i) as [d1|] eqn:E; [|discriminate].
    cbn [fmap option_fmap option_map] in Hi. injection Hi as <-.
    destruct (Hst i d1 E) as (Hstamp & d0 & Hd0 & Hkeep).
    split; [by apply with_id_stamped|].
    exists d0. split; [assumption|by apply with_id_keeps].
  - split; [intros; discriminate|]. split; [intros; discriminate|].
    intros e' He. injection He as <-.
    destruct e; (split; [eexists _, _; reflexivity|exact Hdb]).
Qed.

(** X25. An operation that is neither [string-to-array] nor [seed-ai]
    (the names are compared as they are, case included) is answered with
    400 naming it, and nothing happens: the collection, the clock and the
    log are as before, and the generator is not called. *)
Theorem migrate_unknown_operation_is_400 {L : Suggestions.Library}
    {W : Suggestions.World} (operation : string) (st : Suggestions.state) :
  operation ≠ "string-to-array" →
  operation ≠ "seed-ai" →
  Suggestions.migrate_database operation st
  = (Raise (HTTPException 400 ("Unknown operation: " +:+ operation)), st).
Proof.
  intros Hmigrate Hseed. unfold Suggestions.migrate_database.
  rewrite or_500_run.
  apply String.eqb_neq in Hmigrate, Hseed. by rewrite Hmigrate, Hseed.
Qed.

(** X25 at the name of the first operation in capitals. *)
Lemma migrate_unknown_operation_is_400_witness :
  let W := Sample.model "[twelve]" in
  Suggestions.migrate_database (L := Sample.library) "String-To-Array"
    Sample.legacy_store
  = (Raise (HTTPException 400 "Unknown operation: String-To-Array"),
     Sample.legacy_store).
Proof.
  intros W.
  apply (migrate_unknown_operation_is_400 (L := Sample.library) (W := W));
    discriminate.
Defined.

(** ** The helpers *)

Section HelperStrings.

Lemma contains_app (c : ascii) (s t : string) :
  PyStr.contains c (s +:+ t) = PyStr.contains c s || PyStr.contains c t.
Proof.
  induction s as [|a s IH]; [reflexivity|].
  rewrite append_cons. cbn [PyStr.contains]. by destruct (Ascii.eqb a c).
Qed.

(** Stripping brings in no character. *)
Lemma strip_contains (c : ascii) (s : string) :
  PyStr.contains c s = false → PyStr.contains c (PyStr.strip s) = false.
Proof.
  destruct (strip_spec s) as (l & r & Hs & _). intros Hc.
  rewrite Hs, !contains_app in Hc.
  apply orb_false_elim in Hc as [_ Hc]. by apply orb_false_elim in Hc as [Hc _].
Qed.

Lemma lstrip_clean (s : string) : PyStr.starts_clean s = true → PyStr.lstrip s = s.
Proof. destruct s as [|c s]; [reflexivity|]. cbn. by destruct (PyStr.isspace c). Qed.

Lemma strip_clean (s : string) :
  PyStr.starts_clean s = true → PyStr.ends_clean s = true → PyStr.strip s = s.
Proof.
  intros Hs He. unfold PyStr.strip, PyStr.rstrip.
  rewrite (lstrip_clean s Hs), lstrip_clean by exact He. apply rev_rev.
Qed.

Lemma strip_idem (s : string) : PyStr.strip (PyStr.strip s) = PyStr.strip s.
Proof.
  destruct (strip_spec s) as (_ & _ & _ & _ & _ & Hs & He). by apply strip_clean.
Qed.

(** The first piece of a split, and what follows it. *)
Lemma split_first (sep : ascii) (s : string) :
  ∃ rest, s = hd EmptyString (PyStr.split sep s) +:+ rest
          ∧ (rest = EmptyString ∨ ∃ rest', rest = String sep rest')
          ∧ PyStr.contains sep (hd EmptyString (PyStr.split sep s)) = false.
Proof.
  induction s as [|c s (rest & Hs & Hrest & Hpiece)].
  - exists EmptyString. split; [reflexivity|]. split; [by left|reflexivity].
  - cbn [PyStr.split]. destruct (Ascii.eqb_spec c sep) as [->|Hc].
    + exists (String sep s). split; [reflexivity|]. split; [|reflexivity].
      right. eauto.
    + pose proof (split_nonempty sep s) as Hne.
      destruct (PyStr.split sep s) as [|p ps]; [congruence|]. cbn [hd] in *.
      exists rest. rewrite append_cons, <-Hs.
      split; [reflexivity|]. split; [assumption|].
      cbn [PyStr.contains]. by rewrite (proj2 (Ascii.eqb_neq c sep) Hc).
Qed.

Lemma length_append (s t : string) :
  String.length (s +:+ t) = (String.length s + String.length t)%nat.
Proof.
  induction s as [|c s IH]; [reflexivity|]. rewrite append_cons.
  cbn [String.length]. by rewrite IH.
Qed.

Lemma length_str_take (n : nat) (s : string) :
  (String.length (PyStr.take n s) ≤ n)%nat.
Proof.
  revert s. induction n as [|n IH]; intros [|c s]; cbn [PyStr.take String.length];
    try lia. specialize (IH s). lia.
Qed.

Lemma length_strip (s : string) :
  (String.length (PyStr.strip s) ≤ String.length s)%nat.
Proof.
  destruct (strip_spec s) as (l & r & Hs & _).
  rewrite Hs at 2. rewrite !length_append. lia.
Qed.

(** A prefix of the text. *)
Lemma take_prefix (n : nat) (s : string) : ∃ rest, s = PyStr.take n s +:+ rest.
Proof.
  revert s. induction n as [|n IH]; intros [|c s]; cbn [PyStr.take];
    try (by eexists). destruct (IH s) as [rest Hrest].
  exists rest. by rewrite append_cons, <-Hrest.
Qed.

End HelperStrings.

(** X26. [extract_city_from_destination] returns the text before the
    first comma, stripped: the destination is some white space, the city,
    some white space, and then nothing or a comma and the rest. The city
    holds no comma and no white space at either end, so extracting again
    changes nothing; and a destination without comma is just stripped. *)
Theorem extract_city_is_first_piece (destination : string) :
  let city := Helpers.extract_city_from_destination destination in
  PyStr.contains comma city = false
  ∧ PyStr.starts_clean city = true
  ∧ PyStr.ends_clean city = true
  ∧ Helpers.extract_city_from_destination city = city
  ∧ (PyStr.contains comma destination = false → city = PyStr.strip destination)
  ∧ ∃ l r rest,
      destination = l +:+ city +:+ r +:+ rest
      ∧ PyStr.all_space l = true ∧ PyStr.all_space r = true
      ∧ (rest = EmptyString ∨ ∃ rest', rest = String comma rest').
Proof.
  intros city. subst city. unfold Helpers.extract_city_from_destination.
  destruct (split_first comma destination) as (rest & Hdest & Hrest & Hpiece).
  set (piece := hd EmptyString (PyStr.split comma destination)) in *.
  destruct (strip_spec piece) as (l & r & Hp & Hl & Hr & Hs & He).
  assert (PyStr.contains comma (PyStr.strip piece) = false) as Hcity
    by (by apply strip_contains).
  split; [exact Hcity|]. split; [exact Hs|]. split; [exact He|]. split; [|split].
  - rewrite split_without_sep by exact Hcity. cbn [hd]. apply strip_idem.
  - intros Hnone. subst piece. by rewrite split_without_sep.
  - exists l, r, rest. split; [|by repeat split].
    rewrite Hdest at 1. rewrite Hp at 1. by rewrite !append_assoc.
Qed.

(** X27. [truncate_text] keeps the text within the length asked for,
    provided the suffix itself fits: a text no longer than [max_length] is
    returned as it is; a longer one becomes a stripped prefix of the text
    followed by the suffix, and when the suffix is no longer than
    [max_length] the result is no longer than [max_length]. *)
Theorem truncate_text_fits (text : string) (max_length : Z) (suffix : string) :
  let short := Helpers.truncate_text text max_length suffix in
  Z.of_nat (String.length suffix) ≤ max_length →
  Z.of_nat (String.length short) ≤ max_length
  ∧ (Z.of_nat (String.length text) ≤ max_length → short = text)
  ∧ (max_length < Z.of_nat (String.length text) →
     ∃ prefix rest, text = prefix +:+ rest
                    ∧ short = PyStr.strip prefix +:+ suffix).
Proof.
  intros short Hsuffix. subst short. unfold Helpers.truncate_text.
  destruct (Z.leb_spec (Z.of_nat (String.length text)) max_length) as [Hfits|Hlong].
  - split; [assumption|]. split; [reflexivity|lia].
  - unfold Helpers.slice_to.
    destruct (Z.ltb_spec (max_length - Z.of_nat (String.length suffix)) 0); [lia|].
    set (n := Z.to_nat (max_length - Z.of_nat (String.length suffix))).
    split; [|split; [lia|]].
    + rewrite length_append.
      pose proof (length_strip (PyStr.take n text)).
      pose proof (length_str_take n text). lia.
    + intros _. destruct (take_prefix n text) as [rest Hrest]. eauto.
Qed.

(** X27 at a text of 26 characters cut to 10. *)
Lemma truncate_text_fits_witness :
  Helpers.truncate_text "Lisbon and the Tagus river" 10 "..." = "Lisbon..."
  ∧ Z.of_nat (String.length
                (Helpers.truncate_text "Lisbon and the Tagus river" 10 "...")) ≤ 10.
Proof.
  split; [reflexivity|].
  apply (truncate_text_fits "Lisbon and the Tagus river" 10 "..."). by vm_compute.
Defined.

Section TagFacts.
Import Helpers.
Context {B : Builtins}.

(** Appending to the list under a key that is there changes that entry
    alone. *)
Lemma append_to_keys (keys : list string) (lists : string → list string)
    (key interest : string) :
  NoDup keys →
  append_to key interest (map (λ k, (k, lists k)) keys)
  = map (λ k, (k, if String.eqb k key then lists k ++ [interest] else lists k)) keys.
Proof.
  induction keys as [|k keys IH]; intros Hnd; [reflexivity|].
  apply NoDup_cons in Hnd as [Hk Hnd]. cbn [map append_to].
  destruct (String.eqb_spec k key) as [->|Hne].
  - f_equal. apply map_ext_in. intros k' Hk'.
    destruct (String.eqb_spec k' key) as [->|]; [|reflexivity].
    by apply list_elem_of_In in Hk'.
  - f_equal. by apply IH.
Qed.

Lemma tag_keys_NoDup : NoDup tag_keys.
Proof. compute_done. Qed.

(** The inner loop answers with a key of the dictionary. *)
Lemma first_category_key (cats : list (string * list string)) (word category : string) :
  first_category cats word = Some category → category ∈ map fst cats.
Proof.
  induction cats as [|[c keywords] cats IH]; [discriminate|]. cbn [first_category map fst].
  destruct (existsb _ keywords).
  - intros Heq. injection Heq as ->. by left.
  - intros Hc. right. by apply IH.
Qed.

Lemma category_of_key (interest : string) : category_of interest ∈ tag_keys.
Proof.
  unfold category_of, tag_keys.
  destruct (first_category categories (str_lower interest)) as [c|] eqn:Hc.
  - apply elem_of_app. left. by apply first_category_key in Hc.
  - apply elem_of_app. right. by left.
Qed.

(** The dictionary after the loop went through [interests], started from
    the lists [lists]. *)
Lemma categorize_all (interests : list string) :
  ∀ lists : string → list string,
    fold_left categorize interests (map (λ k, (k, lists k)) tag_keys)
    = map (λ k, (k, lists k
                    ++ List.filter (λ interest, String.eqb (category_of interest) k)
                         interests)) tag_keys.
Proof.
  induction interests as [|interest interests IH]; intros lists.
  - cbn [fold_left List.filter]. apply map_ext. intros k. by rewrite app_nil_r.
  - cbn [fold_left].
    assert (categorize (map (λ k, (k, lists k)) tag_keys) interest
            = append_to (category_of interest) interest
                (map (λ k, (k, lists k)) tag_keys)) as ->.
    { unfold categorize, category_of. by destruct (first_category _ _). }
    rewrite append_to_keys by apply tag_keys_NoDup.
    rewrite (IH (λ k, if String.eqb k (category_of interest)
                      then lists k ++ [interest] else lists k)).
    apply map_ext. intros k. cbn [List.filter]. rewrite (String.eqb_sym k).
    destruct (String.eqb (category_of interest) k); [|reflexivity].
    by rewrite <-app_assoc.
Qed.

End TagFacts.

(** X28. [parse_interests_tags] sorts the interests into the eight
    groups (the seven categories and [other]) and drops the empty groups.
    The result holds a group exactly when some interest is of it; its keys
    are distinct; the list of a group is the interests of that group, in the
    order they were given; and every interest is of exactly one group, the
    first category whose keywords hold its lower-case form, or [other]. *)
Theorem interests_are_partitioned {B : Builtins} (interests : list string) :
  let result := Helpers.parse_interests_tags interests in
  let of_group (k : string) :=
    List.filter (λ interest, String.eqb (Helpers.category_of interest) k) interests in
  (∀ k v, (k, v) ∈ result ↔ k ∈ Helpers.tag_keys ∧ v ≠ [] ∧ v = of_group k)
  ∧ NoDup (map fst result)
  ∧ (∀ interest, interest ∈ interests →
       Helpers.category_of interest ∈ Helpers.tag_keys
       ∧ ∃ v, (Helpers.category_of interest, v) ∈ result ∧ interest ∈ v).
Proof.
  intros result of_group.
  assert (result = List.filter (λ kv : string * list string,
                                  match kv.2 with [] => false | _ => true end)
                     (map (λ k, (k, of_group k)) Helpers.tag_keys)) as Hresult.
  { subst result. unfold Helpers.parse_interests_tags. cbv zeta. f_equal.
    apply (categorize_all interests (λ _, [])). }
  assert (∀ k v, (k, v) ∈ result
                 ↔ k ∈ Helpers.tag_keys ∧ v ≠ [] ∧ v = of_group k) as Hin.
  { intros k v. rewrite Hresult, list_elem_of_In, filter_In, in_map_iff. split.
    - intros [(k' & Heq & Hk'%list_elem_of_In) Hv]. injection Heq as -> <-.
      split; [assumption|]. split; [|reflexivity]. cbn [snd] in Hv.
      intros Hnil. by rewrite Hnil in Hv.
    - intros (Hk & Hv & ->). split.
      + exists k. split; [reflexivity|by apply list_elem_of_In].
      + cbn [snd]. by destruct (of_group k). }
  split; [exact Hin|]. split.
  - rewrite Hresult. eapply sublist_NoDup; [apply tag_keys_NoDup|].
    assert (map fst (map (λ k, (k, of_group k)) Helpers.tag_keys) = Helpers.tag_keys)
      as Hkeys by (rewrite map_map; apply map_id).
    rewrite <-Hkeys at 2.
    generalize (map (λ k, (k, of_group k)) Helpers.tag_keys). intros l.
    induction l as [|kv l IH]; [constructor|]. cbn [List.filter map].
    destruct (match kv.2 with [] => false | _ => true end);
      [by apply sublist_skip|by apply sublist_cons].
  - intros interest Hinterest. split; [apply category_of_key|].
    exists (of_group (Helpers.category_of interest)).
    assert (interest ∈ of_group (Helpers.category_of interest)) as Hmember.
    { apply list_elem_of_In, filter_In. split; [by apply list_elem_of_In|].
      apply String.eqb_refl. }
    split; [|exact Hmember]. apply Hin. split; [apply category_of_key|].
    split; [|reflexivity]. intros Hnil. rewrite Hnil in Hmember.
    by apply elem_of_nil in Hmember.
Qed.

(** ** The normaliser and the generator, once more *)

(** X29. The normaliser touches the five fields only: every other key of
    the mapping keeps its value, no key is removed, and the keys of the
    result are those of the input and the five fields. *)
Theorem normalize_touches_five_only (r : gmap string value) :
  (∀ key, key ∉ array_fields → normalize_suggestion_data r !! key = r !! key)
  ∧ (∀ key, is_Some (normalize_suggestion_data r !! key)
            ↔ key ∈ array_fields ∨ is_Some (r !! key)).
Proof.
  split.
  - intros key Hkey. by rewrite normalize_lookup, decide_False.
  - intros key. rewrite normalize_lookup.
    destruct (decide (key ∈ array_fields)) as [Hin|Hout].
    + split; [by left|eauto].
    + split; [by right|]. by intros [|].
Qed.

Section GeneratedFacts.
Import Suggestions.
Context {B : Builtins} {L : Library} {W : World}.




End GeneratedFacts.



